(** * Chankura exchange gateway: a shallow embedding and its properties

    The development follows [service/gateways/chankura.ts] (the most complete
    of the three variants of the gateway): the signed HTTP transport
    [ChankuraHttp], the market-data gateway, the order-entry gateway and the
    position gateway.

    Conventions of the embedding.
    - JavaScript strings are [string]s, read as the UTF-8 bytes of the text.
    - Integer-valued JavaScript numbers (clock readings, the nonce, unix
      timestamps) are [Z].  A JavaScript number is exact on integers of
      magnitude below 2^53 and prints as plain decimal digits below 10^21;
      clock readings (at most 8.64e15) and everything counted up from them
      here stay in that range.
    - A number obtained from [parseFloat] is represented by the mathematical
      value of the literal that was read (ECMAScript's MV); the final
      rounding of that value to a binary64 is not modelled.
    - The body of a response is whatever [JSON.parse] returns. A body is
      given as a value of the venue's interface when it is one, and as a
      JSON value otherwise; the callbacks run on both, and what they do on
      a value of the interface is what they do on its JSON value
      ([respond_parsed], [isStaleNonce_body], [react_body],
      [forEachFill_typed]). What a callback throws rejects its promise and
      reaches [done], which rethrows it.
    - Promises are modelled by an explicit list of requests in flight, each
      with the (defunctionalised) reaction registered on it; one step of the
      machine is one synchronous turn: a timer tick, a call of the gateway's
      API, or the completion of one request together with the promise
      reactions it triggers.  All clock reads of one turn see the same
      instant. *)

From Stdlib Require Import ZArith QArith List String Ascii Bool Lia.
From Stdlib Require Import DecimalString Sorted.
Import ListNotations.

Local Open Scope string_scope.
Local Open Scope list_scope.
Local Open Scope Z_scope.

(** ** JavaScript primitives used by the gateway *)

Module Js.

(** [String.prototype.indexOf]: position of the first occurrence, or -1. *)
Definition indexOf (s pat : string) : Z :=
  match String.index 0 pat s with
  | Some i => Z.of_nat i
  | None => -1
  end.

(** ['' + n] for an integer-valued number [n] (plain digits, |n| < 10^21). *)
Definition intToString (n : Z) : string :=
  NilZero.string_of_int (Z.to_int n).

(** Numbers produced by [parseFloat]. [Dec neg q] is the finite value of
    magnitude [q] (kept reduced) and sign [neg]; zero keeps its sign. *)
Inductive number : Type :=
| NaN
| Inf (neg : bool)
| Dec (neg : bool) (q : Q).

Definition code (c : ascii) : N := N_of_ascii c.

Definition is_digit (c : ascii) : bool :=
  (48 <=? code c)%N && (code c <=? 57)%N.

Definition digit_val (c : ascii) : Z := Z.of_N (code c - 48).

(** Reads the longest run of decimal digits: accumulated value, number of
    digits read, and the rest of the input. *)
Fixpoint read_digits (acc : Z) (cnt : nat) (s : string) : Z * nat * string :=
  match s with
  | String c r =>
      if is_digit c then read_digits (10 * acc + digit_val c) (S cnt) r
      else (acc, cnt, s)
  | EmptyString => (acc, cnt, s)
  end.

(** StrWhiteSpaceChar (WhiteSpace and LineTerminator), on UTF-8 bytes. *)
Fixpoint strip_ws (s : string) : string :=
  match s with
  | String c r =>
      let n := code c in
      if ((9 <=? n) && (n <=? 13) || (n =? 32))%N then strip_ws r
      else
        match r with
        | String c2 r2 =>
            let n2 := code c2 in
            if ((n =? 194) && (n2 =? 160))%N then strip_ws r2   (* U+00A0 *)
            else
              match r2 with
              | String c3 r3 =>
                  let n3 := code c3 in
                  if ((n =? 225) && (n2 =? 154) && (n3 =? 128)       (* U+1680 *)
                      || (n =? 226) && (n2 =? 128)
                         && ((128 <=? n3) && (n3 <=? 138)            (* U+2000..200A *)
                             || (n3 =? 168) || (n3 =? 169)           (* U+2028, U+2029 *)
                             || (n3 =? 175))                         (* U+202F *)
                      || (n =? 226) && (n2 =? 129) && (n3 =? 159)    (* U+205F *)
                      || (n =? 227) && (n2 =? 128) && (n3 =? 128)    (* U+3000 *)
                      || (n =? 239) && (n2 =? 187) && (n3 =? 191))%N (* U+FEFF *)
                  then strip_ws r3
                  else s
              | EmptyString => s
              end
        | EmptyString => s
        end
  | EmptyString => s
  end.

(** ExponentPart, when a complete one starts the input; 0 otherwise (the
    longest literal prefix then ends before the exponent indicator). *)
Definition read_exponent (s : string) : Z :=
  match s with
  | String c r =>
      if ((code c =? 101) || (code c =? 69))%N then
        let '(neg, r') :=
          match r with
          | String "+" r1 => (false, r1)
          | String "-" r1 => (true, r1)
          | _ => (false, r)
          end in
        let '(v, n, _) := read_digits 0 0 r' in
        match n with
        | O => 0
        | S _ => if neg then - v else v
        end
      else 0
  | EmptyString => 0
  end.

(** The value [m * 10^e] as a reduced fraction. *)
Definition scale10 (m e : Z) : Q :=
  if (0 <=? e)%Z then Qred (m * 10 ^ e # 1)
  else Qred (m # Z.to_pos (10 ^ (- e))).

(** StrUnsignedDecimalLiteral: longest prefix of the input. *)
Definition read_unsigned (neg : bool) (s : string) : number :=
  if String.prefix "Infinity" s then Inf neg
  else
    let '(ip, ni, r1) := read_digits 0 0 s in
    match r1 with
    | String "." r1' =>
        let '(m, n, r2) := read_digits ip ni r1' in
        match n with
        | O => NaN
        | S _ => Dec neg (scale10 m (read_exponent r2 - Z.of_nat (n - ni)))
        end
    | _ =>
        match ni with
        | O => NaN
        | S _ => Dec neg (scale10 ip (read_exponent r1))
        end
    end.

(** [parseFloat]: leading white space is dropped, then the longest prefix
    that is a StrDecimalLiteral is read; [NaN] when there is none. *)
Definition parseFloat (s : string) : number :=
  match strip_ws s with
  | String "+" r => read_unsigned false r
  | String "-" r => read_unsigned true r
  | t => read_unsigned false t
  end.

(** [querystring.escape] on the UTF-8 bytes: the unreserved characters
    [A-Za-z0-9-_.!~*'()] stay, every other byte becomes [%XX]. *)
Definition unreserved (c : ascii) : bool :=
  let n := code c in
  ((48 <=? n) && (n <=? 57) || (65 <=? n) && (n <=? 90)
   || (97 <=? n) && (n <=? 122)
   || (n =? 45) || (n =? 95) || (n =? 46) || (n =? 33) || (n =? 126)
   || (n =? 42) || (n =? 39) || (n =? 40) || (n =? 41))%N.

Definition hex_digit (n : N) : ascii :=
  if (n <? 10)%N then ascii_of_N (48 + n) else ascii_of_N (55 + n).

Fixpoint escape (s : string) : string :=
  match s with
  | EmptyString => EmptyString
  | String c r =>
      if unreserved c then String c (escape r)
      else String "%" (String (hex_digit (code c / 16))
                         (String (hex_digit (code c mod 16)) (escape r)))
  end.

(** Property values that reach [querystring.stringify] in this gateway. *)
Inductive value : Type :=
| VString (s : string)
| VInt (n : Z)
| VUndefined.

(** [stringifyPrimitive]: strings as they are, finite numbers printed,
    anything else empty. *)
Definition stringifyPrimitive (v : value) : string :=
  match v with
  | VString s => s
  | VInt n => intToString n
  | VUndefined => ""
  end.

(** A plain object with its own enumerable properties in insertion
    order. [_.clone] of such an object has the same properties. *)
Definition object : Type := list (string * value).

Definition clone (o : object) : object := o.

Fixpoint stringify (o : object) : string :=
  match o with
  | [] => ""
  | [(k, v)] => (escape k ++ "=" ++ escape (stringifyPrimitive v))%string
  | (k, v) :: rest =>
      (escape k ++ "=" ++ escape (stringifyPrimitive v) ++ "&"
         ++ stringify rest)%string
  end.

(** *** The values of [JSON.parse]

    Nothing checks a parsed body against the interface it is read through,
    so a body can be any JSON value. An object is given by its own
    properties, of distinct names, in the order in which the engine
    enumerates them; a number by its value, as above. *)
#[warnings="-register-all"]
Inductive json : Type :=
| JNull
| JBool (b : bool)
| JNumber (n : number)
| JString (s : string)
| JArray (items : list json)
| JObject (fields : list (string * json)).

Fixpoint lookup (name : string) (fields : list (string * json))
  : option json :=
  match fields with
  | [] => None
  | (k, v) :: rest => if String.eqb k name then Some v else lookup name rest
  end.

(** [v.name] for a value other than [null] and a name that no prototype
    defines, as is every name the gateway reads: the own property of an
    object, [undefined] (that is [None]) on anything else. *)
Definition prop (name : string) (v : json) : option json :=
  match v with
  | JObject fields => lookup name fields
  | _ => None
  end.

(** lodash's [isLength]: an integer from 0 to 2^53 - 1 (minus zero
    included), as a length. *)
Definition isLength (n : number) : option nat :=
  match n with
  | Dec neg q =>
      if ((0 <=? Qnum q)%Z && (Qnum q mod Z.pos (Qden q) =? 0)%Z
          && (Qnum q / Z.pos (Qden q) <=? 9007199254740991)%Z
          && (negb neg || (Qnum q =? 0)%Z))%bool
      then Some (Z.to_nat (Qnum q / Z.pos (Qden q)))
      else None
  | _ => None
  end.

(** The UTF-16 units of a text, each as a string of its own: one for a
    character of one to three bytes, two for one of four. The gateway
    reads from a unit only properties that no string has, so nothing
    depends on its content; it is given by the leading byte. *)
Fixpoint units (s : string) : list json :=
  match s with
  | EmptyString => []
  | String c r =>
      let n := code c in
      if ((n <? 128) || (192 <=? n) && (n <? 240))%N
      then JString (String c "") :: units r
      else if (240 <=? n)%N
           then JString (String c "") :: JString (String c "") :: units r
           else units r
  end.

(** What lodash's [_.forEach] and [_.map] hand to their callback, in
    order: the elements of an array; the units of a string; for an object
    whose [length] is a length, the properties ["0"], ["1"], ... below it
    ([undefined] where there is none); the property values of any other
    object; nothing for [null], a boolean or a number. *)
Definition elements (v : json) : list (option json) :=
  match v with
  | JArray items => map Some items
  | JString s => map Some (units s)
  | JObject fields =>
      match
        match lookup "length" fields with
        | Some (JNumber n) => isLength n
        | _ => None
        end
      with
      | Some len =>
          map (fun i => lookup (intToString (Z.of_nat i)) fields) (seq 0 len)
      | None => map (fun f => Some (snd f)) fields
      end
  | _ => []
  end.

(** [ToString] throws a [TypeError] on an object with an own property
    [toString] (a parsed value is never callable, and the inherited
    [valueOf] returns the object), also when such an object is an element
    of an array, at any depth; it succeeds on everything else. *)
Fixpoint printable (v : json) : bool :=
  match v with
  | JArray items =>
      (fix all (l : list json) : bool :=
         match l with
         | [] => true
         | x :: r => printable x && all r
         end) items
  | JObject fields =>
      match lookup "toString" fields with
      | Some _ => false
      | None => true
      end
  | _ => true
  end.

(** [parseFloat(ToString(v))] for a printable [v]. A number reads back
    from its own print (minus zero prints as ["0"]); an array prints its
    elements between commas, [null] as nothing, so that what is read is
    read from the first element; an object prints as ["[object Object]"]
    and a boolean as its name. *)
Fixpoint numberOf (v : json) : number :=
  match v with
  | JNumber (Dec true q) => if (Qnum q =? 0)%Z then Dec false q else Dec true q
  | JNumber n => n
  | JString s => parseFloat s
  | JArray (x :: _) => numberOf x
  | _ => NaN
  end.

(** [parseFloat(x)] for a property value [x], [undefined] included;
    [None] when it throws. *)
Definition parseFloatOf (x : option json) : option number :=
  match x with
  | None => Some NaN
  | Some v => if printable v then Some (numberOf v) else None
  end.

(** [Array.prototype.indexOf(text) > -1]: some element is that string. *)
Definition includes (items : list json) (text : string) : bool :=
  existsb (fun x => match x with
                    | JString s => String.eqb s text
                    | _ => false
                    end) items.

End Js.

(** ** The canonical model ([common/models.ts])

    The declarations of [Models] are not among the sources; the types below
    are what the gateway constructs and inspects, with the members the
    gateway names. *)

Module Models.

(** Enumerations, one name space each as in TypeScript. *)
Module Side.
Inductive t : Type := Bid | Ask | Unknown.
End Side.

Module OrderType.
Inductive t : Type := Limit | Market.
End OrderType.

(** The gateway names [FOK] and [GTC]; [IOC] is the remaining member. *)
Module TimeInForce.
Inductive t : Type := IOC | FOK | GTC.
End TimeInForce.

Module OrderStatus.
Inductive t : Type := Working | Rejected | Cancelled | Complete | Other.
End OrderStatus.

(** A [Date]: a clock reading (milliseconds), or what [moment] reads from
    a venue text, or from a property that is no text ([undefined]
    included). *)
Inductive Date : Type :=
| DateAt (ms : Z)
| MomentOf (text : string)
| MomentOfValue (v : option Js.json).

Record MarketSide : Type :=
  { ms_price : Js.number; ms_size : Js.number }.

Record Market : Type :=
  { bids : list MarketSide; asks : list MarketSide; market_time : Z }.

Record GatewayMarketTrade : Type :=
  { mt_price : Js.number;
    mt_size : Js.number;
    mt_time : Date;
    isFirstObservedBatch : bool;
    mt_side : Side.t }.

Record Timestamped (T : Type) : Type :=
  { data : T; time : Z }.
Arguments data {T} _.
Arguments time {T} _.

Record CurrencyPosition : Type :=
  { amount : Js.number; heldAmount : Js.number; currency : string }.

Record OrderStatusReport : Type :=
  { orderId : string;
    exchangeId : option string;
    side : Side.t;
    quantity : Js.number;
    price : Js.number;
    timeInForce : TimeInForce.t;
    type : OrderType.t;
    report_time : Z }.

(** A partial update: every property may be absent. *)
Record OrderStatusUpdate : Type :=
  { u_orderId : option string;
    u_exchangeId : option string;
    u_orderStatus : option OrderStatus.t;
    u_rejectMessage : option string;
    u_cancelRejected : option bool;
    u_time : option Z;
    u_computationalLatency : option Z;
    u_lastPrice : option Js.number;
    u_lastQuantity : option Js.number;
    u_averagePrice : option Js.number;
    u_leavesQuantity : option Js.number;
    u_cumQuantity : option Js.number;
    u_quantity : option Js.number }.

End Models.

Import Models.

(** Modelled from the spec: [Utils.fastDiff] is not among the sources; the
    latency is the wall-clock delta from the creation of the intent to its
    submission. *)
Definition fastDiff (x y : Z) : Z := x - y.

(** [moment(...).unix()]: whole seconds of a millisecond clock reading. *)
Definition unix (ms : Z) : Z := ms / 1000.

(** ** Venue interfaces *)

Record ChankuraPositionResponseItem : Type :=
  { pos_currency : string; pos_balance : string; pos_locked : string }.

Record ChankuraMarketLevel : Type :=
  { level_price : string; level_volume : string }.

Record ChankuraOrderBook : Type :=
  { book_bids : list ChankuraMarketLevel; book_asks : list ChankuraMarketLevel }.

Record ChankuraNewOrderRequest : Type :=
  { req_market : string;
    req_ord_type : string;
    req_price : string;
    req_side : string;
    req_volume : string }.

(** [message] is tested against [undefined] by the gateway, and [id] is
    read only when there is no message. *)
Record ChankuraNewOrderResponse : Type :=
  { new_id : option string; new_message : option string }.

Record ChankuraDeleteOrderResponse : Type :=
  { del_message : option string }.

Record ChankuraMarketTrade : Type :=
  { trade_id : string;
    trade_price : string;
    trade_volume : string;
    trade_market : string;
    trade_created_at : string;
    trade_side : string }.

Record ChankuraOrderStatusResponse : Type :=
  { os_id : string;
    os_side : string;
    os_price : string;
    os_avg_price : string;
    os_state : string;
    os_market : string;
    os_created_at : string;
    os_volume : string;
    os_remaining_volume : string;
    os_executed_volume : string;
    os_trades : list ChankuraMarketTrade }.

Record ChankuraMyTradesResponse : Type :=
  { my_id : string;
    my_price : string;
    my_volume : string;
    my_market : string;
    my_created_at : string;
    my_side : string }.

(** ** Helper functions *)

Definition ConvertToMarketSide (level : ChankuraMarketLevel) : MarketSide :=
  {| ms_price := Js.parseFloat (level_price level);
     ms_size := Js.parseFloat (level_volume level) |}.

Definition ConvertToMarketSides (level : list ChankuraMarketLevel)
  : list MarketSide :=
  map ConvertToMarketSide level.

Definition encodeSide (side : Side.t) : string :=
  match side with
  | Side.Bid => "buy"
  | Side.Ask => "sell"
  | Side.Unknown => ""
  end.

Definition decodeSide (side : string) : Side.t :=
  if String.eqb side "buy" then Side.Bid
  else if String.eqb side "sell" then Side.Ask
  else Side.Unknown.

(** What a synchronous call may throw, and what may reject a promise;
    [TypeError] is what the engine throws when a property of [null] or
    [undefined] is read, when something that is no function is called, and
    when a value has no string form. *)
Inductive Error : Type :=
| UnsupportedTif (tif : TimeInForce.t) (type : OrderType.t)
| RequestError (err : string)
| JsonParseError (body : string)
| TypeError.

Definition encodeTimeInForce (tif : TimeInForce.t) (type : OrderType.t)
  : Error + string :=
  match type with
  | OrderType.Market => inr "exchange market"
  | OrderType.Limit =>
      match tif with
      | TimeInForce.FOK => inr "exchange fill-or-kill"
      | TimeInForce.GTC => inr "exchange limit"
      | _ => inl (UnsupportedTif tif type)
      end
  end.

Definition _getOrderStatus (r : ChankuraOrderStatusResponse) : OrderStatus.t :=
  if String.eqb (os_state r) "wait" then OrderStatus.Working
  else if String.eqb (os_state r) "cancel" then OrderStatus.Cancelled
  else if String.eqb (os_state r) "done" then OrderStatus.Complete
  else OrderStatus.Other.

(** ** Requests, responses and the state of the connector *)

(** The options passed to [request]. *)
Record Options : Type :=
  { opt_timeout : Z;
    opt_url : string;
    opt_qs : option Js.object;
    opt_method : string }.

(** One call of [_postOnce]: its arguments and the nonce it read. *)
Record Attempt : Type :=
  { at_nonce : Z;
    at_method : string;
    at_actionUrl : string;
    at_msg : Js.object }.

(** The parsed body of a response: a value of one of the venue's
    interfaces, or any JSON value as it is ([Body]); nothing makes the
    venue answer a request with a body of the interface that the caller
    reads it through. [PositionsPayload] is the array under ['accounts']. *)
Inductive Payload : Type :=
| OrderBookPayload (book : ChankuraOrderBook)
| MarketTradesPayload (trades : list ChankuraMarketTrade)
| NewOrderPayload (r : ChankuraNewOrderResponse)
| DeleteOrderPayload (r : ChankuraDeleteOrderResponse)
| OrderStatusPayload (r : ChankuraOrderStatusResponse)
| MyTradesPayload (trades : list ChankuraMyTradesResponse)
| PositionsPayload (accounts : list ChankuraPositionResponseItem)
| Body (v : Js.json).

(** How a request ends: [request] reports an error, or hands over a body
    that [JSON.parse] refuses, or one that it parses. *)
Inductive Outcome : Type :=
| Failed (err : string)
| Unparsable (body : string)
| Parsed (p : Payload).

(** [(<any>(resp.data)).message]: only the order responses declare it. *)
Definition message (p : Payload) : option string :=
  match p with
  | NewOrderPayload r => new_message r
  | DeleteOrderPayload r => del_message r
  | _ => None
  end.

(** The reactions registered with [then] on the promise of a signed call
    by the callers of [post]. The reaction on the detail of an order holds
    the fill it was asked for: a [ChankuraMyTradesResponse], or, for an
    element that is none, what the reaction reads from it ([id], [price]
    and [volume], [None] being [undefined]). *)
Inductive PostReaction : Type :=
| ThenSendOrder (order : OrderStatusReport)
| ThenCancelOrder (cancel : OrderStatusReport)
| ThenOrderStatuses
| ThenOrderDetail (trade : ChankuraMyTradesResponse)
| ThenPositions
| ThenOrderDetailOf (id price volume : option Js.json).

(** The reaction registered on the promise of [doRequest]: the callers'
    [onMarketData] and [onTrades] for [get], and for [_postOnce] the
    reaction of [post], which remembers its own arguments, followed by the
    caller's. The nonce in [attempt] is the one the request carries. *)
Inductive Reaction : Type :=
| ThenOnMarketData
| ThenOnTrades
| ThenPost (attempt : Attempt) (k : PostReaction).

Record Pending : Type :=
  { p_opts : Options; p_then : Reaction }.

Record ChankuraHttp : Type :=
  { _timeout : Z;
    _baseUrl : string;
    _apiKey : string;
    _secret : string;
    _nonce : Z }.

Record Config : Type :=
  { ChankuraHttpUrl : string;
    ChankuraKey : string;
    ChankuraSecret : string }.

(** The connector: the transport, the symbol of the traded pair, the
    [_since] of the market-data gateway ([None] is [null]; unix seconds),
    the [_since] of the order-entry gateway (a moment, in milliseconds),
    and the requests in flight. *)
Record State : Type :=
  { http : ChankuraHttp;
    symbol : string;
    md_since : option Z;
    oe_since : Z;
    inflight : list Pending }.

(** What the connector does that can be observed. [OrderUpdateOf] is an
    update whose [exchangeId] or [rejectMessage] is no text: the update
    without the two, and their values; [PositionUpdateOf] is a position
    whose currency is no text. *)
Inductive Output : Type :=
| HttpRequest (opts : Options) (signed : option Attempt)
| LogError (e : Error) (url : string)
| MarketData (m : Market)
| MarketTrade (t : GatewayMarketTrade)
| OrderUpdate (u : OrderStatusUpdate)
| PositionUpdate (p : CurrencyPosition)
| Uncaught (e : Error)
| OrderUpdateOf (u : OrderStatusUpdate)
                (exchangeId rejectMessage : option Js.json)
| PositionUpdateOf (amount heldAmount : Js.number) (currency : option Js.json).

(** What drives the connector: the timers set up by the constructors, the
    calls of the trading engine, and the completion of the request at a
    position of the in-flight list. *)
Inductive Input : Type :=
| TimerMarketData
| TimerMarketTrades
| TimerOrderStatuses
| TimerPositions
| SendOrder (order : OrderStatusReport)
| CancelOrder (cancel : OrderStatusReport)
| ReplaceOrder (replace : OrderStatusReport)
| Response (i : nat) (o : Outcome).

(** The result of a turn: the new state, what was observed, and the error
    thrown to the caller of the turn, if any. *)
Record Result : Type :=
  { next : State; out : list Output; thrown : option Error }.

Definition set_http (st : State) (h : ChankuraHttp) : State :=
  {| http := h; symbol := symbol st; md_since := md_since st;
     oe_since := oe_since st; inflight := inflight st |}.

Definition set_md_since (st : State) (s : option Z) : State :=
  {| http := http st; symbol := symbol st; md_since := s;
     oe_since := oe_since st; inflight := inflight st |}.

Definition set_oe_since (st : State) (s : Z) : State :=
  {| http := http st; symbol := symbol st; md_since := md_since st;
     oe_since := s; inflight := inflight st |}.

Definition set_inflight (st : State) (l : list Pending) : State :=
  {| http := http st; symbol := symbol st; md_since := md_since st;
     oe_since := oe_since st; inflight := l |}.

Fixpoint remove_at {A : Type} (i : nat) (l : list A) : list A :=
  match l, i with
  | [], _ => []
  | _ :: r, O => r
  | x :: r, S j => x :: remove_at j r
  end.

Definition stale_nonce_text : string := "Nonce is too small".

(** ** Bodies as JSON values

    The value of an interface as the JSON value it is, with the properties
    that the records above keep, in the order of the interface. *)

Definition levelJson (level : ChankuraMarketLevel) : Js.json :=
  Js.JObject [("price", Js.JString (level_price level));
              ("volume", Js.JString (level_volume level))].

Definition marketTradeJson (trade : ChankuraMarketTrade) : Js.json :=
  Js.JObject [("id", Js.JString (trade_id trade));
              ("price", Js.JString (trade_price trade));
              ("volume", Js.JString (trade_volume trade));
              ("market", Js.JString (trade_market trade));
              ("created_at", Js.JString (trade_created_at trade));
              ("side", Js.JString (trade_side trade))].

Definition myTradeJson (trade : ChankuraMyTradesResponse) : Js.json :=
  Js.JObject [("id", Js.JString (my_id trade));
              ("price", Js.JString (my_price trade));
              ("volume", Js.JString (my_volume trade));
              ("market", Js.JString (my_market trade));
              ("created_at", Js.JString (my_created_at trade));
              ("side", Js.JString (my_side trade))].

Definition accountJson (p : ChankuraPositionResponseItem) : Js.json :=
  Js.JObject [("currency", Js.JString (pos_currency p));
              ("balance", Js.JString (pos_balance p));
              ("locked", Js.JString (pos_locked p))].

Definition optionalField (name : string) (v : option string)
  : list (string * Js.json) :=
  match v with
  | Some s => [(name, Js.JString s)]
  | None => []
  end.

Definition bodyOf (p : Payload) : Js.json :=
  match p with
  | OrderBookPayload book =>
      Js.JObject [("bids", Js.JArray (map levelJson (book_bids book)));
                  ("asks", Js.JArray (map levelJson (book_asks book)))]
  | MarketTradesPayload trades => Js.JArray (map marketTradeJson trades)
  | NewOrderPayload r =>
      Js.JObject (optionalField "id" (new_id r)
                    ++ optionalField "message" (new_message r))
  | DeleteOrderPayload r => Js.JObject (optionalField "message" (del_message r))
  | OrderStatusPayload r =>
      Js.JObject [("id", Js.JString (os_id r));
                  ("side", Js.JString (os_side r));
                  ("price", Js.JString (os_price r));
                  ("avg_price", Js.JString (os_avg_price r));
                  ("state", Js.JString (os_state r));
                  ("market", Js.JString (os_market r));
                  ("created_at", Js.JString (os_created_at r));
                  ("volume", Js.JString (os_volume r));
                  ("remaining_volume", Js.JString (os_remaining_volume r));
                  ("executed_volume", Js.JString (os_executed_volume r));
                  ("trades", Js.JArray (map marketTradeJson (os_trades r)))]
  | MyTradesPayload trades => Js.JArray (map myTradeJson trades)
  | PositionsPayload accounts =>
      Js.JObject [("accounts", Js.JArray (map accountJson accounts))]
  | Body v => v
  end.

(** How the test of [post] on the message of a body ends. *)
Inductive MessageTest : Type :=
| NoRetry
| Retry
| Throws.

(** [_.forEach] and [_.map] over a collection: the callback runs on the
    elements in order until it throws; the results so far, and whether
    the end was reached. *)
Fixpoint collect {A : Type} (f : option Js.json -> option A)
         (items : list (option Js.json)) : list A * bool :=
  match items with
  | [] => ([], true)
  | item :: rest =>
      match f item with
      | Some a => let '(l, ok) := collect f rest in (a :: l, ok)
      | None => ([], false)
      end
  end.

(** ** Event channels ([service/utils.ts])

    [Evt] keeps its handlers in an array. Handlers are functions, told apart
    by identity; what a handler does to the channel it is subscribed to
    while it runs is a sequence of [on] and [off] calls (a handler that
    triggers the channel again is not modelled). The gateway constructs
    every channel without initial handlers. *)

Module Evt.
Section Model.

Variable H : Type.
Variable T : Type.
Variable same : forall a b : H, {a = b} + {a <> b}.

Inductive Cmd : Type :=
| On (handler : H)
| Off (handler : H).

(** [new Evt()] *)
Definition create : list H := [].

(** [this.handlers.push(handler)] *)
Definition on (handlers : list H) (handler : H) : list H :=
  handlers ++ [handler].

(** [this.handlers = this.handlers.filter(h => h !== handler)] *)
Definition off (handlers : list H) (handler : H) : list H :=
  filter (fun h => if same h handler then false else true) handlers.

Definition exec (handlers : list H) (c : Cmd) : list H :=
  match c with
  | On handler => on handlers handler
  | Off handler => off handlers handler
  end.

(** The loop of [trigger] from the index [i]: the length and the element
    are read from the current array at every round, and the handler called
    may have changed the array when the next round starts. The result is
    the array left behind and the calls made, in order; [None] when the
    rounds allowed are used up. *)
Fixpoint triggerFrom (body : H -> list Cmd) (data : T) (rounds : nat)
         (handlers : list H) (i : nat) : option (list H * list (H * T)) :=
  match rounds with
  | O => None
  | S rounds' =>
      match nth_error handlers i with
      | None => Some (handlers, [])
      | Some h =>
          match triggerFrom body data rounds'
                            (fold_left exec (body h) handlers) (S i) with
          | Some (after, calls) => Some (after, (h, data) :: calls)
          | None => None
          end
      end
  end.

Definition trigger (body : H -> list Cmd) (data : T) (rounds : nat)
           (handlers : list H) : option (list H * list (H * T)) :=
  triggerFrom body data rounds handlers 0.

End Model.

Arguments On {H} handler.
Arguments Off {H} handler.
Arguments create {H}.
Arguments on {H} handlers handler.
Arguments off {H} same handlers handler.
Arguments exec {H} same handlers c.
Arguments triggerFrom {H T} same body data rounds handlers i.
Arguments trigger {H T} same body data rounds handlers.

End Evt.

Section Gateway.

(** [crypto.createHmac("sha256", secret).update(payload).digest('hex')] *)
Variable hmacSha256Hex : string -> string -> string.

(** [Number.prototype.toString] *)
Variable numberToString : Js.number -> string.

(** *** ChankuraHttp *)

Definition newChankuraHttp (config : Config) (now : Z) : ChankuraHttp :=
  {| _timeout := 15000;
     _baseUrl := ChankuraHttpUrl config;
     _apiKey := ChankuraKey config;
     _secret := ChankuraSecret config;
     _nonce := now |}.

Definition params (h : ChankuraHttp) : string :=
  ("access_key=" ++ _apiKey h ++ "&tonce=" ++ Js.intToString (_nonce h)
     ++ "&")%string.

Definition payload (h : ChankuraHttp) (method actionUrl : string)
           (msg : Js.object) : string :=
  (method ++ "|api/v2" ++ actionUrl ++ "|" ++ params h
     ++ Js.stringify msg)%string.

Definition signature (h : ChankuraHttp) (method actionUrl : string)
           (msg : Js.object) : string :=
  hmacSha256Hex (_secret h) (payload h method actionUrl msg).

Definition signedUrl (h : ChankuraHttp) (method actionUrl : string)
           (msg : Js.object) : string :=
  (_baseUrl h ++ "/" ++ actionUrl ++ "?" ++ params h ++ Js.stringify msg
     ++ "&signature" ++ signature h method actionUrl msg)%string.

(** [_postOnce]: the request it hands to [doRequest], the transport with
    the nonce advanced, and the record of the attempt. *)
Definition _postOnce (h : ChankuraHttp) (method actionUrl : string)
           (msg : Js.object) : ChankuraHttp * Options * Attempt :=
  let url := signedUrl h method actionUrl msg in
  let h' := {| _timeout := _timeout h; _baseUrl := _baseUrl h;
               _apiKey := _apiKey h; _secret := _secret h;
               _nonce := _nonce h + 1 |} in
  (h',
   {| opt_timeout := _timeout h; opt_url := url; opt_qs := None;
      opt_method := method |},
   {| at_nonce := _nonce h; at_method := method;
      at_actionUrl := actionUrl; at_msg := msg |}).

Definition get (h : ChankuraHttp) (actionUrl : string)
           (qs : option Js.object) : Options :=
  {| opt_timeout := _timeout h;
     opt_url := (_baseUrl h ++ "/" ++ actionUrl)%string;
     opt_qs := qs;
     opt_method := "GET" |}.

(** [doRequest]'s callback: the promise is rejected (after logging) or
    resolved with the parsed body stamped with the time of receipt. *)
Definition doRequest (url : string) (now : Z) (o : Outcome)
  : list Output * (Error + Timestamped Payload) :=
  match o with
  | Failed err => ([LogError (RequestError err) url], inl (RequestError err))
  | Unparsable body =>
      ([LogError (JsonParseError body) url], inl (JsonParseError body))
  | Parsed p => ([], inr {| data := p; time := now |})
  end.

(** The test of [post] on the message of any body: reading [message]
    from [null] throws; a message that is [undefined] ends the test; a
    text is searched; an array has an [indexOf] of its own, which looks for
    an element that is the text; anything else has no [indexOf] that can be
    called, and the call throws. *)
Definition testMessage (v : Js.json) : MessageTest :=
  match v with
  | Js.JNull => Throws
  | _ =>
      match Js.prop "message" v with
      | None => NoRetry
      | Some (Js.JString rejectMsg) =>
          if Js.indexOf rejectMsg stale_nonce_text >? -1 then Retry
          else NoRetry
      | Some (Js.JArray items) =>
          if Js.includes items stale_nonce_text then Retry else NoRetry
      | Some _ => Throws
      end
  end.

(** The test of [post] on a resolved attempt. *)
Definition isStaleNonce (p : Payload) : bool :=
  match p with
  | Body v =>
      match testMessage v with
      | Retry => true
      | _ => false
      end
  | _ =>
      match message p with
      | Some rejectMsg => Js.indexOf rejectMsg stale_nonce_text >? -1
      | None => false
      end
  end.

(** A call of [get(...).then(reaction)]: one request goes out and joins
    the requests in flight. *)
Definition startGet (st : State) (actionUrl : string) (qs : Js.object)
           (reaction : Reaction) : State * list Output :=
  let opts := get (http st) actionUrl (Some qs) in
  (set_inflight st (inflight st ++ [{| p_opts := opts; p_then := reaction |}]),
   [HttpRequest opts None]).

(** A call of [post(method, actionUrl, msg).then(k)]: [_postOnce] runs at
    once on a clone of the message. *)
Definition post (st : State) (method actionUrl : string) (msg : Js.object)
           (k : PostReaction) : State * list Output :=
  let '(h', opts, attempt) :=
    _postOnce (http st) method actionUrl (Js.clone msg) in
  (set_inflight (set_http st h')
     (inflight st ++ [{| p_opts := opts; p_then := ThenPost attempt k |}]),
   [HttpRequest opts (Some attempt)]).

(** *** ChankuraMarketDataGateway *)

Definition convertTrade (since : option Z) (trade : ChankuraMarketTrade)
  : GatewayMarketTrade :=
  {| mt_price := Js.parseFloat (trade_price trade);
     mt_size := Js.parseFloat (trade_volume trade);
     mt_time := MomentOf (trade_created_at trade);
     isFirstObservedBatch :=
       match since with None => true | Some _ => false end;
     mt_side := decodeSide (trade_side trade) |}.

(** Every trade is triggered on [MarketTrade]; [_since] is set to the
    clock's unix time once the loop is over. *)
Definition onTrades (now : Z) (st : State)
           (trades : Timestamped (list ChankuraMarketTrade))
  : State * list Output :=
  (set_md_since st (Some (unix now)),
   map (fun trade => MarketTrade (convertTrade (md_since st) trade))
       (data trades)).

(** [moment(x)] and [decodeSide(x)] for a property value. *)
Definition momentOf (x : option Js.json) : Date :=
  match x with
  | Some (Js.JString text) => MomentOf text
  | _ => MomentOfValue x
  end.

Definition decodeSideOf (x : option Js.json) : Side.t :=
  match x with
  | Some (Js.JString side) => decodeSide side
  | _ => Side.Unknown
  end.

(** The callback of [onTrades] on an element of any kind, up to the
    construction of the trade; [None] when it throws: on [null] and
    [undefined], whose properties cannot be read, and on a price or a
    volume without a string form. *)
Definition convertTradeOf (since : option Z) (item : option Js.json)
  : option GatewayMarketTrade :=
  match item with
  | None | Some Js.JNull => None
  | Some trade =>
      match Js.parseFloatOf (Js.prop "price" trade),
            Js.parseFloatOf (Js.prop "volume" trade) with
      | Some px, Some sz =>
          Some {| mt_price := px;
                  mt_size := sz;
                  mt_time := momentOf (Js.prop "created_at" trade);
                  isFirstObservedBatch :=
                    match since with None => true | Some _ => false end;
                  mt_side := decodeSideOf (Js.prop "side" trade) |}
      | _, _ => None
      end
  end.

(** [onTrades] on any body: a trade is triggered for every element until
    the callback throws; [_since] is set only when the loop reaches its
    end, and what the callback throws rejects the promise. *)
Definition onTradesBody (now : Z) (st : State) (v : Js.json)
  : State * list Output :=
  let '(trades, ok) :=
    collect (convertTradeOf (md_since st)) (Js.elements v) in
  if ok then (set_md_since st (Some (unix now)), map MarketTrade trades)
  else (st, map MarketTrade trades ++ [Uncaught TypeError]).

Definition downloadMarketTrades (now : Z) (st : State) : State * list Output :=
  startGet st "trades.json"
    [("market", Js.VString (symbol st));
     ("timestamp",
      Js.VInt match md_since st with
              | None => unix (now - 60 * 1000)
              | Some since => since
              end)]
    ThenOnTrades.

Definition onMarketData (st : State) (book : Timestamped ChankuraOrderBook)
  : State * list Output :=
  (st,
   [MarketData {| bids := ConvertToMarketSides (book_bids (data book));
                  asks := ConvertToMarketSides (book_asks (data book));
                  market_time := time book |}]).

Definition convertLevelOf (item : option Js.json) : option MarketSide :=
  match item with
  | None | Some Js.JNull => None
  | Some level =>
      match Js.parseFloatOf (Js.prop "price" level),
            Js.parseFloatOf (Js.prop "volume" level) with
      | Some px, Some sz => Some {| ms_price := px; ms_size := sz |}
      | _, _ => None
      end
  end.

(** [ConvertToMarketSides(x)] for a property value; [_.map] gives the empty
    array for [undefined]. *)
Definition sidesOf (x : option Js.json) : option (list MarketSide) :=
  match x with
  | None => Some []
  | Some levels =>
      let '(sides, ok) := collect convertLevelOf (Js.elements levels) in
      if ok then Some sides else None
  end.

(** [onMarketData] on any body: reading [bids] from [null] throws, and so
    does the conversion of a level that is [null]; the book is triggered
    when nothing has thrown. *)
Definition onMarketDataBody (st : State) (v : Js.json) (time : Z)
  : State * list Output :=
  match v with
  | Js.JNull => (st, [Uncaught TypeError])
  | _ =>
      match sidesOf (Js.prop "bids" v), sidesOf (Js.prop "asks" v) with
      | Some bs, Some as_ =>
          (st, [MarketData {| bids := bs; asks := as_; market_time := time |}])
      | _, _ => (st, [Uncaught TypeError])
      end
  end.

Definition downloadMarketData (st : State) : State * list Output :=
  startGet st "order_book.json"
    [("market", Js.VString (symbol st));
     ("bids_limit", Js.VInt 5);
     ("asks_limit", Js.VInt 5)]
    ThenOnMarketData.

(** *** ChankuraOrderEntryGateway *)

Definition convertToOrderRequest (st : State) (order : OrderStatusReport)
  : Error + ChankuraNewOrderRequest :=
  match encodeTimeInForce (timeInForce order) (type order) with
  | inl e => inl e
  | inr ord_type =>
      inr {| req_volume := numberToString (quantity order);
             req_price := numberToString (price order);
             req_side := encodeSide (side order);
             req_market := symbol st;
             req_ord_type := ord_type |}
  end.

(** The request as the object the literal builds, properties in order. *)
Definition newOrderObject (req : ChankuraNewOrderRequest) : Js.object :=
  [("volume", Js.VString (req_volume req));
   ("price", Js.VString (req_price req));
   ("side", Js.VString (req_side req));
   ("market", Js.VString (req_market req));
   ("ord_type", Js.VString (req_ord_type req))].

Definition deleteOrderObject (cancel : OrderStatusReport) : Js.object :=
  [("id", match exchangeId cancel with
          | Some id => Js.VString id
          | None => Js.VUndefined
          end)].

Definition latencyUpdate (now : Z) (order : OrderStatusReport)
  : OrderStatusUpdate :=
  {| u_orderId := Some (orderId order); u_exchangeId := None;
     u_orderStatus := None; u_rejectMessage := None;
     u_cancelRejected := None; u_time := None;
     u_computationalLatency := Some (fastDiff now (report_time order));
     u_lastPrice := None; u_lastQuantity := None; u_averagePrice := None;
     u_leavesQuantity := None; u_cumQuantity := None; u_quantity := None |}.

Definition sendOrder (now : Z) (st : State) (order : OrderStatusReport)
  : Result :=
  match convertToOrderRequest st order with
  | inl e => {| next := st; out := []; thrown := Some e |}
  | inr req =>
      let '(st', sent) :=
        post st "POST" "orders.json" (newOrderObject req)
             (ThenSendOrder order) in
      {| next := st';
         out := sent ++ [OrderUpdate (latencyUpdate now order)];
         thrown := None |}
  end.

(** The reaction of [sendOrder] on the resolved call. *)
Definition sendOrderResolved (order : OrderStatusReport)
           (resp : Timestamped ChankuraNewOrderResponse) : OrderStatusUpdate :=
  match new_message (data resp) with
  | Some msg =>
      {| u_orderId := Some (orderId order); u_exchangeId := None;
         u_orderStatus := Some OrderStatus.Rejected;
         u_rejectMessage := Some msg;
         u_cancelRejected := None; u_time := Some (time resp);
         u_computationalLatency := None;
         u_lastPrice := None; u_lastQuantity := None;
         u_averagePrice := None; u_leavesQuantity := None;
         u_cumQuantity := None; u_quantity := None |}
  | None =>
      {| u_orderId := Some (orderId order);
         u_exchangeId := new_id (data resp);
         u_orderStatus := Some OrderStatus.Working;
         u_rejectMessage := None;
         u_cancelRejected := None; u_time := Some (time resp);
         u_computationalLatency := None;
         u_lastPrice := None; u_lastQuantity := None;
         u_averagePrice := None; u_leavesQuantity := None;
         u_cumQuantity := None; u_quantity := None |}
  end.

Definition cancelOrder (now : Z) (st : State) (cancel : OrderStatusReport)
  : Result :=
  let '(st', sent) :=
    post st "POST" "order/delete.json" (deleteOrderObject cancel)
         (ThenCancelOrder cancel) in
  {| next := st';
     out := sent ++ [OrderUpdate (latencyUpdate now cancel)];
     thrown := None |}.

(** The reaction of [cancelOrder] on the resolved call. *)
Definition cancelOrderResolved (cancel : OrderStatusReport)
           (resp : Timestamped ChankuraDeleteOrderResponse)
  : OrderStatusUpdate :=
  match del_message (data resp) with
  | Some msg =>
      {| u_orderId := Some (orderId cancel); u_exchangeId := None;
         u_orderStatus := Some OrderStatus.Rejected;
         u_rejectMessage := Some msg;
         u_cancelRejected := Some true; u_time := Some (time resp);
         u_computationalLatency := None;
         u_lastPrice := None; u_lastQuantity := None;
         u_averagePrice := None; u_leavesQuantity := None;
         u_cumQuantity := None; u_quantity := None |}
  | None =>
      {| u_orderId := Some (orderId cancel); u_exchangeId := None;
         u_orderStatus := Some OrderStatus.Cancelled;
         u_rejectMessage := None;
         u_cancelRejected := None; u_time := Some (time resp);
         u_computationalLatency := None;
         u_lastPrice := None; u_lastQuantity := None;
         u_averagePrice := None; u_leavesQuantity := None;
         u_cumQuantity := None; u_quantity := None |}
  end.

(** [replaceOrder]: the cancel, then the submission; what the
    submission throws reaches the caller after the cancel has run. *)
Definition replaceOrder (now : Z) (st : State) (replace : OrderStatusReport)
  : Result :=
  let c := cancelOrder now st replace in
  let s := sendOrder now (next c) replace in
  {| next := next s; out := out c ++ out s; thrown := thrown s |}.

Definition downloadOrderStatuses (now : Z) (st : State)
  : State * list Output :=
  let '(st', sent) :=
    post st "GET" "trades/my.json"
         [("timestamp", Js.VInt (unix (oe_since st)));
          ("market", Js.VString (symbol st))]
         ThenOrderStatuses in
  (set_oe_since st' now, sent).

(** The loop over the fills: one signed [order.json] call per fill. *)
Fixpoint forEachMyTrade (st : State) (trades : list ChankuraMyTradesResponse)
  : State * list Output :=
  match trades with
  | [] => (st, [])
  | trade :: rest =>
      let '(st1, sent1) :=
        post st "GET" "order.json" [("id", Js.VString (my_id trade))]
             (ThenOrderDetail trade) in
      let '(st2, sent2) := forEachMyTrade st1 rest in
      (st2, sent1 ++ sent2)
  end.

(** The update built from a fill and the detail of its order. *)
Definition orderDetailResolved (trade : ChankuraMyTradesResponse)
           (r : Timestamped ChankuraOrderStatusResponse) : OrderStatusUpdate :=
  {| u_orderId := None;
     u_exchangeId := Some (my_id trade);
     u_orderStatus := Some (_getOrderStatus (data r));
     u_rejectMessage := None; u_cancelRejected := None; u_time := None;
     u_computationalLatency := None;
     u_lastPrice := Some (Js.parseFloat (my_price trade));
     u_lastQuantity := Some (Js.parseFloat (my_volume trade));
     u_averagePrice := Some (Js.parseFloat (os_avg_price (data r)));
     u_leavesQuantity := Some (Js.parseFloat (os_remaining_volume (data r)));
     u_cumQuantity := Some (Js.parseFloat (os_executed_volume (data r)));
     u_quantity := Some (Js.parseFloat (os_volume (data r))) |}.

(** *** ChankuraPositionGateway; the currency code is kept as received. *)

Definition onRefreshPositions (st : State) : State * list Output :=
  post st "GET" "/members/me.json" [] ThenPositions.

Definition convertPosition (p : ChankuraPositionResponseItem)
  : CurrencyPosition :=
  {| amount := Js.parseFloat (pos_balance p);
     heldAmount := Js.parseFloat (pos_locked p);
     currency := pos_currency p |}.

(** *** The reactions on a body of any kind

    The body has passed the test of [post], so it is not [null]. *)

(** An update with the given [exchangeId] and [rejectMessage]. *)
Definition withTexts (u : OrderStatusUpdate)
           (exchangeId rejectMessage : option string) : OrderStatusUpdate :=
  {| u_orderId := u_orderId u; u_exchangeId := exchangeId;
     u_orderStatus := u_orderStatus u; u_rejectMessage := rejectMessage;
     u_cancelRejected := u_cancelRejected u; u_time := u_time u;
     u_computationalLatency := u_computationalLatency u;
     u_lastPrice := u_lastPrice u; u_lastQuantity := u_lastQuantity u;
     u_averagePrice := u_averagePrice u;
     u_leavesQuantity := u_leavesQuantity u;
     u_cumQuantity := u_cumQuantity u; u_quantity := u_quantity u |}.

Definition textOf (x : option Js.json) : option (option string) :=
  match x with
  | None => Some None
  | Some (Js.JString text) => Some (Some text)
  | Some _ => None
  end.

Definition updateOf (u : OrderStatusUpdate)
           (exchangeId rejectMessage : option Js.json) : Output :=
  match textOf exchangeId, textOf rejectMessage with
  | Some id, Some msg => OrderUpdate (withTexts u id msg)
  | _, _ => OrderUpdateOf u exchangeId rejectMessage
  end.

(** The update of a resolved submission or cancellation, without the
    venue's id and message. *)
Definition resolution (orderId : string) (status : OrderStatus.t)
           (cancelRejected : option bool) (time : Z) : OrderStatusUpdate :=
  {| u_orderId := Some orderId; u_exchangeId := None;
     u_orderStatus := Some status; u_rejectMessage := None;
     u_cancelRejected := cancelRejected; u_time := Some time;
     u_computationalLatency := None;
     u_lastPrice := None; u_lastQuantity := None; u_averagePrice := None;
     u_leavesQuantity := None; u_cumQuantity := None; u_quantity := None |}.

Definition sendOrderBody (order : OrderStatusReport) (v : Js.json) (time : Z)
  : Output :=
  match Js.prop "message" v with
  | Some msg =>
      updateOf (resolution (orderId order) OrderStatus.Rejected None time)
               None (Some msg)
  | None =>
      updateOf (resolution (orderId order) OrderStatus.Working None time)
               (Js.prop "id" v) None
  end.

Definition cancelOrderBody (cancel : OrderStatusReport) (v : Js.json)
           (time : Z) : Output :=
  match Js.prop "message" v with
  | Some msg =>
      updateOf (resolution (orderId cancel) OrderStatus.Rejected (Some true)
                           time)
               None (Some msg)
  | None =>
      updateOf (resolution (orderId cancel) OrderStatus.Cancelled None time)
               None None
  end.

(** [stringifyPrimitive] on a value. *)
Definition primitiveText (v : Js.json) : string :=
  match v with
  | Js.JString text => text
  | Js.JNumber (Js.Dec neg q) => numberToString (Js.Dec neg q)
  | Js.JBool true => "true"
  | Js.JBool false => "false"
  | _ => ""
  end.

(** The message [{id: x}] for a property value [x], as the fields that
    [querystring.stringify] sends for it: one for a value that is no
    array, printed by [stringifyPrimitive]; one per element for an
    array. *)
Definition idObject (x : option Js.json) : Js.object :=
  match x with
  | None => [("id", Js.VUndefined)]
  | Some (Js.JArray items) =>
      map (fun item => ("id", Js.VString (primitiveText item))) items
  | Some v => [("id", Js.VString (primitiveText v))]
  end.

(** The loop over the fills on elements of any kind: one signed
    [order.json] call per element, until one is [null] or [undefined],
    whose [id] cannot be read. *)
Fixpoint forEachFill (st : State) (items : list (option Js.json))
  : State * list Output :=
  match items with
  | [] => (st, [])
  | item :: rest =>
      match item with
      | None | Some Js.JNull => (st, [Uncaught TypeError])
      | Some trade =>
          let '(st1, sent1) :=
            post st "GET" "order.json" (idObject (Js.prop "id" trade))
                 (ThenOrderDetailOf (Js.prop "id" trade)
                                    (Js.prop "price" trade)
                                    (Js.prop "volume" trade)) in
          let '(st2, sent2) := forEachFill st1 rest in
          (st2, sent1 ++ sent2)
      end
  end.

(** [_getOrderStatus] on a body of any kind. *)
Definition orderStatusOf (state : option Js.json) : OrderStatus.t :=
  match state with
  | Some (Js.JString text) =>
      if String.eqb text "wait" then OrderStatus.Working
      else if String.eqb text "cancel" then OrderStatus.Cancelled
      else if String.eqb text "done" then OrderStatus.Complete
      else OrderStatus.Other
  | _ => OrderStatus.Other
  end.

(** The reaction on the detail of an order, from what it reads of the
    fill and of the body; a value without a string form makes [parseFloat]
    throw before anything is triggered. *)
Definition orderDetailBody (id price volume : option Js.json) (v : Js.json)
  : list Output :=
  match Js.parseFloatOf price, Js.parseFloatOf volume,
        Js.parseFloatOf (Js.prop "avg_price" v),
        Js.parseFloatOf (Js.prop "remaining_volume" v),
        Js.parseFloatOf (Js.prop "executed_volume" v),
        Js.parseFloatOf (Js.prop "volume" v) with
  | Some lastPrice, Some lastQuantity, Some averagePrice,
    Some leavesQuantity, Some cumQuantity, Some quantity =>
      [updateOf
         {| u_orderId := None; u_exchangeId := None;
            u_orderStatus := Some (orderStatusOf (Js.prop "state" v));
            u_rejectMessage := None; u_cancelRejected := None;
            u_time := None; u_computationalLatency := None;
            u_lastPrice := Some lastPrice;
            u_lastQuantity := Some lastQuantity;
            u_averagePrice := Some averagePrice;
            u_leavesQuantity := Some leavesQuantity;
            u_cumQuantity := Some cumQuantity;
            u_quantity := Some quantity |}
         id None]
  | _, _, _, _, _, _ => [Uncaught TypeError]
  end.

(** The callback of the position gateway on an element of any kind, up to
    the construction of the position; [Models.toCurrency] is not among the
    sources, and the value of [currency] is kept as received. *)
Definition convertPositionOf (item : option Js.json)
  : option (Js.number * Js.number * option Js.json) :=
  match item with
  | None | Some Js.JNull => None
  | Some p =>
      match Js.parseFloatOf (Js.prop "balance" p),
            Js.parseFloatOf (Js.prop "locked" p) with
      | Some amt, Some held => Some (amt, held, Js.prop "currency" p)
      | _, _ => None
      end
  end.

Definition positionOutput (rpt : Js.number * Js.number * option Js.json)
  : Output :=
  match rpt with
  | (amt, held, Some (Js.JString cur)) =>
      PositionUpdate {| amount := amt; heldAmount := held; currency := cur |}
  | (amt, held, cur) => PositionUpdateOf amt held cur
  end.

Definition positionsBody (v : Js.json) : list Output :=
  let '(rpts, ok) :=
    collect convertPositionOf
            match Js.prop "accounts" v with
            | Some accounts => Js.elements accounts
            | None => []
            end in
  if ok then map positionOutput rpts
  else map positionOutput rpts ++ [Uncaught TypeError].

(** What runs on a body of any kind that [post] does not retry: the test
    of [post] itself may throw, which rejects the promise of the call;
    otherwise the caller's reaction runs. *)
Definition reactBody (st : State) (k : PostReaction) (v : Js.json) (time : Z)
  : State * list Output :=
  match testMessage v with
  | Throws => (st, [Uncaught TypeError])
  | _ =>
      match k with
      | ThenSendOrder order => (st, [sendOrderBody order v time])
      | ThenCancelOrder cancel => (st, [cancelOrderBody cancel v time])
      | ThenOrderStatuses => forEachFill st (Js.elements v)
      | ThenOrderDetail trade =>
          (st, orderDetailBody (Some (Js.JString (my_id trade)))
                               (Some (Js.JString (my_price trade)))
                               (Some (Js.JString (my_volume trade))) v)
      | ThenOrderDetailOf id price volume =>
          (st, orderDetailBody id price volume v)
      | ThenPositions => (st, positionsBody v)
      end
  end.

(** *** The turns of the connector *)

Definition stamped {A : Type} (resp : Timestamped Payload) (a : A)
  : Timestamped A :=
  {| data := a; time := time resp |}.

(** What runs on a signed call answered with [resp], when [post] does not
    retry it: the caller's reaction on a body of the interface it reads
    the body through, and what the same code does on the JSON value of any
    other body. Something always runs. *)
Definition react (st : State) (k : PostReaction) (resp : Timestamped Payload)
  : option (State * list Output) :=
  match k, data resp with
  | ThenSendOrder order, NewOrderPayload r =>
      Some (st, [OrderUpdate (sendOrderResolved order (stamped resp r))])
  | ThenCancelOrder cancel, DeleteOrderPayload r =>
      Some (st, [OrderUpdate (cancelOrderResolved cancel (stamped resp r))])
  | ThenOrderStatuses, MyTradesPayload trades =>
      Some (forEachMyTrade st trades)
  | ThenOrderDetail trade, OrderStatusPayload r =>
      Some (st, [OrderUpdate (orderDetailResolved trade (stamped resp r))])
  | ThenPositions, PositionsPayload accounts =>
      Some (st, map (fun p => PositionUpdate (convertPosition p)) accounts)
  | _, pl => Some (reactBody st k (bodyOf pl) (time resp))
  end.

(** The completion of the request at position [i], which leaves the
    requests in flight. A rejected promise runs no reaction and reaches
    [done], which rethrows. A resolved promise runs the reaction on the
    parsed body, whatever the body is. A resolved signed call goes through
    the test of [post] first: a stale nonce makes [post] call itself with
    its own arguments. *)
Definition respond (now : Z) (st : State) (i : nat) (o : Outcome)
  : State * list Output :=
  match nth_error (inflight st) i with
  | None => (st, [])
  | Some p =>
      let st0 := set_inflight st (remove_at i (inflight st)) in
      match doRequest (opt_url (p_opts p)) now o with
      | (logs, inl e) => (st0, logs ++ [Uncaught e])
      | (_, inr resp) =>
          match p_then p with
          | ThenOnMarketData =>
              match data resp with
              | OrderBookPayload book => onMarketData st0 (stamped resp book)
              | pl => onMarketDataBody st0 (bodyOf pl) (time resp)
              end
          | ThenOnTrades =>
              match data resp with
              | MarketTradesPayload trades =>
                  onTrades now st0 (stamped resp trades)
              | pl => onTradesBody now st0 (bodyOf pl)
              end
          | ThenPost attempt k =>
              if isStaleNonce (data resp) then
                post st0 (at_method attempt) (at_actionUrl attempt)
                     (at_msg attempt) k
              else
                match react st0 k resp with
                | Some r => r
                | None => (st, [])
                end
          end
      end
  end.

Definition returned (r : State * list Output) : Result :=
  {| next := fst r; out := snd r; thrown := None |}.

Definition step (now : Z) (st : State) (i : Input) : Result :=
  match i with
  | TimerMarketData => returned (downloadMarketData st)
  | TimerMarketTrades => returned (downloadMarketTrades now st)
  | TimerOrderStatuses => returned (downloadOrderStatuses now st)
  | TimerPositions => returned (onRefreshPositions st)
  | SendOrder order => sendOrder now st order
  | CancelOrder cancel => cancelOrder now st cancel
  | ReplaceOrder replace => replaceOrder now st replace
  | Response i o => returned (respond now st i o)
  end.

(** The constructor of [Chankura], with [ChankuraOrderDestination] set to
    this venue: the transport seeds its nonce from the clock, the
    order-entry gateway starts its [_since] at the clock, the market-data
    gateway starts cold and downloads the book and the trades at once, and
    the position gateway refreshes at once. The timers that the
    constructors set up are the [Timer] inputs of [step]; the announcement
    of connectivity, ten milliseconds later, is left out. *)
Definition create (config : Config) (sym : string) (now : Z)
  : State * list Output :=
  let st0 := {| http := newChankuraHttp config now; symbol := sym;
                md_since := None; oe_since := now; inflight := [] |} in
  let '(st1, o1) := downloadMarketData st0 in
  let '(st2, o2) := downloadMarketTrades now st1 in
  let '(st3, o3) := onRefreshPositions st2 in
  (st3, o1 ++ o2 ++ o3).

(** A run: the turns in order, each at its clock reading. *)
Fixpoint run (st : State) (turns : list (Z * Input)) : State * list Output :=
  match turns with
  | [] => (st, [])
  | (now, i) :: rest =>
      let r := step now st i in
      let '(st', o') := run (next r) rest in
      (st', out r ++ o')
  end.

(** *** What the statements below observe in a trace *)

Definition signedNonce (o : Output) : option Z :=
  match o with
  | HttpRequest _ (Some a) => Some (at_nonce a)
  | _ => None
  end.

(** The nonces of the signed requests of a trace, in order of dispatch. *)
Fixpoint signedNonces (l : list Output) : list Z :=
  match l with
  | [] => []
  | o :: r =>
      match signedNonce o with
      | Some n => n :: signedNonces r
      | None => signedNonces r
      end
  end.

(** [from; from + 1; ...], [n] values. *)
Definition consecutive (from : Z) (n : nat) : list Z :=
  map (fun j => from + Z.of_nat j) (seq 0 n).

(** The updates triggered on [OrderUpdate], in order. *)
Fixpoint orderUpdates (l : list Output) : list OrderStatusUpdate :=
  match l with
  | [] => []
  | OrderUpdate u :: r => u :: orderUpdates r
  | _ :: r => orderUpdates r
  end.

(** The requests handed to [request], in order. *)
Fixpoint requests (l : list Output) : list Options :=
  match l with
  | [] => []
  | HttpRequest opts _ :: r => opts :: requests r
  | _ :: r => requests r
  end.

(** The trades triggered on [MarketTrade], in order. *)
Fixpoint marketTrades (l : list Output) : list GatewayMarketTrade :=
  match l with
  | [] => []
  | MarketTrade t :: r => t :: marketTrades r
  | _ :: r => marketTrades r
  end.

(** The batch of trades that a turn hands to [onTrades], when the body
    that the turn hands over is one: an array of [ChankuraMarketTrade]. *)
Definition processedTrades (st : State) (i : Input)
  : option (list ChankuraMarketTrade) :=
  match i with
  | Response n (Parsed (MarketTradesPayload trades)) =>
      match nth_error (inflight st) n with
      | Some p =>
          match p_then p with
          | ThenOnTrades => Some trades
          | _ => None
          end
      | None => None
      end
  | _ => None
  end.

(** The trades emitted by each turn of a run that hands [onTrades] a batch
    of trades. *)
Fixpoint tradeBatches (st : State) (turns : list (Z * Input))
  : list (list GatewayMarketTrade) :=
  match turns with
  | [] => []
  | (now, i) :: rest =>
      let r := step now st i in
      match processedTrades st i with
      | Some _ => marketTrades (out r) :: tradeBatches (next r) rest
      | None => tradeBatches (next r) rest
      end
  end.

(** The venue answers a signed call, in flight at position [i] of [n + 1]
    requests, with one stale-nonce rejection after the other: each retry
    is the last request in flight. *)
Definition staleTurns (i n : nat) (replies : list (Z * Payload))
  : list (Z * Input) :=
  match replies with
  | [] => []
  | (now, p) :: rest =>
      (now, Response i (Parsed p))
        :: map (fun r => (fst r, Response n (Parsed (snd r)))) rest
  end.

(** The attempt and the request of [_postOnce] for the arguments of
    [attempt] at the nonce [n]. *)
Definition withNonce (h : ChankuraHttp) (n : Z) : ChankuraHttp :=
  {| _timeout := _timeout h; _baseUrl := _baseUrl h; _apiKey := _apiKey h;
     _secret := _secret h; _nonce := n |}.

Definition attemptAt (attempt : Attempt) (n : Z) : Attempt :=
  {| at_nonce := n; at_method := at_method attempt;
     at_actionUrl := at_actionUrl attempt; at_msg := at_msg attempt |}.

Definition requestAt (h : ChankuraHttp) (attempt : Attempt) (n : Z)
  : Options :=
  snd (fst (_postOnce (withNonce h n) (at_method attempt)
                      (at_actionUrl attempt) (at_msg attempt))).

(** The state in which a signed call, first in flight among [others],
    has been retried up to the nonce [last]. *)
Definition retriedState (st : State) (others : list Pending)
           (attempt : Attempt) (k : PostReaction) (last : Z) : State :=
  set_inflight (set_http st (withNonce (http st) (last + 1)))
    (others ++ [{| p_opts := requestAt (http st) attempt last;
                   p_then := ThenPost (attemptAt attempt last) k |}]).

Definition retryRequest (st : State) (attempt : Attempt) (n : Z) : Output :=
  HttpRequest (requestAt (http st) attempt n) (Some (attemptAt attempt n)).

(** The batches of trades that the turns of a run hand to [onTrades], in
    order. *)
Fixpoint processedBatches (st : State) (turns : list (Z * Input))
  : list (list ChankuraMarketTrade) :=
  match turns with
  | [] => []
  | (now, i) :: rest =>
      let r := step now st i in
      match processedTrades st i with
      | Some trades => trades :: processedBatches (next r) rest
      | None => processedBatches (next r) rest
      end
  end.

(** The flags expected batch by batch: [true] on every trade of
    the first batch, [false] on every trade of every later one. *)
Definition firstBatchFlags (cold : bool)
           (batches : list (list ChankuraMarketTrade)) : list (list bool) :=
  match batches with
  | [] => []
  | first :: later =>
      map (fun _ => cold) first :: map (map (fun _ => false)) later
  end.

Definition isCold (st : State) : bool :=
  match md_since st with None => true | Some _ => false end.

(** The body that a turn hands to [onTrades], if it does: whatever parsed
    body answers a request for the trades. *)
Definition handedToOnTrades (st : State) (i : Input) : option Js.json :=
  match i with
  | Response n (Parsed pl) =>
      match nth_error (inflight st) n with
      | Some p =>
          match p_then p with
          | ThenOnTrades => Some (bodyOf pl)
          | _ => None
          end
      | None => None
      end
  | _ => None
  end.

(** What [onTrades] makes of a body: the trades it triggers, and whether
    it runs to its end, where it sets [_since]. *)
Definition tradesOf (since : option Z) (v : Js.json)
  : list GatewayMarketTrade :=
  fst (collect (convertTradeOf since) (Js.elements v)).

Definition processedInFull (v : Js.json) : bool :=
  snd (collect (convertTradeOf None) (Js.elements v)).

(** The bodies that the turns of a run hand to [onTrades], in order, and
    the trades emitted by each of these turns. *)
Fixpoint handedBodies (st : State) (turns : list (Z * Input))
  : list Js.json :=
  match turns with
  | [] => []
  | (now, i) :: rest =>
      let r := step now st i in
      match handedToOnTrades st i with
      | Some v => v :: handedBodies (next r) rest
      | None => handedBodies (next r) rest
      end
  end.

Fixpoint tradesByBody (st : State) (turns : list (Z * Input))
  : list (list GatewayMarketTrade) :=
  match turns with
  | [] => []
  | (now, i) :: rest =>
      let r := step now st i in
      match handedToOnTrades st i with
      | Some _ => marketTrades (out r) :: tradesByBody (next r) rest
      | None => tradesByBody (next r) rest
      end
  end.

(** The flags expected body by body, from a poller that is cold or not:
    the flag of the poller on every trade of the body, and the poller is
    cold for the next body only if it was cold and [onTrades] did not run
    to its end on this one. *)
Fixpoint flagsByBody (cold : bool) (bodies : list Js.json)
  : list (list bool) :=
  match bodies with
  | [] => []
  | v :: later =>
      repeat cold (List.length (tradesOf None v))
        :: flagsByBody (cold && negb (processedInFull v)) later
  end.

(** The signed calls of a trace: method, action and message, in order. *)
Fixpoint signedCalls (l : list Output) : list (string * string * Js.object) :=
  match l with
  | [] => []
  | HttpRequest _ (Some a) :: r =>
      (at_method a, at_actionUrl a, at_msg a) :: signedCalls r
  | _ :: r => signedCalls r
  end.

(** A request in flight on which [k] waits behind [post]. *)
Definition awaits (k : PostReaction) (p : Pending) : Prop :=
  exists attempt, p_then p = ThenPost attempt k.

(** The order-book response of the scenario:
    [{bids:[{price:"100.5",volume:"2"}],asks:[{price:"101.0",volume:"1"}]}] *)
Definition scenarioBook : ChankuraOrderBook :=
  {| book_bids := [{| level_price := "100.5"; level_volume := "2" |}];
     book_asks := [{| level_price := "101.0"; level_volume := "1" |}] |}.

(** A transport and a create-order message to evaluate the signing on. *)
Definition sampleHttp : ChankuraHttp :=
  {| _timeout := 15000; _baseUrl := "https://chankura.com/api/v2";
     _apiKey := "KEY"; _secret := "SECRET"; _nonce := 1700000000000 |}.

Definition sampleOrderObject : Js.object :=
  [("volume", Js.VString "1"); ("price", Js.VString "100.5");
   ("side", Js.VString "buy"); ("market", Js.VString "btcusd");
   ("ord_type", Js.VString "exchange limit")].

(** Every attempt in flight carries a nonce below the given one. *)
Definition belowNonce (n : Z) (l : list Pending) : Prop :=
  Forall (fun p => match p_then p with
                   | ThenPost a _ => at_nonce a < n
                   | _ => True
                   end) l.

Definition attemptsBelow (st : State) : Prop :=
  belowNonce (_nonce (http st)) (inflight st).

(** The signature payload in the words of the specification:
    [METHOD|/api/v2<path>|access_key=<key>&tonce=<nonce>&<querystring>]. *)
Definition specPayload (h : ChankuraHttp) (method path : string)
           (msg : Js.object) : string :=
  (method ++ "|/api/v2" ++ path ++ "|access_key=" ++ _apiKey h ++ "&tonce="
     ++ Js.intToString (_nonce h) ++ "&" ++ Js.stringify msg)%string.

(** The dispatched URL in the words of the specification: the signature
    is appended as a [signature] query parameter. *)
Definition specUrl (h : ChankuraHttp) (method path : string)
           (msg : Js.object) : string :=
  (_baseUrl h ++ "/" ++ path ++ "?access_key=" ++ _apiKey h ++ "&tonce="
     ++ Js.intToString (_nonce h) ++ "&" ++ Js.stringify msg
     ++ "&signature=" ++ hmacSha256Hex (_secret h) (specPayload h method path msg))%string.

(** *** Startup ([createChankura]) *)

(** [String.prototype.toLowerCase] on ASCII text, which the names of the
    members of [Models.Currency] are. *)
Definition lowerChar (c : ascii) : ascii :=
  if ((65 <=? Js.code c) && (Js.code c <=? 90))%N
  then ascii_of_N (Js.code c + 32)
  else c.

Fixpoint toLowerCase (s : string) : string :=
  match s with
  | EmptyString => EmptyString
  | String c r => String (lowerChar c) (toLowerCase r)
  end.

(** The symbol of [ChankuraSymbolProvider], from the names that
    [Models.fromCurrency] gives for the base and the quote of the pair. *)
Definition ChankuraSymbolProvider (base quote : string) : string :=
  (toLowerCase base ++ toLowerCase quote)%string.

(** An entry of the venue's [/markets]; the precision is an integer. *)
Record SymbolDetails : Type :=
  { sd_id : string;
    sd_pair : string;
    sd_price_precision : Z;
    sd_initial_margin : string;
    sd_minimum_margin : string;
    sd_maximum_order_size : string;
    sd_minimum_order_size : string;
    sd_expiration : string }.

(** [10 ** x], as written: the value is the binary64 that the engine
    computes, which is not modelled. *)
Inductive Power : Type :=
| TenToThe (x : Z).

Record ChankuraGatewayDetails : Type :=
  { minTickIncrement : Power }.

(** [new Error("cannot match pair to a Chankura Symbol " + pair)] *)
Inductive StartupError : Type :=
| CannotMatchPair (base quote : string).

(** The loop of [createChankura] over the markets: the first one whose
    id is the symbol. *)
Fixpoint firstMarket (sym : string) (symbolDetails : list SymbolDetails)
  : option SymbolDetails :=
  match symbolDetails with
  | [] => None
  | s :: rest =>
      if String.eqb (sd_id s) sym then Some s else firstMarket sym rest
  end.

(** [createChankura], once [/markets] has been fetched: the gateway is
    constructed for the first market that matches, with the tick
    [10 ** (-1 * price_precision)]; without a match it throws. *)
Definition createChankura (symbolDetails : list SymbolDetails)
           (config : Config) (base quote : string) (now : Z)
  : StartupError + (ChankuraGatewayDetails * (State * list Output)) :=
  let sym := ChankuraSymbolProvider base quote in
  match firstMarket sym symbolDetails with
  | Some s =>
      inr ({| minTickIncrement := TenToThe (-1 * sd_price_precision s) |},
           create config sym now)
  | None => inl (CannotMatchPair base quote)
  end.

(** The clock of the last reconciliation tick among the turns, or [since]
    when there is none. *)
Fixpoint lastTick (since : Z) (turns : list (Z * Input)) : Z :=
  match turns with
  | [] => since
  | (now, TimerOrderStatuses) :: rest => lastTick now rest
  | _ :: rest => lastTick since rest
  end.

(** The settings the constructor gives the connector. *)
Definition settled (config : Config) (sym : string) (st : State) : Prop :=
  _timeout (http st) = 15000
  /\ _baseUrl (http st) = ChankuraHttpUrl config
  /\ _apiKey (http st) = ChankuraKey config
  /\ _secret (http st) = ChankuraSecret config
  /\ symbol st = sym.

(** A request with the fixed timeout, addressed below the venue's URL. *)
Definition wellAddressed (config : Config) (opts : Options) : Prop :=
  opt_timeout opts = 15000
  /\ String.prefix (ChankuraHttpUrl config ++ "/") (opt_url opts) = true.

(** A piece of trace that leaves the settings alone and sends only
    well-addressed requests. *)
Definition keeps (config : Config) (sym : string) (r : State * list Output)
  : Prop :=
  settled config sym (fst r)
  /\ Forall (wellAddressed config) (requests (snd r)).

(** ** Properties *)

(** *** Traces and the nonce *)

Lemma signedNonces_app (a b : list Output) :
  signedNonces (a ++ b) = signedNonces a ++ signedNonces b.
Proof.
  induction a as [|o a IH]; simpl; [reflexivity|].
  destruct (signedNonce o); simpl; now rewrite IH.
Qed.

Lemma map_seq_shift (from : Z) (n m : nat) :
  forall k,
    map (fun j => from + Z.of_nat j) (seq (n + k) m)
    = map (fun j => from + Z.of_nat n + Z.of_nat j) (seq k m).
Proof.
  induction m as [|m IH]; intros k; simpl.
  - reflexivity.
  - f_equal; [lia|]. rewrite <- Nat.add_succ_r. apply IH.
Qed.

Lemma consecutive_app (from : Z) (n m : nat) :
  consecutive from (n + m)
  = consecutive from n ++ consecutive (from + Z.of_nat n) m.
Proof.
  unfold consecutive. rewrite seq_app, map_app. f_equal.
  rewrite Nat.add_0_l, <- (Nat.add_0_r n) at 1. apply map_seq_shift.
Qed.

Lemma consecutive_length (from : Z) (n : nat) :
  List.length (consecutive from n) = n.
Proof. unfold consecutive. now rewrite length_map, length_seq. Qed.

Lemma consecutive_lower (from : Z) (n : nat) (x : Z) :
  In x (consecutive from n) -> from <= x < from + Z.of_nat n.
Proof.
  unfold consecutive. rewrite in_map_iff. intros [j [<- Hj]].
  apply in_seq in Hj. lia.
Qed.

Lemma consecutive_sorted (from : Z) (n : nat) :
  StronglySorted Z.lt (consecutive from n).
Proof.
  revert from. induction n as [|n IH]; intros from.
  - constructor.
  - change (S n) with (1 + n)%nat. rewrite consecutive_app.
    simpl. constructor.
    + apply IH.
    + apply Forall_forall. intros x Hx.
      apply consecutive_lower in Hx. lia.
Qed.

Lemma sorted_lt_NoDup (l : list Z) : StronglySorted Z.lt l -> NoDup l.
Proof.
  induction 1 as [|x l Hs IH Hall]; constructor; [|exact IH].
  intros Hin. rewrite Forall_forall in Hall.
  specialize (Hall x Hin). lia.
Qed.

(** A piece of trace [o] that takes the transport from [st] to [st']
    carries the nonces from the one of [st] up to, and without, the one
    of [st']. *)
Definition counts (st st' : State) (o : list Output) : Prop :=
  exists n : nat,
    signedNonces o = consecutive (_nonce (http st)) n
    /\ _nonce (http st') = _nonce (http st) + Z.of_nat n.

Lemma counts_none (st st' : State) (o : list Output) :
  _nonce (http st') = _nonce (http st) -> signedNonces o = [] ->
  counts st st' o.
Proof. intros Hn Ho. exists 0%nat. rewrite Ho. simpl. split; [reflexivity|lia]. Qed.

Lemma counts_trans (st1 st2 st3 : State) (o1 o2 : list Output) :
  counts st1 st2 o1 -> counts st2 st3 o2 -> counts st1 st3 (o1 ++ o2).
Proof.
  intros [n [H1 E1]] [m [H2 E2]]. exists (n + m)%nat.
  rewrite signedNonces_app, consecutive_app, H1, H2, E1.
  split; [reflexivity|]. rewrite E2, E1. lia.
Qed.

Lemma post_eq (st : State) (method actionUrl : string) (msg : Js.object)
      (k : PostReaction) :
  post st method actionUrl msg k
  = (set_inflight
       (set_http st (withNonce (http st) (_nonce (http st) + 1)))
       (inflight st
          ++ [{| p_opts := requestAt (http st)
                             {| at_nonce := _nonce (http st);
                                at_method := method;
                                at_actionUrl := actionUrl;
                                at_msg := msg |} (_nonce (http st));
                 p_then := ThenPost {| at_nonce := _nonce (http st);
                                       at_method := method;
                                       at_actionUrl := actionUrl;
                                       at_msg := msg |} k |}]),
     [HttpRequest
        (requestAt (http st)
           {| at_nonce := _nonce (http st); at_method := method;
              at_actionUrl := actionUrl; at_msg := msg |} (_nonce (http st)))
        (Some {| at_nonce := _nonce (http st); at_method := method;
                 at_actionUrl := actionUrl; at_msg := msg |})]).
Proof. destruct st as [[t b a s n] sy md oe fl]. reflexivity. Qed.

Lemma post_counts (st : State) (method actionUrl : string) (msg : Js.object)
      (k : PostReaction) :
  counts st (fst (post st method actionUrl msg k))
         (snd (post st method actionUrl msg k)).
Proof.
  rewrite post_eq. exists 1%nat. simpl. split; [|reflexivity].
  unfold consecutive. simpl. f_equal. lia.
Qed.

Lemma startGet_counts (st : State) (actionUrl : string) (qs : Js.object)
      (reaction : Reaction) :
  counts st (fst (startGet st actionUrl qs reaction))
         (snd (startGet st actionUrl qs reaction)).
Proof. apply counts_none; reflexivity. Qed.

Lemma forEachMyTrade_cons (st : State) (trade : ChankuraMyTradesResponse)
      (rest : list ChankuraMyTradesResponse) :
  forEachMyTrade st (trade :: rest)
  = let p := post st "GET" "order.json" [("id", Js.VString (my_id trade))]
                  (ThenOrderDetail trade) in
    let r := forEachMyTrade (fst p) rest in
    (fst r, snd p ++ snd r).
Proof.
  cbn [forEachMyTrade].
  destruct (post st "GET" "order.json" _ _) as [st1 sent1].
  cbn [fst snd]. now destruct (forEachMyTrade st1 rest).
Qed.

(** *** Bodies of any kind *)

Lemma requests_app (a b : list Output) :
  requests (a ++ b) = requests a ++ requests b.
Proof.
  induction a as [|o a IH]; simpl; [reflexivity|].
  destruct o; simpl; now rewrite ?IH.
Qed.

Lemma requests_map_none {A : Type} (f : A -> Output) (l : list A) :
  (forall a, requests [f a] = []) -> requests (map f l) = [].
Proof.
  intros H. induction l as [|a l IH]; [reflexivity|].
  cbn [map]. change (f a :: map f l) with ([f a] ++ map f l).
  now rewrite requests_app, H, IH.
Qed.

Lemma some_eq {A : Type} (a b : A) : Some a = Some b -> a = b.
Proof. intros H. now inversion H. Qed.

Lemma signedNonces_quiet (o : list Output) :
  requests o = [] -> signedNonces o = [].
Proof.
  induction o as [|x o IH]; [reflexivity|].
  destruct x; cbn [requests signedNonces signedNonce];
    try exact IH; discriminate.
Qed.

Lemma requests_updateOf (u : OrderStatusUpdate)
      (exchangeId rejectMessage : option Js.json) :
  requests [updateOf u exchangeId rejectMessage] = [].
Proof.
  unfold updateOf.
  destruct (textOf exchangeId), (textOf rejectMessage); reflexivity.
Qed.

Lemma requests_sendOrderBody (order : OrderStatusReport) (v : Js.json)
      (time : Z) :
  requests [sendOrderBody order v time] = [].
Proof.
  unfold sendOrderBody.
  destruct (Js.prop "message" v); apply requests_updateOf.
Qed.

Lemma requests_cancelOrderBody (cancel : OrderStatusReport) (v : Js.json)
      (time : Z) :
  requests [cancelOrderBody cancel v time] = [].
Proof.
  unfold cancelOrderBody.
  destruct (Js.prop "message" v); apply requests_updateOf.
Qed.

Lemma requests_orderDetailBody (id price volume : option Js.json)
      (v : Js.json) :
  requests (orderDetailBody id price volume v) = [].
Proof.
  unfold orderDetailBody.
  repeat match goal with
         | |- context [match Js.parseFloatOf ?x with _ => _ end] =>
             destruct (Js.parseFloatOf x)
         end;
    try reflexivity; apply requests_updateOf.
Qed.

Lemma requests_positionsBody (v : Js.json) : requests (positionsBody v) = [].
Proof.
  unfold positionsBody.
  destruct (collect convertPositionOf _) as [rpts ok].
  assert (H : requests (map positionOutput rpts) = []).
  { apply requests_map_none. intros [[amt held] [[| | |text| |]|]]; reflexivity. }
  destruct ok; [exact H|]. rewrite requests_app, H. reflexivity.
Qed.

Lemma requests_marketTrades (trades : list GatewayMarketTrade) :
  requests (map MarketTrade trades) = [].
Proof. now apply requests_map_none. Qed.

(** The body of an interface, read as a JSON value, is read as the typed
    callbacks read it. *)
Lemma collect_all {A : Type} (f : option Js.json -> option A)
      (items : list Js.json) (l : list A) :
  Forall2 (fun item a => f (Some item) = Some a) items l ->
  collect f (map Some items) = (l, true).
Proof.
  induction 1 as [|item a items l H Hall IH]; [reflexivity|].
  cbn [map collect]. now rewrite H, IH.
Qed.

Lemma Forall2_map {A B C : Type} (R : B -> C -> Prop) (f : A -> B)
      (g : A -> C) (l : list A) :
  (forall a, R (f a) (g a)) -> Forall2 R (map f l) (map g l).
Proof.
  intros H. induction l as [|a l IH]; cbn [map]; constructor; auto.
Qed.

Lemma convertTradeOf_typed (since : option Z) (trade : ChankuraMarketTrade) :
  convertTradeOf since (Some (marketTradeJson trade))
  = Some (convertTrade since trade).
Proof. reflexivity. Qed.

Lemma convertLevelOf_typed (level : ChankuraMarketLevel) :
  convertLevelOf (Some (levelJson level)) = Some (ConvertToMarketSide level).
Proof. reflexivity. Qed.

Lemma sidesOf_typed (levels : list ChankuraMarketLevel) :
  sidesOf (Some (Js.JArray (map levelJson levels)))
  = Some (ConvertToMarketSides levels).
Proof.
  unfold sidesOf. cbn [Js.elements].
  rewrite (collect_all convertLevelOf (map levelJson levels)
             (ConvertToMarketSides levels)); [reflexivity|].
  apply Forall2_map. exact convertLevelOf_typed.
Qed.

Lemma onMarketData_body (st : State) (book : ChankuraOrderBook) (t : Z) :
  onMarketData st {| data := book; time := t |}
  = onMarketDataBody st (bodyOf (OrderBookPayload book)) t.
Proof.
  unfold onMarketDataBody, onMarketData. cbn [bodyOf data time].
  change (Js.prop "bids" (Js.JObject _))
    with (Some (Js.JArray (map levelJson (book_bids book)))).
  change (Js.prop "asks" (Js.JObject _))
    with (Some (Js.JArray (map levelJson (book_asks book)))).
  now rewrite !sidesOf_typed.
Qed.

Lemma collect_trades_end (since : option Z) (items : list (option Js.json)) :
  snd (collect (convertTradeOf since) items)
  = snd (collect (convertTradeOf None) items)
  /\ List.length (fst (collect (convertTradeOf since) items))
     = List.length (fst (collect (convertTradeOf None) items))
  /\ map isFirstObservedBatch (fst (collect (convertTradeOf since) items))
     = repeat match since with None => true | Some _ => false end
              (List.length (fst (collect (convertTradeOf None) items))).
Proof.
  induction items as [|item items IH]; [repeat split|].
  cbn [collect].
  assert (H : match convertTradeOf since item, convertTradeOf None item with
              | Some t, Some t' =>
                  isFirstObservedBatch t
                  = match since with None => true | Some _ => false end
              | None, None => True
              | _, _ => False
              end).
  { unfold convertTradeOf. destruct item as [trade|]; [|exact I].
    destruct trade; try exact I;
      repeat match goal with
             | |- context [match Js.parseFloatOf ?x with _ => _ end] =>
                 destruct (Js.parseFloatOf x)
             end;
      try exact I; reflexivity. }
  destruct (convertTradeOf since item) as [t|],
           (convertTradeOf None item) as [t'|]; try contradiction.
  - destruct IH as [H1 [H2 H3]].
    destruct (collect (convertTradeOf since) items) as [l ok],
             (collect (convertTradeOf None) items) as [l' ok'].
    cbn [fst snd List.length map repeat] in *. repeat split; try congruence.
  - repeat split.
Qed.

(** [onTrades] on a body: the trades of the body go out with the flag of
    the poller, and the cursor is set when the loop reaches its end. *)
Lemma onTradesBody_eq (now : Z) (st : State) (v : Js.json) :
  onTradesBody now st v
  = (if processedInFull v then set_md_since st (Some (unix now)) else st,
     map MarketTrade (tradesOf (md_since st) v)
       ++ if processedInFull v then [] else [Uncaught TypeError]).
Proof.
  unfold onTradesBody, tradesOf, processedInFull.
  rewrite <- (proj1 (collect_trades_end (md_since st) (Js.elements v))).
  destruct (collect (convertTradeOf (md_since st)) (Js.elements v))
    as [trades ok].
  cbn [fst snd]. destruct ok; [now rewrite app_nil_r|reflexivity].
Qed.

Lemma onTrades_body (now : Z) (st : State)
      (trades : list ChankuraMarketTrade) (t : Z) :
  onTrades now st {| data := trades; time := t |}
  = onTradesBody now st (bodyOf (MarketTradesPayload trades)).
Proof.
  unfold onTradesBody, onTrades. cbn [bodyOf data Js.elements].
  rewrite (collect_all (convertTradeOf (md_since st))
             (map marketTradeJson trades)
             (map (convertTrade (md_since st)) trades)).
  - now rewrite map_map.
  - apply Forall2_map. intros trade. apply convertTradeOf_typed.
Qed.

(** The completion of a request that has resolved, by the reaction of the
    request: the typed callbacks are the ones on the JSON value. *)
Lemma respond_parsed (now : Z) (st : State) (i : nat) (p : Pending)
      (pl : Payload) :
  nth_error (inflight st) i = Some p ->
  respond now st i (Parsed pl)
  = let st0 := set_inflight st (remove_at i (inflight st)) in
    match p_then p with
    | ThenOnMarketData => onMarketDataBody st0 (bodyOf pl) now
    | ThenOnTrades => onTradesBody now st0 (bodyOf pl)
    | ThenPost attempt k =>
        if isStaleNonce pl then
          post st0 (at_method attempt) (at_actionUrl attempt)
               (at_msg attempt) k
        else
          match react st0 k {| data := pl; time := now |} with
          | Some r => r
          | None => (st, [])
          end
    end.
Proof.
  intros Hnth. unfold respond. rewrite Hnth.
  cbn [doRequest data time]. cbv zeta.
  destruct (p_then p) as [| |attempt k]; [| |reflexivity].
  - destruct pl; try reflexivity. apply onMarketData_body.
  - destruct pl; try reflexivity. apply onTrades_body.
Qed.

Lemma forEachFill_step (st : State) (item : option Js.json)
      (rest : list (option Js.json)) :
  forEachFill st (item :: rest)
  = match item with
    | None | Some Js.JNull => (st, [Uncaught TypeError])
    | Some trade =>
        let p := post st "GET" "order.json" (idObject (Js.prop "id" trade))
                      (ThenOrderDetailOf (Js.prop "id" trade)
                                         (Js.prop "price" trade)
                                         (Js.prop "volume" trade)) in
        let r := forEachFill (fst p) rest in
        (fst r, snd p ++ snd r)
    end.
Proof.
  cbn [forEachFill].
  destruct item as [[| | | | |]|]; try reflexivity;
    (destruct (post st "GET" "order.json" _ _) as [st1 sent1];
     cbn [fst snd]; now destruct (forEachFill st1 rest)).
Qed.

(** The test of [post] on a value of an interface is the test on its JSON
    value, which never throws. *)
Lemma isStaleNonce_body (pl : Payload) :
  isStaleNonce pl
  = match testMessage (bodyOf pl) with
    | Retry => true
    | _ => false
    end.
Proof.
  destruct pl as [book|trades|[[id|] [msg|]]|[[msg|]]|r|trades|accounts|v];
    try reflexivity;
    unfold isStaleNonce, testMessage;
    cbn [message new_message del_message bodyOf optionalField app];
    change (Js.prop "message" (Js.JObject _)) with (Some (Js.JString msg));
    cbv beta iota;
    now destruct (Js.indexOf msg stale_nonce_text >? -1).
Qed.

Lemma positionsBody_typed (accounts : list ChankuraPositionResponseItem) :
  positionsBody (bodyOf (PositionsPayload accounts))
  = map (fun p => PositionUpdate (convertPosition p)) accounts.
Proof.
  unfold positionsBody. cbn [bodyOf].
  change (Js.prop "accounts" (Js.JObject _))
    with (Some (Js.JArray (map accountJson accounts))).
  cbn [Js.elements].
  rewrite (collect_all convertPositionOf (map accountJson accounts)
             (map (fun p => (Js.parseFloat (pos_balance p),
                             Js.parseFloat (pos_locked p),
                             Some (Js.JString (pos_currency p))))
                  accounts)).
  - now rewrite map_map.
  - apply Forall2_map. reflexivity.
Qed.

(** The reaction on a signed call that is answered with a value of the
    interface it reads is the reaction on the JSON value. (For the fills,
    the reactions that the two register on the details of the orders hold
    the same [id], [price] and [volume].) *)
Lemma react_body (st : State) (k : PostReaction) (pl : Payload) (t : Z) :
  k <> ThenOrderStatuses ->
  react st k {| data := pl; time := t |}
  = Some (reactBody st k (bodyOf pl) t).
Proof.
  intros Hk. unfold react. cbn [data time].
  destruct k, pl;
    lazymatch goal with
    | |- Some (reactBody _ _ _ _) = Some (reactBody _ _ _ _) => reflexivity
    | |- _ => idtac
    end.
  - destruct r as [[id|] [msg|]]; unfold reactBody, testMessage;
      cbn [bodyOf optionalField new_id new_message app];
      try change (Js.prop "message" (Js.JObject _))
        with (Some (Js.JString msg));
      try change (Js.prop "message" (Js.JObject _)) with (@None Js.json);
      cbv beta iota;
      try match goal with
          | |- context [if ?c then Retry else NoRetry] => destruct c
          end;
      reflexivity.
  - destruct r as [[msg|]]; unfold reactBody, testMessage;
      cbn [bodyOf optionalField del_message];
      try change (Js.prop "message" (Js.JObject _))
        with (Some (Js.JString msg));
      try change (Js.prop "message" (Js.JObject _)) with (@None Js.json);
      cbv beta iota;
      try match goal with
          | |- context [if ?c then Retry else NoRetry] => destruct c
          end;
      reflexivity.
  - now elim Hk.
  - reflexivity.
  - unfold reactBody.
    change (testMessage (bodyOf (PositionsPayload accounts))) with NoRetry.
    now rewrite positionsBody_typed.
Qed.

(** The loop over the fills sends the same calls on a list of fills as on
    its JSON value. *)
Lemma forEachFill_typed (trades : list ChankuraMyTradesResponse) :
  forall st st',
    http st = http st' ->
    snd (forEachFill st (Js.elements (bodyOf (MyTradesPayload trades))))
    = snd (forEachMyTrade st' trades)
    /\ http (fst (forEachFill st
                    (Js.elements (bodyOf (MyTradesPayload trades)))))
       = http (fst (forEachMyTrade st' trades)).
Proof.
  cbn [bodyOf Js.elements].
  induction trades as [|trade rest IH]; intros st st' Hh;
    [split; [reflexivity|exact Hh]|].
  cbn [map]. rewrite forEachFill_step, forEachMyTrade_cons.
  cbn [myTradeJson]. cbv zeta. fold (myTradeJson trade).
  change (idObject (Js.prop "id" (myTradeJson trade)))
    with [("id", Js.VString (my_id trade))].
  rewrite !post_eq. cbn [fst snd]. rewrite Hh.
  match goal with
  | |- _ ++ snd (forEachFill ?s _) = _ ++ snd (forEachMyTrade ?s' _) /\ _ =>
      destruct (IH s s') as [H1 H2]; [reflexivity|]
  end.
  split; [now rewrite H1|exact H2].
Qed.

(** *** What the completion of a request preserves

    A relation between the state before, the state after and the trace of
    a piece of a turn that holds of every piece that sends nothing and of
    every call of [post], and that composes, holds of every reaction on a
    signed call; when it also holds of the removal of a request from the
    ones in flight and of the setting of the trade cursor, it holds of the
    completion of every request. *)

Section Preserved.

Variable R : State -> State -> list Output -> Prop.

Hypothesis R_quiet : forall st o, requests o = [] -> R st st o.

Hypothesis R_post :
  forall st method actionUrl msg k,
    R st (fst (post st method actionUrl msg k))
      (snd (post st method actionUrl msg k)).

Hypothesis R_trans :
  forall st1 st2 st3 o1 o2,
    R st1 st2 o1 -> R st2 st3 o2 -> R st1 st3 (o1 ++ o2).

Hypothesis R_removed :
  forall st i, R st (set_inflight st (remove_at i (inflight st))) [].

Hypothesis R_warmed : forall st since, R st (set_md_since st since) [].

Lemma forEachMyTrade_preserves (trades : list ChankuraMyTradesResponse) :
  forall st, R st (fst (forEachMyTrade st trades))
               (snd (forEachMyTrade st trades)).
Proof.
  induction trades as [|trade rest IH]; intros st.
  - now apply R_quiet.
  - rewrite forEachMyTrade_cons. cbn [fst snd].
    eapply R_trans; [apply R_post|apply IH].
Qed.

Lemma forEachFill_preserves (items : list (option Js.json)) :
  forall st, R st (fst (forEachFill st items)) (snd (forEachFill st items)).
Proof.
  induction items as [|item rest IH]; intros st.
  - now apply R_quiet.
  - rewrite forEachFill_step.
    destruct item as [[| | | | |]|]; try (now apply R_quiet);
      cbn [fst snd]; (eapply R_trans; [apply R_post|apply IH]).
Qed.

Lemma reactBody_preserves (st : State) (k : PostReaction) (v : Js.json)
      (t : Z) :
  R st (fst (reactBody st k v t)) (snd (reactBody st k v t)).
Proof.
  unfold reactBody.
  destruct (testMessage v); try (now apply R_quiet);
    destruct k; cbn [fst snd];
    first [ apply forEachFill_preserves
          | apply R_quiet;
            first [ apply requests_sendOrderBody
                  | apply requests_cancelOrderBody
                  | apply requests_orderDetailBody
                  | apply requests_positionsBody ] ].
Qed.

Lemma react_preserves (st : State) (k : PostReaction)
      (resp : Timestamped Payload) (r : State * list Output) :
  react st k resp = Some r -> R st (fst r) (snd r).
Proof.
  unfold react. destruct resp as [pl t]. cbn [data time].
  destruct k, pl; intros H; apply some_eq in H; subst r;
    lazymatch goal with
    | |- R _ (fst (reactBody _ _ _ _)) _ => apply reactBody_preserves
    | |- R _ (fst (forEachMyTrade _ _)) _ => apply forEachMyTrade_preserves
    | |- R _ (fst (_, map _ _)) _ =>
        apply R_quiet; now apply requests_map_none
    | |- _ => now apply R_quiet
    end.
Qed.

Lemma respond_preserves (now : Z) (st : State) (i : nat) (o : Outcome) :
  R st (fst (respond now st i o)) (snd (respond now st i o)).
Proof.
  destruct (nth_error (inflight st) i) as [p|] eqn:Hnth;
    [|unfold respond; rewrite Hnth; now apply R_quiet].
  assert (Hq : forall st' o',
             R st st' [] -> requests o' = [] -> R st st' o').
  { intros st' o' H Ho. change o' with ([] ++ o').
    eapply R_trans; [exact H|now apply R_quiet]. }
  assert (Hthen : forall st' r,
             R st st' [] -> R st' (fst r) (snd r) -> R st (fst r) (snd r)).
  { intros st' r H Hr. change (snd r) with ([] ++ snd r).
    eapply R_trans; eassumption. }
  pose proof (R_removed st i) as H0.
  destruct o as [err|body|pl].
  - unfold respond. rewrite Hnth. cbn [doRequest fst snd].
    now apply Hq.
  - unfold respond. rewrite Hnth. cbn [doRequest fst snd].
    now apply Hq.
  - rewrite (respond_parsed now st i p pl Hnth). cbv zeta.
    destruct (p_then p) as [| |attempt k].
    + unfold onMarketDataBody.
      destruct (bodyOf pl); try (now apply Hq);
        destruct (sidesOf _); try (now apply Hq);
        destruct (sidesOf _); now apply Hq.
    + rewrite onTradesBody_eq. cbn [fst snd].
      assert (Ho : requests
                     (map MarketTrade
                          (tradesOf
                             (md_since
                                (set_inflight st (remove_at i (inflight st))))
                             (bodyOf pl))
                        ++ (if processedInFull (bodyOf pl) then []
                            else [Uncaught TypeError])) = []).
      { rewrite requests_app, requests_marketTrades.
        now destruct (processedInFull (bodyOf pl)). }
      apply Hq; [|exact Ho].
      destruct (processedInFull (bodyOf pl)); [|exact H0].
      change (@nil Output) with (@nil Output ++ []).
      eapply R_trans; [exact H0|apply R_warmed].
    + destruct (isStaleNonce pl).
      * eapply Hthen; [exact H0|apply R_post].
      * destruct (react _ k _) as [r|] eqn:Hr; [|now apply R_quiet].
        eapply Hthen; [exact H0|]. now apply (react_preserves _ _ _ _ Hr).
Qed.

End Preserved.

Lemma respond_counts (now : Z) (st : State) (i : nat) (o : Outcome) :
  counts st (fst (respond now st i o)) (snd (respond now st i o)).
Proof.
  apply (respond_preserves counts).
  - intros s o' Ho. apply counts_none; [reflexivity|].
    now apply signedNonces_quiet.
  - exact post_counts.
  - exact counts_trans.
  - intros s j. now apply counts_none.
  - intros s since. now apply counts_none.
Qed.

Lemma downloadOrderStatuses_counts (now : Z) (st : State) :
  counts st (fst (downloadOrderStatuses now st))
         (snd (downloadOrderStatuses now st)).
Proof.
  unfold downloadOrderStatuses. rewrite post_eq. simpl.
  exists 1%nat. simpl. split; [|reflexivity].
  unfold consecutive. simpl. f_equal. lia.
Qed.

Lemma cancelOrder_counts (now : Z) (st : State) (cancel : OrderStatusReport) :
  counts st (next (cancelOrder now st cancel)) (out (cancelOrder now st cancel)).
Proof.
  unfold cancelOrder. rewrite post_eq. simpl.
  exists 1%nat. simpl. split; [|reflexivity].
  unfold consecutive. simpl. f_equal. lia.
Qed.

Lemma sendOrder_counts (now : Z) (st : State) (order : OrderStatusReport) :
  counts st (next (sendOrder now st order)) (out (sendOrder now st order)).
Proof.
  unfold sendOrder.
  destruct (convertToOrderRequest st order) as [e|req].
  - apply counts_none; reflexivity.
  - rewrite post_eq. simpl. exists 1%nat. simpl. split; [|reflexivity].
    unfold consecutive. simpl. f_equal. lia.
Qed.

Lemma step_counts (now : Z) (st : State) (i : Input) :
  counts st (next (step now st i)) (out (step now st i)).
Proof.
  destruct i; cbn [step returned next out].
  - apply startGet_counts.
  - apply startGet_counts.
  - apply downloadOrderStatuses_counts.
  - apply (post_counts st).
  - apply sendOrder_counts.
  - apply cancelOrder_counts.
  - unfold replaceOrder. cbn [next out].
    eapply counts_trans; [apply cancelOrder_counts|apply sendOrder_counts].
  - apply respond_counts.
Qed.

Lemma run_counts (turns : list (Z * Input)) :
  forall st, counts st (fst (run st turns)) (snd (run st turns)).
Proof.
  induction turns as [|[now i] rest IH]; intros st; simpl.
  - apply counts_none; reflexivity.
  - specialize (IH (next (step now st i))).
    destruct (run (next (step now st i)) rest) as [st' o'].
    simpl in *. eapply counts_trans; [apply step_counts|exact IH].
Qed.

(** C2. Within one lifetime of the transport the nonce is seeded from the
    clock reading of the constructor, every signed request attempt
    (retries included) takes the current value and advances it by one,
    and nothing else touches it: whatever the turns of the run are, the
    nonces carried by the signed requests are the consecutive integers
    from the seed on, hence strictly increasing and pairwise distinct,
    and the transport holds the next one. *)
Theorem nonce_strictly_increasing
        (config : Config) (sym : string) (t0 : Z) (turns : list (Z * Input)) :
  let booted := create config sym t0 in
  let final := run (fst booted) turns in
  let nonces := signedNonces (snd booted ++ snd final) in
  _nonce (newChankuraHttp config t0) = t0
  /\ nonces = consecutive t0 (List.length nonces)
  /\ _nonce (http (fst final)) = t0 + Z.of_nat (List.length nonces)
  /\ StronglySorted Z.lt nonces
  /\ NoDup nonces.
Proof.
  intros booted final nonces.
  assert (H : counts {| http := newChankuraHttp config t0; symbol := sym;
                        md_since := None; oe_since := t0; inflight := [] |}
                     (fst final) (snd booted ++ snd final)).
  { eapply counts_trans; [|apply run_counts].
    exists 1%nat. split; [|reflexivity].
    unfold consecutive. simpl. f_equal. lia. }
  destruct H as [n [Hn En]].
  change (nonces = consecutive t0 n) in Hn.
  change (_nonce (http (fst final)) = t0 + Z.of_nat n) in En.
  assert (Hlen : List.length nonces = n)
    by (rewrite Hn; apply consecutive_length).
  rewrite Hlen. repeat split.
  - exact Hn.
  - exact En.
  - rewrite Hn. apply consecutive_sorted.
  - rewrite Hn. apply sorted_lt_NoDup, consecutive_sorted.
Qed.

(** *** The retry of [post] *)

Lemma nth_error_last {A : Type} (l : list A) (x : A) :
  nth_error (l ++ [x]) (List.length l) = Some x.
Proof. induction l as [|y l IH]; simpl; [reflexivity|exact IH]. Qed.

Lemma remove_at_last {A : Type} (l : list A) (x : A) :
  remove_at (List.length l) (l ++ [x]) = l.
Proof. induction l as [|y l IH]; simpl; [reflexivity|now rewrite IH]. Qed.

Lemma respond_signed (now : Z) (st : State) (i : nat) (p : Pending)
      (attempt : Attempt) (k : PostReaction) (pl : Payload) :
  nth_error (inflight st) i = Some p ->
  p_then p = ThenPost attempt k ->
  respond now st i (Parsed pl)
  = if isStaleNonce pl then
      post (set_inflight st (remove_at i (inflight st)))
           (at_method attempt) (at_actionUrl attempt) (at_msg attempt) k
    else
      match react (set_inflight st (remove_at i (inflight st))) k
                  {| data := pl; time := now |} with
      | Some r => r
      | None => (st, [])
      end.
Proof.
  intros Hnth Hthen. unfold respond. rewrite Hnth.
  cbn [doRequest]. now rewrite Hthen.
Qed.

Lemma respond_stale (now : Z) (st : State) (i : nat) (p : Pending)
      (attempt : Attempt) (k : PostReaction) (pl : Payload) :
  nth_error (inflight st) i = Some p ->
  p_then p = ThenPost attempt k ->
  isStaleNonce pl = true ->
  respond now st i (Parsed pl)
  = (retriedState st (remove_at i (inflight st)) attempt k (_nonce (http st)),
     [retryRequest st attempt (_nonce (http st))]).
Proof.
  intros Hnth Hthen Hstale.
  rewrite (respond_signed now st i p attempt k pl Hnth Hthen), Hstale.
  rewrite post_eq. destruct attempt. reflexivity.
Qed.

Lemma retriedState_again (now : Z) (st : State) (others : list Pending)
      (attempt : Attempt) (k : PostReaction) (last : Z) (pl : Payload) :
  isStaleNonce pl = true ->
  respond now (retriedState st others attempt k last) (List.length others)
          (Parsed pl)
  = (retriedState st others attempt k (last + 1),
     [retryRequest st attempt (last + 1)]).
Proof.
  intros Hstale.
  erewrite respond_stale;
    [|apply nth_error_last|reflexivity|exact Hstale].
  cbn [retriedState inflight set_inflight]. rewrite remove_at_last.
  reflexivity.
Qed.

Lemma run_retries (st : State) (others : list Pending) (attempt : Attempt)
      (k : PostReaction) (more : list (Z * Payload)) :
  forall last,
    Forall (fun r => isStaleNonce (snd r) = true) more ->
    run (retriedState st others attempt k last)
        (map (fun r => (fst r, Response (List.length others) (Parsed (snd r))))
             more)
    = (retriedState st others attempt k (last + Z.of_nat (List.length more)),
       map (fun j => retryRequest st attempt (last + 1 + Z.of_nat j))
           (seq 0 (List.length more))).
Proof.
  induction more as [|[now pl] more IH]; intros last Hall.
  - cbn [map run List.length seq]. now rewrite Z.add_0_r.
  - inversion Hall as [|x l Hpl Hmore]; subst. cbn [snd] in Hpl.
    cbn [map run fst snd step returned next out].
    rewrite (retriedState_again now st others attempt k last pl Hpl).
    cbn [fst snd]. rewrite (IH (last + 1) Hmore).
    cbn [List.length seq map]. f_equal.
    + f_equal. lia.
    + cbn [app]. f_equal.
      * f_equal. lia.
      * rewrite <- seq_shift, map_map. apply map_ext. intros j.
        f_equal. lia.
Qed.

Lemma signedNonces_retries (st : State) (attempt : Attempt) (from : Z)
      (n : nat) :
  signedNonces (map (fun j => retryRequest st attempt (from + Z.of_nat j))
                    (seq 0 n))
  = consecutive from n.
Proof.
  unfold consecutive. generalize 0%nat as s.
  induction n as [|n IH]; intros s; simpl; [reflexivity|].
  now rewrite IH.
Qed.

(** The retries of a signed call in flight whose nonce is behind the
    transport's, from any state. *)
Lemma retries_from
        (st : State) (i : nat) (p : Pending) (attempt : Attempt)
        (k : PostReaction) (first : Z * Payload) (more : list (Z * Payload))
        (now : Z) (final : Payload) :
  nth_error (inflight st) i = Some p ->
  p_then p = ThenPost attempt k ->
  at_nonce attempt < _nonce (http st) ->
  Forall (fun r => isStaleNonce (snd r) = true) (first :: more) ->
  isStaleNonce final = false ->
  let n0 := _nonce (http st) in
  let others := remove_at i (inflight st) in
  let retried := run st (staleTurns i (List.length others) (first :: more)) in
  let last := n0 + Z.of_nat (List.length more) in
  snd retried
  = map (fun j => retryRequest st attempt (n0 + Z.of_nat j))
        (seq 0 (S (List.length more)))
  /\ signedNonces (snd retried) = consecutive n0 (S (List.length more))
  /\ Forall (fun n => at_nonce attempt < n) (signedNonces (snd retried))
  /\ fst retried = retriedState st others attempt k last
  /\ respond now (fst retried) (List.length others) (Parsed final)
     = match react (set_inflight (fst retried) others) k
                   {| data := final; time := now |} with
       | Some r => r
       | None => (fst retried, [])
       end.
Proof.
  intros Hnth Hthen Hlt Hall Hfinal n0 others retried last.
  inversion Hall as [|x l Hfirst Hmore]; subst x l.
  destruct first as [now1 pl1]. cbn [snd] in Hfirst.
  assert (Hrun : retried
                 = (retriedState st others attempt k last,
                    map (fun j => retryRequest st attempt (n0 + Z.of_nat j))
                        (seq 0 (S (List.length more))))).
  { unfold retried, staleTurns.
    cbn [run step returned next out fst snd].
    rewrite (respond_stale now1 st i p attempt k pl1 Hnth Hthen Hfirst).
    cbn [fst snd]. fold others. fold n0.
    rewrite (run_retries st others attempt k more n0 Hmore).
    f_equal. cbn [seq map app]. f_equal.
    - unfold retryRequest. now rewrite Z.add_0_r.
    - rewrite <- seq_shift, map_map. apply map_ext. intros j.
      f_equal. lia. }
  rewrite Hrun. cbn [fst snd]. repeat split.
  - apply signedNonces_retries.
  - rewrite signedNonces_retries. apply Forall_forall. intros x Hx.
    apply consecutive_lower in Hx. unfold n0 in Hx. lia.
  - erewrite respond_signed; [|apply nth_error_last|reflexivity].
    rewrite Hfinal.
    cbn [retriedState inflight set_inflight]. rewrite remove_at_last.
    reflexivity.
Qed.

(** *** The cursors of the pollers *)

Lemma post_cursors (st : State) (method actionUrl : string) (msg : Js.object)
      (k : PostReaction) :
  md_since (fst (post st method actionUrl msg k)) = md_since st
  /\ oe_since (fst (post st method actionUrl msg k)) = oe_since st.
Proof. rewrite post_eq. split; reflexivity. Qed.

Lemma react_cursors (st : State) (k : PostReaction)
      (resp : Timestamped Payload) (r : State * list Output) :
  react st k resp = Some r ->
  md_since (fst r) = md_since st /\ oe_since (fst r) = oe_since st.
Proof.
  apply (react_preserves
           (fun s s' _ => md_since s' = md_since s
                          /\ oe_since s' = oe_since s)).
  - intros s o _. split; reflexivity.
  - intros s method actionUrl msg k'. apply post_cursors.
  - intros s1 s2 s3 o1 o2 [H1 H2] [H3 H4]. split; congruence.
Qed.

(** No completion of a request moves the cursor of the reconciliation,
    nor changes the symbol. *)
Lemma respond_oe_since (now : Z) (st : State) (i : nat) (o : Outcome) :
  oe_since (fst (respond now st i o)) = oe_since st.
Proof.
  apply (respond_preserves (fun s s' _ => oe_since s' = oe_since s)).
  - reflexivity.
  - intros s method actionUrl msg k. apply post_cursors.
  - intros s1 s2 s3 o1 o2 H1 H2. congruence.
  - reflexivity.
  - reflexivity.
Qed.

Lemma respond_symbol (now : Z) (st : State) (i : nat) (o : Outcome) :
  symbol (fst (respond now st i o)) = symbol st.
Proof.
  apply (respond_preserves (fun s s' _ => symbol s' = symbol s)).
  - reflexivity.
  - intros s method actionUrl msg k. rewrite post_eq. reflexivity.
  - intros s1 s2 s3 o1 o2 H1 H2. congruence.
  - reflexivity.
  - reflexivity.
Qed.

Lemma onMarketDataBody_quiet (st : State) (v : Js.json) (t : Z) :
  fst (onMarketDataBody st v t) = st
  /\ requests (snd (onMarketDataBody st v t)) = [].
Proof.
  unfold onMarketDataBody.
  destruct v; try (split; reflexivity);
    destruct (sidesOf _); try (split; reflexivity);
    destruct (sidesOf _); split; reflexivity.
Qed.

(** The cursor of the trade poller after the completion of a request: it
    is set, to the unix time of the clock, exactly when the completion
    hands a body to [onTrades] and [onTrades] runs to its end on it. *)
Lemma respond_md_since (now : Z) (st : State) (i : nat) (o : Outcome) :
  md_since (fst (respond now st i o))
  = match handedToOnTrades st (Response i o) with
    | Some v => if processedInFull v then Some (unix now) else md_since st
    | None => md_since st
    end.
Proof.
  unfold handedToOnTrades.
  destruct (nth_error (inflight st) i) as [p|] eqn:Hnth.
  - destruct o as [err|body|pl].
    + unfold respond. rewrite Hnth. reflexivity.
    + unfold respond. rewrite Hnth. reflexivity.
    + rewrite (respond_parsed now st i p pl Hnth). cbv zeta.
      destruct (p_then p) as [| |attempt k].
      * now rewrite (proj1 (onMarketDataBody_quiet _ _ _)).
      * rewrite onTradesBody_eq. cbn [fst].
        now destruct (processedInFull (bodyOf pl)).
      * destruct (isStaleNonce pl).
        -- apply (post_cursors (set_inflight st (remove_at i (inflight st)))).
        -- destruct (react _ k _) as [r|] eqn:Hr; [|reflexivity].
           apply react_cursors in Hr. apply Hr.
  - unfold respond. rewrite Hnth. now destruct o.
Qed.

(** A completion that hands a batch to [onTrades]: every trade is emitted
    with the flag read from the cursor, and then the cursor is set. *)
Lemma respond_trades (now : Z) (st : State) (i : nat) (o : Outcome)
      (trades : list ChankuraMarketTrade) :
  processedTrades st (Response i o) = Some trades ->
  respond now st i o
  = (set_md_since (set_inflight st (remove_at i (inflight st)))
                  (Some (unix now)),
     map (fun trade => MarketTrade (convertTrade (md_since st) trade)) trades).
Proof.
  unfold respond, processedTrades.
  destruct o as [err|body|pl]; try discriminate.
  destruct pl; try discriminate.
  destruct (nth_error (inflight st) i) as [p|]; [|discriminate].
  destruct (p_then p); try discriminate.
  intros H. inversion H; subst. reflexivity.
Qed.

Lemma sendOrder_cursors (now : Z) (st : State) (order : OrderStatusReport) :
  md_since (next (sendOrder now st order)) = md_since st
  /\ oe_since (next (sendOrder now st order)) = oe_since st.
Proof.
  unfold sendOrder. destruct (convertToOrderRequest st order) as [e|req].
  - split; reflexivity.
  - rewrite post_eq. split; reflexivity.
Qed.

Lemma cancelOrder_cursors (now : Z) (st : State) (cancel : OrderStatusReport) :
  md_since (next (cancelOrder now st cancel)) = md_since st
  /\ oe_since (next (cancelOrder now st cancel)) = oe_since st.
Proof. unfold cancelOrder. rewrite post_eq. split; reflexivity. Qed.

Lemma step_md_since (now : Z) (st : State) (i : Input) :
  md_since (next (step now st i))
  = match handedToOnTrades st i with
    | Some v => if processedInFull v then Some (unix now) else md_since st
    | None => md_since st
    end.
Proof.
  destruct i; cbn [step returned next handedToOnTrades].
  - reflexivity.
  - reflexivity.
  - unfold downloadOrderStatuses. rewrite post_eq. reflexivity.
  - apply (post_cursors st).
  - apply sendOrder_cursors.
  - apply cancelOrder_cursors.
  - unfold replaceOrder. cbn [next].
    destruct (sendOrder_cursors now (next (cancelOrder now st replace)) replace)
      as [-> _].
    apply cancelOrder_cursors.
  - apply respond_md_since.
Qed.

Lemma marketTrades_app (a b : list Output) :
  marketTrades (a ++ b) = marketTrades a ++ marketTrades b.
Proof.
  induction a as [|o a IH]; simpl; [reflexivity|].
  destruct o; simpl; now rewrite ?IH.
Qed.

Lemma marketTrades_emitted (trades : list GatewayMarketTrade) :
  marketTrades (map MarketTrade trades) = trades.
Proof.
  induction trades as [|t l IH]; simpl; [reflexivity|now rewrite IH].
Qed.

(** A turn that hands a body to [onTrades] emits the trades of the body,
    with the flag of the poller. *)
Lemma step_trades (now : Z) (st : State) (i : Input) (v : Js.json) :
  handedToOnTrades st i = Some v ->
  marketTrades (out (step now st i)) = tradesOf (md_since st) v.
Proof.
  destruct i as [| | | | | | |n o]; try discriminate.
  cbn [handedToOnTrades step returned out].
  destruct o as [err|body|pl]; try discriminate.
  destruct (nth_error (inflight st) n) as [p|] eqn:Hnth; [|discriminate].
  destruct (p_then p) eqn:Hthen; try discriminate.
  intros H. apply some_eq in H. subst v.
  rewrite (respond_parsed now st n p pl Hnth), Hthen. cbv zeta.
  rewrite onTradesBody_eq. cbn [snd set_inflight md_since].
  rewrite marketTrades_app, marketTrades_emitted.
  destruct (processedInFull (bodyOf pl)); apply app_nil_r.
Qed.

(** Trades are emitted by [onTrades] only. *)
Lemma marketTrades_post (st : State) (method actionUrl : string)
      (msg : Js.object) (k : PostReaction) :
  marketTrades (snd (post st method actionUrl msg k)) = [].
Proof. rewrite post_eq. reflexivity. Qed.

Lemma marketTrades_updateOf (u : OrderStatusUpdate)
      (exchangeId rejectMessage : option Js.json) :
  marketTrades [updateOf u exchangeId rejectMessage] = [].
Proof.
  unfold updateOf.
  destruct (textOf exchangeId), (textOf rejectMessage); reflexivity.
Qed.

Lemma marketTrades_orderDetailBody (id price volume : option Js.json)
      (v : Js.json) :
  marketTrades (orderDetailBody id price volume v) = [].
Proof.
  unfold orderDetailBody.
  repeat match goal with
         | |- context [match Js.parseFloatOf ?x with _ => _ end] =>
             destruct (Js.parseFloatOf x)
         end;
    try reflexivity; apply marketTrades_updateOf.
Qed.

Lemma marketTrades_positionsBody (v : Js.json) :
  marketTrades (positionsBody v) = [].
Proof.
  unfold positionsBody.
  destruct (collect convertPositionOf _) as [rpts ok].
  assert (H : marketTrades (map positionOutput rpts) = []).
  { induction rpts as [|[[amt held] [[| | |text| |]|]] rpts IH];
      [reflexivity|exact IH..]. }
  destruct ok; [exact H|]. rewrite marketTrades_app, H. reflexivity.
Qed.

Lemma marketTrades_forEachMyTrade (trades : list ChankuraMyTradesResponse) :
  forall st, marketTrades (snd (forEachMyTrade st trades)) = [].
Proof.
  induction trades as [|trade rest IH]; intros st; [reflexivity|].
  rewrite forEachMyTrade_cons. cbn [snd].
  now rewrite marketTrades_app, marketTrades_post, IH.
Qed.

Lemma marketTrades_forEachFill (items : list (option Js.json)) :
  forall st, marketTrades (snd (forEachFill st items)) = [].
Proof.
  induction items as [|item rest IH]; intros st; [reflexivity|].
  rewrite forEachFill_step.
  destruct item as [[| | | | |]|]; try reflexivity;
    cbn [snd]; now rewrite marketTrades_app, marketTrades_post, IH.
Qed.

Lemma marketTrades_reactBody (st : State) (k : PostReaction) (v : Js.json)
      (t : Z) :
  marketTrades (snd (reactBody st k v t)) = [].
Proof.
  unfold reactBody.
  destruct (testMessage v); try reflexivity;
    destruct k; cbn [snd];
    first [ apply marketTrades_forEachFill
          | apply marketTrades_orderDetailBody
          | apply marketTrades_positionsBody
          | unfold sendOrderBody; destruct (Js.prop "message" v);
            apply marketTrades_updateOf
          | unfold cancelOrderBody; destruct (Js.prop "message" v);
            apply marketTrades_updateOf ].
Qed.

Lemma marketTrades_react (st : State) (k : PostReaction)
      (resp : Timestamped Payload) (r : State * list Output) :
  react st k resp = Some r -> marketTrades (snd r) = [].
Proof.
  unfold react. destruct resp as [pl t]. cbn [data time].
  destruct k, pl; intros H; apply some_eq in H; subst r;
    lazymatch goal with
    | |- marketTrades (snd (reactBody _ _ _ _)) = _ =>
        apply marketTrades_reactBody
    | |- marketTrades (snd (forEachMyTrade _ _)) = _ =>
        apply marketTrades_forEachMyTrade
    | |- marketTrades (snd (_, map _ ?accounts)) = _ =>
        cbn [snd]; induction accounts as [|a l IH]; [reflexivity|exact IH]
    | |- _ => reflexivity
    end.
Qed.

Lemma marketTrades_onMarketDataBody (st : State) (v : Js.json) (t : Z) :
  marketTrades (snd (onMarketDataBody st v t)) = [].
Proof.
  unfold onMarketDataBody.
  destruct v; try reflexivity;
    destruct (sidesOf _); try reflexivity;
    destruct (sidesOf _); reflexivity.
Qed.

Lemma marketTrades_sendOrder (now : Z) (st : State)
      (order : OrderStatusReport) :
  marketTrades (out (sendOrder now st order)) = [].
Proof.
  unfold sendOrder. destruct (convertToOrderRequest st order);
    [reflexivity|]. rewrite post_eq. reflexivity.
Qed.

Lemma marketTrades_cancelOrder (now : Z) (st : State)
      (cancel : OrderStatusReport) :
  marketTrades (out (cancelOrder now st cancel)) = [].
Proof. unfold cancelOrder. rewrite post_eq. reflexivity. Qed.

(** A turn that hands no body to [onTrades] emits no trade. *)
Lemma step_no_trades (now : Z) (st : State) (i : Input) :
  handedToOnTrades st i = None -> marketTrades (out (step now st i)) = [].
Proof.
  destruct i as [| | | |order|cancel|replace|n o];
    cbn [step returned out handedToOnTrades]; intros Hh.
  - reflexivity.
  - reflexivity.
  - unfold downloadOrderStatuses. rewrite post_eq. reflexivity.
  - apply marketTrades_post.
  - apply marketTrades_sendOrder.
  - apply marketTrades_cancelOrder.
  - unfold replaceOrder. cbn [out].
    now rewrite marketTrades_app, marketTrades_cancelOrder,
      marketTrades_sendOrder.
  - destruct (nth_error (inflight st) n) as [p|] eqn:Hnth;
      [|unfold respond; now rewrite Hnth].
    destruct o as [err|body|pl];
      try (unfold respond; rewrite Hnth; reflexivity).
    rewrite (respond_parsed now st n p pl Hnth). cbv zeta.
    destruct (p_then p) as [| |attempt k]; [|discriminate|].
    + apply marketTrades_onMarketDataBody.
    + destruct (isStaleNonce pl); [apply marketTrades_post|].
      destruct (react _ k _) as [r|] eqn:Hr; [|reflexivity].
      exact (marketTrades_react _ _ _ _ Hr).
Qed.

(** An array of trades is always processed in full, trade by trade. *)
Lemma tradesOf_typed (since : option Z) (trades : list ChankuraMarketTrade) :
  tradesOf since (bodyOf (MarketTradesPayload trades))
  = map (convertTrade since) trades
  /\ processedInFull (bodyOf (MarketTradesPayload trades)) = true.
Proof.
  unfold tradesOf, processedInFull. cbn [bodyOf Js.elements].
  rewrite (collect_all (convertTradeOf since) (map marketTradeJson trades)
             (map (convertTrade since) trades)),
          (collect_all (convertTradeOf None) (map marketTradeJson trades)
             (map (convertTrade None) trades)).
  - split; reflexivity.
  - apply Forall2_map. intros trade. apply convertTradeOf_typed.
  - apply Forall2_map. intros trade. apply convertTradeOf_typed.
Qed.

Lemma map_repeat_Forall {A B : Type} (f : A -> B) (b : B) (l : list A)
      (n : nat) :
  map f l = repeat b n -> Forall (fun a => f a = b) l.
Proof.
  revert n. induction l as [|a l IH]; intros n H; [constructor|].
  destruct n as [|n]; [discriminate|]. cbn [map repeat] in H.
  injection H as H1 H2. constructor; [exact H1|]. now apply (IH n).
Qed.

Lemma bodies_flags (turns : list (Z * Input)) :
  forall st,
    map (map isFirstObservedBatch) (tradesByBody st turns)
    = flagsByBody (isCold st) (handedBodies st turns).
Proof.
  induction turns as [|[now i] rest IH]; intros st.
  - reflexivity.
  - cbn [tradesByBody handedBodies].
    destruct (handedToOnTrades st i) as [v|] eqn:Hh.
    + cbn [map flagsByBody]. rewrite IH. f_equal.
      * rewrite (step_trades now st i v Hh). unfold tradesOf, isCold.
        apply (collect_trades_end (md_since st) (Js.elements v)).
      * f_equal. unfold isCold. rewrite step_md_since, Hh.
        now destruct (md_since st), (processedInFull v).
    + rewrite IH. unfold isCold. now rewrite step_md_since, Hh.
Qed.

(** C9, as the code has it. The market poller starts cold. It turns warm
    exactly in a turn that hands [onTrades] a parsed body, of whatever
    kind, on which [onTrades] runs to its end, and is never cold again.
    Every trade that a turn emits carries the flag of the poller at the
    start of the turn: [true] when it is cold, [false] when it is warm;
    only a turn that hands [onTrades] a body emits trades, those of the
    body. So, in every run from the start, the
    trades are flagged [true] in every body up to and including the first
    one processed to the end, and [false] in every later one; when every
    body is processed to the end, as every array of trades is, they are
    flagged [true] in the first body and [false] in every later one. *)
Theorem first_batch_flag
        (config : Config) (sym : string) (t0 : Z) (turns : list (Z * Input)) :
  let st0 := fst (create config sym t0) in
  isCold st0 = true
  /\ (forall now st i,
         isCold st = false -> isCold (next (step now st i)) = false)
  /\ (forall now st i,
         isCold st = true ->
         (isCold (next (step now st i)) = false
          <-> exists v, handedToOnTrades st i = Some v
                        /\ processedInFull v = true))
  /\ (forall now st i,
         Forall (fun t => isFirstObservedBatch t = isCold st)
                (marketTrades (out (step now st i))))
  /\ (forall now st i v,
         handedToOnTrades st i = Some v ->
         map isFirstObservedBatch (marketTrades (out (step now st i)))
         = repeat (isCold st) (List.length (tradesOf None v)))
  /\ (forall now st i,
         handedToOnTrades st i = None ->
         marketTrades (out (step now st i)) = [])
  /\ (forall since trades,
         processedInFull (bodyOf (MarketTradesPayload trades)) = true
         /\ tradesOf since (bodyOf (MarketTradesPayload trades))
            = map (convertTrade since) trades)
  /\ map (map isFirstObservedBatch) (tradesByBody st0 turns)
     = flagsByBody true (handedBodies st0 turns)
  /\ (Forall (fun v => processedInFull v = true) (handedBodies st0 turns) ->
      map (map isFirstObservedBatch) (tradesByBody st0 turns)
      = match handedBodies st0 turns with
        | [] => []
        | first :: later =>
            repeat true (List.length (tradesOf None first))
              :: map (fun v => repeat false (List.length (tradesOf None v)))
                     later
        end).
Proof.
  assert (Hflags : forall now st i v,
             handedToOnTrades st i = Some v ->
             map isFirstObservedBatch (marketTrades (out (step now st i)))
             = repeat (isCold st) (List.length (tradesOf None v))).
  { intros now st i v Hh. rewrite (step_trades now st i v Hh).
    unfold tradesOf, isCold.
    apply (collect_trades_end (md_since st) (Js.elements v)). }
  intros st0. split; [reflexivity|].
  split; [|split; [|split; [|split; [|split; [|split; [|split]]]]]].
  - intros now st i. unfold isCold. rewrite step_md_since.
    destruct (md_since st); [|discriminate]. intros _.
    destruct (handedToOnTrades st i) as [v|]; [|reflexivity].
    now destruct (processedInFull v).
  - intros now st i. unfold isCold. rewrite step_md_since.
    destruct (md_since st); [discriminate|]. intros _.
    destruct (handedToOnTrades st i) as [v|].
    + destruct (processedInFull v) eqn:Hv; split.
      * intros _. now exists v.
      * reflexivity.
      * discriminate.
      * intros [v' [Hv' Hfull]]. apply some_eq in Hv'. subst v'. congruence.
    + split; [discriminate|]. intros [v [Hv _]]. discriminate.
  - intros now st i.
    destruct (handedToOnTrades st i) as [v|] eqn:Hh;
      [|rewrite (step_no_trades now st i Hh); constructor].
    exact (map_repeat_Forall _ _ _ _ (Hflags now st i v Hh)).
  - exact Hflags.
  - apply step_no_trades.
  - intros since trades. split; apply (tradesOf_typed since trades).
  - apply (bodies_flags turns st0).
  - intros Hall. rewrite (bodies_flags turns st0).
    change (isCold st0) with true.
    destruct (handedBodies st0 turns) as [|first later]; [reflexivity|].
    inversion Hall as [|x l Hfirst Hlater]; subst.
    cbn [flagsByBody]. rewrite Hfirst. cbn [negb andb]. f_equal.
    clear. induction later as [|v later IH]; [reflexivity|].
    cbn [flagsByBody map andb]. now rewrite IH.
Qed.

(** C3, as the code has it. The cursor of the trade poller is set, to the
    clock's unix time, exactly in a turn that hands [onTrades] a parsed
    body on which [onTrades] runs to its end, as it does on every array of
    trades; no other turn changes it: a poll whose request fails, or whose
    body does not parse, leaves it as it was, and the next tick sends what
    it would have sent before. The cursor of the order reconciliation is
    set to the clock on every tick, right after the request for the fills
    has gone out, and no completion of a request, successful or not,
    changes it. *)
Theorem poll_cursors (now : Z) (st : State) :
  (forall i err,
      md_since (fst (respond now st i (Failed err))) = md_since st
      /\ forall later,
          snd (downloadMarketTrades later (fst (respond now st i (Failed err))))
          = snd (downloadMarketTrades later st))
  /\ (forall i body,
         md_since (fst (respond now st i (Unparsable body))) = md_since st
         /\ forall later,
             snd (downloadMarketTrades later
                    (fst (respond now st i (Unparsable body))))
             = snd (downloadMarketTrades later st))
  /\ (forall input,
         md_since (next (step now st input))
         = match handedToOnTrades st input with
           | Some v =>
               if processedInFull v then Some (unix now) else md_since st
           | None => md_since st
           end)
  /\ (forall i p trades,
         nth_error (inflight st) i = Some p ->
         p_then p = ThenOnTrades ->
         handedToOnTrades st (Response i (Parsed (MarketTradesPayload trades)))
         = Some (bodyOf (MarketTradesPayload trades))
         /\ processedInFull (bodyOf (MarketTradesPayload trades)) = true
         /\ marketTrades
              (snd (respond now st i (Parsed (MarketTradesPayload trades))))
            = map (convertTrade (md_since st)) trades)
  /\ oe_since (next (step now st TimerOrderStatuses)) = now
  /\ (forall i o, oe_since (fst (respond now st i o)) = oe_since st).
Proof.
  assert (Hfail : forall i o,
             (forall pl, o <> Parsed pl) ->
             md_since (fst (respond now st i o)) = md_since st
             /\ forall later,
                 snd (downloadMarketTrades later (fst (respond now st i o)))
                 = snd (downloadMarketTrades later st)).
  { intros i o Ho. unfold respond.
    destruct (nth_error (inflight st) i) as [p|]; [|split; reflexivity].
    destruct o as [err|body|pl]; [| |now elim (Ho pl)];
      split; reflexivity. }
  split; [intros i err; apply Hfail; discriminate|].
  split; [intros i body; apply Hfail; discriminate|].
  split; [|split; [|split]].
  - intros input. apply step_md_since.
  - intros i p trades Hnth Hthen.
    assert (Hh : handedToOnTrades st
                   (Response i (Parsed (MarketTradesPayload trades)))
                 = Some (bodyOf (MarketTradesPayload trades))).
    { unfold handedToOnTrades. now rewrite Hnth, Hthen. }
    split; [exact Hh|]. split; [apply (tradesOf_typed None)|].
    pose proof (step_trades now st _ _ Hh) as Ht.
    cbn [step returned out] in Ht. rewrite Ht.
    apply (tradesOf_typed (md_since st)).
  - cbn [step returned next]. unfold downloadOrderStatuses.
    rewrite post_eq. reflexivity.
  - apply respond_oe_since.
Qed.

(** *** The order-entry gateway *)

Lemma respond_resolved (now : Z) (st : State) (i : nat) (p : Pending)
      (k : PostReaction) (pl : Payload) (r : State * list Output) :
  nth_error (inflight st) i = Some p ->
  awaits k p ->
  isStaleNonce pl = false ->
  react (set_inflight st (remove_at i (inflight st))) k
        {| data := pl; time := now |} = Some r ->
  respond now st i (Parsed pl) = r.
Proof.
  intros Hnth [attempt Hthen] Hfresh Hr.
  rewrite (respond_signed now st i p attempt k pl Hnth Hthen), Hfresh.
  now rewrite Hr.
Qed.





Lemma orderUpdates_app (a b : list Output) :
  orderUpdates (a ++ b) = orderUpdates a ++ orderUpdates b.
Proof.
  induction a as [|o a IH]; simpl; [reflexivity|].
  destruct o; simpl; now rewrite ?IH.
Qed.

Lemma sendOrder_submitted (now : Z) (st : State) (order : OrderStatusReport)
      (req : ChankuraNewOrderRequest) :
  convertToOrderRequest st order = inr req ->
  sendOrder now st order
  = {| next := fst (post st "POST" "orders.json" (newOrderObject req)
                         (ThenSendOrder order));
       out := snd (post st "POST" "orders.json" (newOrderObject req)
                        (ThenSendOrder order))
              ++ [OrderUpdate (latencyUpdate now order)];
       thrown := None |}.
Proof.
  intros Hreq. unfold sendOrder. rewrite Hreq.
  now destruct (post st "POST" "orders.json" _ _).
Qed.

Lemma cancelOrder_eq (now : Z) (st : State) (cancel : OrderStatusReport) :
  cancelOrder now st cancel
  = {| next := fst (post st "POST" "order/delete.json"
                         (deleteOrderObject cancel) (ThenCancelOrder cancel));
       out := snd (post st "POST" "order/delete.json"
                        (deleteOrderObject cancel) (ThenCancelOrder cancel))
              ++ [OrderUpdate (latencyUpdate now cancel)];
       thrown := None |}.
Proof.
  unfold cancelOrder. now destruct (post st "POST" "order/delete.json" _ _).
Qed.

(** The update that resolves a submission, written out. *)
Lemma sendOrderResolved_cases (order : OrderStatusReport) (now : Z)
      (resp : ChankuraNewOrderResponse) :
  sendOrderResolved order {| data := resp; time := now |}
  = match new_message resp with
    | Some msg =>
        {| u_orderId := Some (orderId order); u_exchangeId := None;
           u_orderStatus := Some OrderStatus.Rejected;
           u_rejectMessage := Some msg;
           u_cancelRejected := None; u_time := Some now;
           u_computationalLatency := None;
           u_lastPrice := None; u_lastQuantity := None;
           u_averagePrice := None; u_leavesQuantity := None;
           u_cumQuantity := None; u_quantity := None |}
    | None =>
        {| u_orderId := Some (orderId order); u_exchangeId := new_id resp;
           u_orderStatus := Some OrderStatus.Working;
           u_rejectMessage := None;
           u_cancelRejected := None; u_time := Some now;
           u_computationalLatency := None;
           u_lastPrice := None; u_lastQuantity := None;
           u_averagePrice := None; u_leavesQuantity := None;
           u_cumQuantity := None; u_quantity := None |}
    end.
Proof. reflexivity. Qed.

(** [sendOrder] returns normally exactly when the request can be built. *)
Lemma sendOrder_throws_iff (now : Z) (st : State) (order : OrderStatusReport) :
  (exists req, convertToOrderRequest st order = inr req)
  <-> thrown (sendOrder now st order) = None.
Proof.
  unfold sendOrder. split.
  - intros [req ->]. now destruct (post st "POST" "orders.json" _ _).
  - destruct (convertToOrderRequest st order) as [e|req]; [discriminate|].
    intros _. now exists req.
Qed.


(** An order on which [sendOrder] throws is never submitted: nothing is
    sent, nothing is emitted, no request joins the ones in flight, so no
    update can resolve it later. *)
Lemma sendOrder_thrown (now : Z) (st : State) (order : OrderStatusReport)
      (e : Error) :
  thrown (sendOrder now st order) = Some e ->
  out (sendOrder now st order) = [] /\ next (sendOrder now st order) = st.
Proof.
  unfold sendOrder. destruct (convertToOrderRequest st order) as [e'|req].
  - intros _. split; reflexivity.
  - now destruct (post st "POST" "orders.json" _ _).
Qed.

(** C6, as the code has it. A cancellation never throws; a submission
    throws exactly when the order is a limit order that is neither
    fill-or-kill nor good-till-cancelled, before anything is sent or
    emitted; every call that does not throw emits the latency update; and
    a rejection by the venue (a response with a message) reaches the
    consumer as an update with status Rejected, flagged [cancelRejected]
    for a cancellation. *)
Theorem submit_cancel_faults (now later : Z) (st : State)
        (order : OrderStatusReport) :
  thrown (cancelOrder now st order) = None
  /\ orderUpdates (out (cancelOrder now st order)) = [latencyUpdate now order]
  /\ match type order, timeInForce order with
     | OrderType.Limit, TimeInForce.IOC =>
         thrown (sendOrder now st order)
         = Some (UnsupportedTif TimeInForce.IOC OrderType.Limit)
         /\ out (sendOrder now st order) = []
         /\ next (sendOrder now st order) = st
     | _, _ =>
         thrown (sendOrder now st order) = None
         /\ orderUpdates (out (sendOrder now st order))
            = [latencyUpdate now order]
     end
  /\ (forall st' i p id msg,
         nth_error (inflight st') i = Some p ->
         awaits (ThenSendOrder order) p ->
         Js.indexOf msg stale_nonce_text = -1 ->
         snd (respond later st' i
                (Parsed (NewOrderPayload
                           {| new_id := id; new_message := Some msg |})))
         = [OrderUpdate
              {| u_orderId := Some (orderId order); u_exchangeId := None;
                 u_orderStatus := Some OrderStatus.Rejected;
                 u_rejectMessage := Some msg;
                 u_cancelRejected := None; u_time := Some later;
                 u_computationalLatency := None;
                 u_lastPrice := None; u_lastQuantity := None;
                 u_averagePrice := None; u_leavesQuantity := None;
                 u_cumQuantity := None; u_quantity := None |}])
  /\ (forall st' i p msg,
         nth_error (inflight st') i = Some p ->
         awaits (ThenCancelOrder order) p ->
         Js.indexOf msg stale_nonce_text = -1 ->
         snd (respond later st' i
                (Parsed (DeleteOrderPayload {| del_message := Some msg |})))
         = [OrderUpdate
              {| u_orderId := Some (orderId order); u_exchangeId := None;
                 u_orderStatus := Some OrderStatus.Rejected;
                 u_rejectMessage := Some msg;
                 u_cancelRejected := Some true; u_time := Some later;
                 u_computationalLatency := None;
                 u_lastPrice := None; u_lastQuantity := None;
                 u_averagePrice := None; u_leavesQuantity := None;
                 u_cumQuantity := None; u_quantity := None |}]).
Proof.
  split; [now rewrite cancelOrder_eq|].
  split; [now rewrite cancelOrder_eq, post_eq|].
  split; [|split].
  - unfold sendOrder, convertToOrderRequest, encodeTimeInForce.
    destruct (type order), (timeInForce order);
      try (repeat split; reflexivity);
      rewrite post_eq; split; reflexivity.
  - intros st' i p id msg Hnth Haw Hmsg.
    assert (Hfresh : isStaleNonce
                       (NewOrderPayload
                          {| new_id := id; new_message := Some msg |}) = false).
    { unfold isStaleNonce. cbn [message new_message]. now rewrite Hmsg. }
    now rewrite (respond_resolved later st' i p (ThenSendOrder order) _ _
                   Hnth Haw Hfresh eq_refl).
  - intros st' i p msg Hnth Haw Hmsg.
    assert (Hfresh : isStaleNonce
                       (DeleteOrderPayload {| del_message := Some msg |})
                     = false).
    { unfold isStaleNonce. cbn [message del_message]. now rewrite Hmsg. }
    now rewrite (respond_resolved later st' i p (ThenCancelOrder order) _ _
                   Hnth Haw Hfresh eq_refl).
Qed.

(** C8, as the code has it. Every cancellation, also of an order without
    an exchange id, makes one signed call of [order/delete.json], whose
    [id] is the exchange id of the report, or empty in the query string
    when the report has none; it emits the latency update; and the answer
    of the venue decides the outcome: Rejected flagged [cancelRejected]
    when it has a message, Cancelled when it has none. *)
Theorem cancel_calls_venue (now later : Z) (st : State)
        (cancel : OrderStatusReport) :
  signedCalls (out (cancelOrder now st cancel))
  = [("POST", "order/delete.json",
      [("id", match exchangeId cancel with
              | Some id => Js.VString id
              | None => Js.VUndefined
              end)])]
  /\ Js.stringify (deleteOrderObject cancel)
     = ("id=" ++ match exchangeId cancel with
                 | Some id => Js.escape id
                 | None => ""
                 end)%string
  /\ List.length (requests (out (cancelOrder now st cancel))) = 1%nat
  /\ orderUpdates (out (cancelOrder now st cancel)) = [latencyUpdate now cancel]
  /\ (exists p,
         nth_error (inflight (next (cancelOrder now st cancel)))
                   (List.length (inflight st)) = Some p
         /\ awaits (ThenCancelOrder cancel) p)
  /\ (forall st' i p resp,
         nth_error (inflight st') i = Some p ->
         awaits (ThenCancelOrder cancel) p ->
         isStaleNonce (DeleteOrderPayload resp) = false ->
         snd (respond later st' i (Parsed (DeleteOrderPayload resp)))
         = [OrderUpdate
              match del_message resp with
              | Some msg =>
                  {| u_orderId := Some (orderId cancel); u_exchangeId := None;
                     u_orderStatus := Some OrderStatus.Rejected;
                     u_rejectMessage := Some msg;
                     u_cancelRejected := Some true; u_time := Some later;
                     u_computationalLatency := None;
                     u_lastPrice := None; u_lastQuantity := None;
                     u_averagePrice := None; u_leavesQuantity := None;
                     u_cumQuantity := None; u_quantity := None |}
              | None =>
                  {| u_orderId := Some (orderId cancel); u_exchangeId := None;
                     u_orderStatus := Some OrderStatus.Cancelled;
                     u_rejectMessage := None;
                     u_cancelRejected := None; u_time := Some later;
                     u_computationalLatency := None;
                     u_lastPrice := None; u_lastQuantity := None;
                     u_averagePrice := None; u_leavesQuantity := None;
                     u_cumQuantity := None; u_quantity := None |}
              end]).
Proof.
  rewrite cancelOrder_eq, post_eq. cbn [next out fst snd app].
  split; [reflexivity|].
  split; [unfold deleteOrderObject; now destruct (exchangeId cancel)|].
  split; [reflexivity|]. split; [reflexivity|]. split.
  - cbn [set_inflight inflight]. eexists. split; [apply nth_error_last|].
    eexists. reflexivity.
  - intros st' i p resp Hnth Haw Hfresh.
    now rewrite (respond_resolved later st' i p (ThenCancelOrder cancel) _ _
                   Hnth Haw Hfresh eq_refl).
Qed.

(** *** The market-data gateway *)

(** C10. An order-book response makes the gateway emit exactly one book:
    on each side one level per venue level, in the venue's order, with
    price and size read by [parseFloat] from the venue's strings, stamped
    with the time of receipt; the book depends on nothing but the response
    and that time, so nothing of an earlier snapshot is in it; and the
    response of the scenario gives one bid (100.5, 2) and one ask
    (101.0, 1). *)
Theorem order_book_conversion
        (now : Z) (st : State) (i : nat) (p : Pending)
        (book : ChankuraOrderBook) :
  nth_error (inflight st) i = Some p ->
  p_then p = ThenOnMarketData ->
  let converted (levels : list ChankuraMarketLevel) :=
    map (fun level =>
           {| ms_price := Js.parseFloat (level_price level);
              ms_size := Js.parseFloat (level_volume level) |}) levels in
  snd (respond now st i (Parsed (OrderBookPayload book)))
  = [MarketData {| bids := converted (book_bids book);
                   asks := converted (book_asks book);
                   market_time := now |}]
  /\ List.length (converted (book_bids book)) = List.length (book_bids book)
  /\ List.length (converted (book_asks book)) = List.length (book_asks book)
  /\ (forall j level,
         nth_error (book_bids book) j = Some level ->
         nth_error (converted (book_bids book)) j
         = Some {| ms_price := Js.parseFloat (level_price level);
                   ms_size := Js.parseFloat (level_volume level) |})
  /\ (forall j level,
         nth_error (book_asks book) j = Some level ->
         nth_error (converted (book_asks book)) j
         = Some {| ms_price := Js.parseFloat (level_price level);
                   ms_size := Js.parseFloat (level_volume level) |})
  /\ (forall st' i' p',
         nth_error (inflight st') i' = Some p' ->
         p_then p' = ThenOnMarketData ->
         snd (respond now st' i' (Parsed (OrderBookPayload book)))
         = snd (respond now st i (Parsed (OrderBookPayload book))))
  /\ snd (respond now st i (Parsed (OrderBookPayload scenarioBook)))
     = [MarketData
          {| bids := [{| ms_price := Js.Dec false (201 # 2)%Q;
                         ms_size := Js.Dec false (2 # 1)%Q |}];
             asks := [{| ms_price := Js.Dec false (101 # 1)%Q;
                         ms_size := Js.Dec false (1 # 1)%Q |}];
             market_time := now |}].
Proof.
  intros Hnth Hthen converted.
  assert (Hbook : forall st' i' p' b,
             nth_error (inflight st') i' = Some p' ->
             p_then p' = ThenOnMarketData ->
             snd (respond now st' i' (Parsed (OrderBookPayload b)))
             = [MarketData {| bids := converted (book_bids b);
                              asks := converted (book_asks b);
                              market_time := now |}]).
  { intros st' i' p' b Hn Ht. unfold respond. rewrite Hn.
    cbn [doRequest]. rewrite Ht. reflexivity. }
  split; [now apply (Hbook st i p)|].
  split; [apply length_map|]. split; [apply length_map|].
  split; [|split; [|split]].
  - intros j level Hj. unfold converted.
    now rewrite nth_error_map, Hj.
  - intros j level Hj. unfold converted.
    now rewrite nth_error_map, Hj.
  - intros st' i' p' Hn Ht.
    now rewrite (Hbook st' i' p' book Hn Ht), (Hbook st i p book Hnth Hthen).
  - rewrite (Hbook st i p scenarioBook Hnth Hthen). reflexivity.
Qed.

(** *** The signing of requests *)

Lemma string_length_app (a b : string) :
  String.length (a ++ b) = (String.length a + String.length b)%nat.
Proof. induction a as [|c a IH]; simpl; [reflexivity|now rewrite IH]. Qed.

(** C7. What [_postOnce] signs and dispatches, for every method, action
    and message: the HMAC-SHA256 digest, under the secret, of
    [METHOD|api/v2<action>|access_key=<key>&tonce=<nonce>&<querystring>],
    which is never the payload of the specification (that one has a slash
    before [api]), and the digest is appended to the URL after
    [&signature], with no equals sign, so that the URL is not the one of
    the specification either, digests being of one length; on the
    create-order call of the sample both are written out. *)
Theorem signed_request_shape
        (h : ChankuraHttp) (method actionUrl : string) (msg : Js.object) :
  let sent := snd (fst (_postOnce h method actionUrl msg)) in
  payload h method actionUrl msg
  = (method ++ "|api/v2" ++ actionUrl ++ "|access_key=" ++ _apiKey h
       ++ "&tonce=" ++ Js.intToString (_nonce h) ++ "&"
       ++ Js.stringify msg)%string
  /\ payload h method actionUrl msg <> specPayload h method actionUrl msg
  /\ opt_url sent
     = (_baseUrl h ++ "/" ++ actionUrl ++ "?access_key=" ++ _apiKey h
          ++ "&tonce=" ++ Js.intToString (_nonce h) ++ "&"
          ++ Js.stringify msg ++ "&signature"
          ++ hmacSha256Hex (_secret h) (payload h method actionUrl msg))%string
  /\ (String.length (hmacSha256Hex (_secret h) (payload h method actionUrl msg))
      = String.length
          (hmacSha256Hex (_secret h) (specPayload h method actionUrl msg)) ->
      opt_url sent <> specUrl h method actionUrl msg)
  /\ payload sampleHttp "POST" "orders.json" sampleOrderObject
     = "POST|api/v2orders.json|access_key=KEY&tonce=1700000000000&volume=1&price=100.5&side=buy&market=btcusd&ord_type=exchange%20limit"
  /\ specPayload sampleHttp "POST" "/orders.json" sampleOrderObject
     = "POST|/api/v2/orders.json|access_key=KEY&tonce=1700000000000&volume=1&price=100.5&side=buy&market=btcusd&ord_type=exchange%20limit"
  /\ opt_url (snd (fst (_postOnce sampleHttp "POST" "orders.json"
                                  sampleOrderObject)))
     = ("https://chankura.com/api/v2/orders.json?access_key=KEY&tonce=1700000000000&volume=1&price=100.5&side=buy&market=btcusd&ord_type=exchange%20limit&signature"
          ++ hmacSha256Hex "SECRET"
               "POST|api/v2orders.json|access_key=KEY&tonce=1700000000000&volume=1&price=100.5&side=buy&market=btcusd&ord_type=exchange%20limit")%string.
Proof.
  intros sent.
  assert (Hassoc : forall a b c : string,
             ((a ++ b) ++ c = a ++ b ++ c)%string).
  { intros a b c. induction a as [|x a IH]; simpl; [reflexivity|].
    now rewrite IH. }
  assert (Hpayload :
            payload h method actionUrl msg
            = (method ++ "|api/v2" ++ actionUrl ++ "|access_key=" ++ _apiKey h
                 ++ "&tonce=" ++ Js.intToString (_nonce h) ++ "&"
                 ++ Js.stringify msg)%string).
  { unfold payload, params. rewrite !Hassoc. reflexivity. }
  assert (Hurl :
            opt_url sent
            = (_baseUrl h ++ "/" ++ actionUrl ++ "?access_key=" ++ _apiKey h
                 ++ "&tonce=" ++ Js.intToString (_nonce h) ++ "&"
                 ++ Js.stringify msg ++ "&signature"
                 ++ hmacSha256Hex (_secret h)
                      (payload h method actionUrl msg))%string).
  { unfold sent, _postOnce. cbn [fst snd opt_url].
    unfold signedUrl, signature, params. rewrite !Hassoc. reflexivity. }
  split; [exact Hpayload|]. split; [|split; [exact Hurl|split]].
  - rewrite Hpayload. unfold specPayload. intros Heq.
    apply (f_equal String.length) in Heq.
    rewrite !string_length_app in Heq. simpl in Heq. lia.
  - intros Hlen Heq. rewrite Hurl in Heq. unfold specUrl in Heq.
    apply (f_equal String.length) in Heq.
    rewrite !string_length_app in Heq. simpl in Heq. lia.
  - repeat split; reflexivity.
Qed.

(** *** The attempts in flight are behind the transport *)

Lemma belowNonce_mono (n m : Z) (l : list Pending) :
  n <= m -> belowNonce n l -> belowNonce m l.
Proof.
  intros Hle. unfold belowNonce. apply Forall_impl.
  intros p. destruct (p_then p); auto. lia.
Qed.

Lemma belowNonce_remove_at (n : Z) (l : list Pending) :
  forall i, belowNonce n l -> belowNonce n (remove_at i l).
Proof.
  unfold belowNonce.
  induction l as [|p l IH]; intros i H; [destruct i; exact H|].
  inversion H; subst. destruct i as [|i]; cbn; [assumption|].
  constructor; [assumption|now apply IH].
Qed.

Lemma post_below (st : State) (method actionUrl : string) (msg : Js.object)
      (k : PostReaction) :
  attemptsBelow st -> attemptsBelow (fst (post st method actionUrl msg k)).
Proof.
  intros H. rewrite post_eq. unfold attemptsBelow in *.
  cbn [fst http inflight set_inflight set_http withNonce _nonce].
  apply Forall_app. split.
  - apply (belowNonce_mono (_nonce (http st))); [lia|exact H].
  - constructor; [|constructor]. cbn. lia.
Qed.

Lemma startGet_below (st : State) (actionUrl : string) (qs : Js.object)
      (reaction : Reaction) :
  (forall a k, reaction <> ThenPost a k) ->
  attemptsBelow st -> attemptsBelow (fst (startGet st actionUrl qs reaction)).
Proof.
  intros Hget H. unfold attemptsBelow, startGet in *.
  cbn [fst http inflight set_inflight].
  apply Forall_app. split; [exact H|].
  constructor; [|constructor]. cbn.
  destruct reaction; auto. now elim (Hget attempt k).
Qed.

Lemma respond_below (now : Z) (st : State) (i : nat) (o : Outcome) :
  attemptsBelow st -> attemptsBelow (fst (respond now st i o)).
Proof.
  apply (respond_preserves
           (fun s s' _ => attemptsBelow s -> attemptsBelow s')).
  - intros s o' _ H. exact H.
  - intros s method actionUrl msg k. apply post_below.
  - intros s1 s2 s3 o1 o2 H1 H2 H. exact (H2 (H1 H)).
  - intros s j H. apply belowNonce_remove_at. exact H.
  - intros s since H. exact H.
Qed.

Lemma sendOrder_below (now : Z) (st : State) (order : OrderStatusReport) :
  attemptsBelow st -> attemptsBelow (next (sendOrder now st order)).
Proof.
  intros H. unfold sendOrder.
  destruct (convertToOrderRequest st order) as [e|req]; [exact H|].
  pose proof (post_below st "POST" "orders.json" (newOrderObject req)
                (ThenSendOrder order) H) as Hp.
  now destruct (post st "POST" "orders.json" _ _).
Qed.

Lemma cancelOrder_below (now : Z) (st : State) (cancel : OrderStatusReport) :
  attemptsBelow st -> attemptsBelow (next (cancelOrder now st cancel)).
Proof. intros H. rewrite cancelOrder_eq. now apply post_below. Qed.

Lemma step_below (now : Z) (st : State) (i : Input) :
  attemptsBelow st -> attemptsBelow (next (step now st i)).
Proof.
  intros H. destruct i; cbn [step returned next].
  - apply startGet_below; [discriminate|exact H].
  - apply startGet_below; [discriminate|exact H].
  - unfold downloadOrderStatuses.
    pose proof (post_below st "GET" "trades/my.json"
                  [("timestamp", Js.VInt (unix (oe_since st)));
                   ("market", Js.VString (symbol st))]
                  ThenOrderStatuses H) as Hp.
    now destruct (post st "GET" "trades/my.json" _ _).
  - now apply post_below.
  - now apply sendOrder_below.
  - now apply cancelOrder_below.
  - unfold replaceOrder. cbn [next].
    now apply sendOrder_below, cancelOrder_below.
  - now apply respond_below.
Qed.

(** In every state the connector reaches, the nonce of each signed request
    in flight is below the nonce the transport holds. *)
Lemma inflight_attempts_below
      (config : Config) (sym : string) (t0 : Z) (turns : list (Z * Input)) :
  attemptsBelow (fst (run (fst (create config sym t0)) turns)).
Proof.
  assert (Hrun : forall st, attemptsBelow st -> attemptsBelow (fst (run st turns))).
  { induction turns as [|[now i] rest IH]; intros st H; [exact H|].
    cbn [run]. specialize (IH (next (step now st i)) (step_below now st i H)).
    now destruct (run (next (step now st i)) rest). }
  apply Hrun. unfold attemptsBelow, belowNonce. cbn.
  repeat apply Forall_cons; try apply Forall_nil; cbn; try exact I. lia.
Qed.

(** C1. In every state the connector reaches, a signed call in flight that
    is answered with a stale-nonce message, once or several times in a
    row: every such answer makes the transport issue exactly one more call,
    with the same method, action and message, and with the next nonce of the
    transport, which is greater than the nonce of every earlier attempt of
    the call; and the first answer without the message ends the retrying:
    nothing but the reaction of the caller of [post] runs on it. *)
Theorem stale_nonce_retry
        (config : Config) (sym : string) (t0 : Z) (turns : list (Z * Input))
        (i : nat) (p : Pending) (attempt : Attempt) (k : PostReaction)
        (first : Z * Payload) (more : list (Z * Payload))
        (now : Z) (final : Payload) :
  let st := fst (run (fst (create config sym t0)) turns) in
  nth_error (inflight st) i = Some p ->
  p_then p = ThenPost attempt k ->
  Forall (fun r => isStaleNonce (snd r) = true) (first :: more) ->
  isStaleNonce final = false ->
  let n0 := _nonce (http st) in
  let others := remove_at i (inflight st) in
  let retried := run st (staleTurns i (List.length others) (first :: more)) in
  let last := n0 + Z.of_nat (List.length more) in
  snd retried
  = map (fun j => retryRequest st attempt (n0 + Z.of_nat j))
        (seq 0 (S (List.length more)))
  /\ signedCalls (snd retried)
     = map (fun _ => (at_method attempt, at_actionUrl attempt, at_msg attempt))
           (first :: more)
  /\ signedNonces (snd retried) = consecutive n0 (S (List.length more))
  /\ Forall (fun n => at_nonce attempt < n) (signedNonces (snd retried))
  /\ fst retried = retriedState st others attempt k last
  /\ respond now (fst retried) (List.length others) (Parsed final)
     = match react (set_inflight (fst retried) others) k
                   {| data := final; time := now |} with
       | Some r => r
       | None => (fst retried, [])
       end.
Proof.
  intros st Hnth Hthen Hall Hfinal n0 others retried last.
  assert (Hlt : at_nonce attempt < _nonce (http st)).
  { pose proof (inflight_attempts_below config sym t0 turns) as Hinv.
    fold st in Hinv. unfold attemptsBelow, belowNonce in Hinv.
    rewrite Forall_forall in Hinv.
    specialize (Hinv p (nth_error_In _ _ Hnth)). now rewrite Hthen in Hinv. }
  destruct (retries_from st i p attempt k first more now final
              Hnth Hthen Hlt Hall Hfinal) as [H1 [H2 [H3 [H4 H5]]]].
  fold n0 others retried last in H1, H2, H3, H4, H5.
  repeat split; try assumption.
  rewrite H1. change (S (List.length more)) with (List.length (first :: more)).
  generalize (first :: more) as l. generalize 0%nat as s.
  intros s l. revert s.
  induction l as [|x l IH]; intros s; [reflexivity|].
  cbn [List.length seq map signedCalls retryRequest attemptAt
       at_method at_actionUrl at_msg]. now rewrite IH.
Qed.

(** *** Further properties of the gateway *)

(** X5. Encoding a side for the venue and decoding the venue's answer give
    the side back, also for [Unknown], which travels as the empty string;
    and the venue texts that survive decoding and re-encoding are exactly
    ["buy"], ["sell"] and the empty one. *)
Theorem side_round_trip (side : Side.t) (text : string) :
  decodeSide (encodeSide side) = side
  /\ (encodeSide (decodeSide text) = text
      <-> text = "buy" \/ text = "sell" \/ text = "").
Proof.
  split; [now destruct side|].
  unfold decodeSide.
  destruct (String.eqb text "buy") eqn:Hb;
    [apply String.eqb_eq in Hb; subst; cbn; tauto|].
  destruct (String.eqb text "sell") eqn:Hs;
    [apply String.eqb_eq in Hs; subst; cbn; tauto|].
  apply String.eqb_neq in Hb, Hs. cbn. split.
  - intros <-. tauto.
  - intros [?|[?|?]]; congruence.
Qed.

(** X6. The order type sent to the venue: a market order is encoded the
    same way whatever its time in force; on limit orders the encoding tells
    the time in force, and never coincides with the one of a market order;
    and the only order without an encoding is the limit order that is
    immediate-or-cancel. *)
Theorem encodeTimeInForce_encoding :
  (forall tif, encodeTimeInForce tif OrderType.Market = inr "exchange market")
  /\ (forall tif tif' ord_type,
         encodeTimeInForce tif OrderType.Limit = inr ord_type ->
         encodeTimeInForce tif' OrderType.Limit = inr ord_type ->
         tif = tif')
  /\ (forall tif tif' ord_type,
         encodeTimeInForce tif OrderType.Limit = inr ord_type ->
         encodeTimeInForce tif' OrderType.Market <> inr ord_type)
  /\ (forall tif type e,
         encodeTimeInForce tif type = inl e <->
         tif = TimeInForce.IOC /\ type = OrderType.Limit
         /\ e = UnsupportedTif TimeInForce.IOC OrderType.Limit).
Proof.
  split; [reflexivity|]. split; [|split].
  - intros [] [] ord_type; cbn; congruence.
  - intros [] [] ord_type; cbn; congruence.
  - intros [] [] e; cbn; split;
      try discriminate; try (intros [? [? ?]]; discriminate);
      try (intros [? [? ?]]; congruence).
    intros H. inversion H. tauto.
Qed.

(** X7. [replaceOrder] is the cancel followed by the submission, and is not
    atomic: the cancel call always goes out first, with the current nonce,
    and its latency update is emitted; the create call follows with the
    next nonce when the order has an encoding; when it has none, the error
    is thrown after the cancel has gone out, and nothing is rolled back. *)
Theorem replaceOrder_not_atomic (now : Z) (st : State)
        (replace : OrderStatusReport) :
  let r := replaceOrder now st replace in
  let n := _nonce (http st) in
  match convertToOrderRequest st replace with
  | inr req =>
      thrown r = None
      /\ signedCalls (out r)
         = [("POST", "order/delete.json", deleteOrderObject replace);
            ("POST", "orders.json", newOrderObject req)]
      /\ signedNonces (out r) = [n; n + 1]
      /\ orderUpdates (out r)
         = [latencyUpdate now replace; latencyUpdate now replace]
      /\ List.length (inflight (next r)) = (List.length (inflight st) + 2)%nat
  | inl e =>
      thrown r = Some e
      /\ signedCalls (out r)
         = [("POST", "order/delete.json", deleteOrderObject replace)]
      /\ signedNonces (out r) = [n]
      /\ orderUpdates (out r) = [latencyUpdate now replace]
      /\ next r = next (cancelOrder now st replace)
      /\ List.length (inflight (next r)) = (List.length (inflight st) + 1)%nat
  end.
Proof.
  intros r n. unfold r, replaceOrder.
  assert (Hsym : convertToOrderRequest (next (cancelOrder now st replace)) replace
                 = convertToOrderRequest st replace).
  { rewrite cancelOrder_eq, post_eq. reflexivity. }
  destruct (convertToOrderRequest st replace) as [e|req] eqn:Hreq.
  - unfold sendOrder. rewrite Hsym. cbn [next out thrown].
    rewrite app_nil_r, cancelOrder_eq, post_eq. cbn [next out fst snd].
    repeat split. cbn [set_inflight inflight]. rewrite length_app. cbn. lia.
  - rewrite (sendOrder_submitted now _ replace req Hsym).
    cbn [next out thrown]. rewrite cancelOrder_eq, !post_eq.
    cbn [next out fst snd]. repeat split.
    cbn [set_inflight set_http inflight]. rewrite !length_app. cbn. lia.
Qed.

(** X8. A refresh of the positions makes one signed call of
    [/members/me.json] with an empty message; its answer triggers one
    position per account, in the venue's order, amount and held amount
    read by [parseFloat] from [balance] and [locked]; an answer without
    accounts triggers nothing; and nothing of the state changes but the
    request leaving the ones in flight. *)
Theorem positions_conversion
        (now : Z) (st : State) (i : nat) (p : Pending)
        (accounts : list ChankuraPositionResponseItem) :
  nth_error (inflight st) i = Some p ->
  awaits ThenPositions p ->
  signedCalls (snd (onRefreshPositions st)) = [("GET", "/members/me.json", [])]
  /\ (exists q, nth_error (inflight (fst (onRefreshPositions st)))
                          (List.length (inflight st)) = Some q
                /\ awaits ThenPositions q)
  /\ respond now st i (Parsed (PositionsPayload accounts))
     = (set_inflight st (remove_at i (inflight st)),
        map (fun a =>
               PositionUpdate
                 {| amount := Js.parseFloat (pos_balance a);
                    heldAmount := Js.parseFloat (pos_locked a);
                    currency := pos_currency a |}) accounts)
  /\ snd (respond now st i (Parsed (PositionsPayload []))) = [].
Proof.
  intros Hnth Haw. unfold onRefreshPositions. rewrite post_eq.
  cbn [fst snd set_inflight inflight].
  split; [reflexivity|]. split; [|split].
  - eexists. split; [apply nth_error_last|]. eexists. reflexivity.
  - now rewrite (respond_resolved now st i p ThenPositions
                   (PositionsPayload accounts) _ Hnth Haw eq_refl eq_refl).
  - now rewrite (respond_resolved now st i p ThenPositions
                   (PositionsPayload []) _ Hnth Haw eq_refl eq_refl).
Qed.

(** X9. A trade batch is emitted trade by trade, in the venue's order:
    price and size read by [parseFloat], the time read from [created_at],
    the side decoded ([buy] to Bid, [sell] to Ask, any other text to
    Unknown), and the flag of the first batch as the poller was cold or
    warm when the batch arrived; an empty batch emits nothing and still
    turns the poller warm. *)
Theorem trades_conversion
        (now : Z) (st : State) (i : nat) (o : Outcome)
        (trades : list ChankuraMarketTrade) :
  processedTrades st (Response i o) = Some trades ->
  snd (respond now st i o)
  = map (fun trade =>
           MarketTrade
             {| mt_price := Js.parseFloat (trade_price trade);
                mt_size := Js.parseFloat (trade_volume trade);
                mt_time := MomentOf (trade_created_at trade);
                isFirstObservedBatch := isCold st;
                mt_side :=
                  if String.eqb (trade_side trade) "buy" then Side.Bid
                  else if String.eqb (trade_side trade) "sell" then Side.Ask
                  else Side.Unknown |}) trades
  /\ List.length (snd (respond now st i o)) = List.length trades
  /\ isCold (fst (respond now st i o)) = false
  /\ http (fst (respond now st i o)) = http st.
Proof.
  intros Hp. rewrite (respond_trades now st i o trades Hp). cbn [fst snd].
  split; [reflexivity|]. split; [apply length_map|]. split; reflexivity.
Qed.

Lemma prefix_app (a b : string) : String.prefix a (a ++ b) = true.
Proof.
  induction a as [|c a IH]; [now destruct b|].
  cbn. now destruct (ascii_dec c c).
Qed.

Lemma string_app_assoc (a b c : string) :
  ((a ++ b) ++ c = a ++ b ++ c)%string.
Proof. induction a as [|x a IH]; simpl; [reflexivity|now rewrite IH]. Qed.

Lemma keeps_quiet (config : Config) (sym : string) (st : State)
      (o : list Output) :
  settled config sym st -> requests o = [] -> keeps config sym (st, o).
Proof. intros H Ho. split; [exact H|]. cbn. rewrite Ho. constructor. Qed.

Lemma keeps_then (config : Config) (sym : string) (st st' : State)
      (o o' : list Output) :
  keeps config sym (st, o) -> keeps config sym (st', o') ->
  keeps config sym (st', o ++ o').
Proof.
  intros [_ H1] [H2 H3]. split; [exact H2|].
  cbn in *. rewrite requests_app. now apply Forall_app.
Qed.

Lemma post_keeps (config : Config) (sym : string) (st : State)
      (method actionUrl : string) (msg : Js.object) (k : PostReaction) :
  settled config sym st -> keeps config sym (post st method actionUrl msg k).
Proof.
  intros [Ht [Hb [Hk [Hs Hsym]]]]. rewrite post_eq. split.
  - repeat split; assumption.
  - cbn [snd requests]. constructor; [|constructor]. split; [exact Ht|].
    cbn [requestAt _postOnce fst snd opt_url withNonce].
    unfold signedUrl. cbn [_baseUrl]. rewrite <- Hb.
    rewrite <- string_app_assoc. apply prefix_app.
Qed.

Lemma startGet_keeps (config : Config) (sym : string) (st : State)
      (actionUrl : string) (qs : Js.object) (reaction : Reaction) :
  settled config sym st -> keeps config sym (startGet st actionUrl qs reaction).
Proof.
  intros [Ht [Hb [Hk [Hs Hsym]]]]. split.
  - repeat split; assumption.
  - cbn [startGet snd requests]. constructor; [|constructor].
    split; [exact Ht|]. cbn [get opt_url]. rewrite <- Hb.
    rewrite <- string_app_assoc. apply prefix_app.
Qed.

Lemma respond_keeps (config : Config) (sym : string) (now : Z) (st : State)
      (i : nat) (o : Outcome) :
  settled config sym st -> keeps config sym (respond now st i o).
Proof.
  rewrite (surjective_pairing (respond now st i o)).
  apply (respond_preserves
           (fun s s' o' => settled config sym s -> keeps config sym (s', o'))).
  - intros s o' Ho H. now apply keeps_quiet.
  - intros s method actionUrl msg k H. rewrite <- surjective_pairing.
    now apply post_keeps.
  - intros s1 s2 s3 o1 o2 H1 H2 H. specialize (H1 H).
    apply (keeps_then config sym s2); [exact H1|]. apply H2. exact (proj1 H1).
  - intros s j H. now apply keeps_quiet.
  - intros s since H. now apply keeps_quiet.
Qed.

Lemma sendOrder_keeps (config : Config) (sym : string) (now : Z) (st : State)
      (order : OrderStatusReport) :
  settled config sym st ->
  keeps config sym (next (sendOrder now st order), out (sendOrder now st order)).
Proof.
  intros H. unfold sendOrder.
  destruct (convertToOrderRequest st order) as [e|req];
    [now apply keeps_quiet|].
  pose proof (post_keeps config sym st "POST" "orders.json" (newOrderObject req)
                (ThenSendOrder order) H) as Hp.
  destruct (post st "POST" "orders.json" _ _) as [st1 sent1].
  cbn [next out]. apply (keeps_then config sym st1); [exact Hp|].
  apply keeps_quiet; [exact (proj1 Hp)|reflexivity].
Qed.

Lemma cancelOrder_keeps (config : Config) (sym : string) (now : Z) (st : State)
      (cancel : OrderStatusReport) :
  settled config sym st ->
  keeps config sym (next (cancelOrder now st cancel),
                    out (cancelOrder now st cancel)).
Proof.
  intros H. rewrite cancelOrder_eq. cbn [next out].
  pose proof (post_keeps config sym st "POST" "order/delete.json"
                (deleteOrderObject cancel) (ThenCancelOrder cancel) H) as Hp.
  destruct (post st "POST" "order/delete.json" _ _) as [st1 sent1].
  cbn [fst snd]. apply (keeps_then config sym st1); [exact Hp|].
  apply keeps_quiet; [exact (proj1 Hp)|reflexivity].
Qed.

Lemma step_keeps (config : Config) (sym : string) (now : Z) (st : State)
      (i : Input) :
  settled config sym st ->
  keeps config sym (next (step now st i), out (step now st i)).
Proof.
  intros H. destruct i; cbn [step returned next out].
  - rewrite <- surjective_pairing. now apply startGet_keeps.
  - rewrite <- surjective_pairing. now apply startGet_keeps.
  - unfold downloadOrderStatuses.
    pose proof (post_keeps config sym st "GET" "trades/my.json"
                  [("timestamp", Js.VInt (unix (oe_since st)));
                   ("market", Js.VString (symbol st))] ThenOrderStatuses H)
      as Hp.
    destruct (post st "GET" "trades/my.json" _ _) as [st1 sent1].
    exact Hp.
  - rewrite <- surjective_pairing. now apply post_keeps.
  - now apply sendOrder_keeps.
  - now apply cancelOrder_keeps.
  - unfold replaceOrder. cbn [next out].
    pose proof (cancelOrder_keeps config sym now st replace H) as Hc.
    eapply keeps_then; [exact Hc|].
    apply sendOrder_keeps. exact (proj1 Hc).
  - rewrite <- surjective_pairing. now apply respond_keeps.
Qed.

Lemma run_keeps (config : Config) (sym : string) (turns : list (Z * Input)) :
  forall st, settled config sym st -> keeps config sym (run st turns).
Proof.
  induction turns as [|[now i] rest IH]; intros st H.
  - now apply keeps_quiet.
  - cbn [run]. pose proof (step_keeps config sym now st i H) as Hs.
    specialize (IH (next (step now st i)) (proj1 Hs)).
    destruct (run (next (step now st i)) rest) as [st' o'].
    eapply keeps_then; eassumption.
Qed.

(** X10. Nothing a run does changes the settings of the connector: the
    transport keeps the URL, the key and the secret of the configuration
    and its timeout of 15 seconds, and the gateways keep the symbol; and
    every request that ever goes out, signed or not, retried or not,
    carries that timeout and is addressed below the configured URL. *)
Theorem requests_keep_settings
        (config : Config) (sym : string) (t0 : Z) (turns : list (Z * Input)) :
  let booted := create config sym t0 in
  let final := run (fst booted) turns in
  settled config sym (fst final)
  /\ Forall (wellAddressed config) (requests (snd booted ++ snd final)).
Proof.
  intros booted final.
  assert (Hboot : keeps config sym booted).
  { unfold booted, create.
    set (st0 := {| http := newChankuraHttp config t0; symbol := sym;
                   md_since := None; oe_since := t0; inflight := [] |}).
    assert (H0 : settled config sym st0) by (repeat split).
    pose proof (startGet_keeps config sym st0 "order_book.json"
                  [("market", Js.VString (symbol st0));
                   ("bids_limit", Js.VInt 5); ("asks_limit", Js.VInt 5)]
                  ThenOnMarketData H0) as H1.
    unfold downloadMarketData.
    destruct (startGet st0 "order_book.json" _ _) as [st1 o1].
    pose proof (startGet_keeps config sym st1 "trades.json"
                  [("market", Js.VString (symbol st1));
                   ("timestamp",
                    Js.VInt match md_since st1 with
                            | None => unix (t0 - 60 * 1000)
                            | Some since => since
                            end)]
                  ThenOnTrades (proj1 H1)) as H2.
    unfold downloadMarketTrades.
    destruct (startGet st1 "trades.json" _ _) as [st2 o2].
    pose proof (post_keeps config sym st2 "GET" "/members/me.json" []
                  ThenPositions (proj1 H2)) as H3.
    unfold onRefreshPositions.
    destruct (post st2 "GET" "/members/me.json" _ _) as [st3 o3].
    eapply keeps_then; [exact H1|]. eapply keeps_then; eassumption. }
  pose proof (run_keeps config sym turns (fst booted) (proj1 Hboot)) as Hrun.
  fold final in Hrun. split; [exact (proj1 Hrun)|].
  rewrite requests_app. apply Forall_app. split; [apply Hboot|apply Hrun].
Qed.

Lemma reactBody_sends (st : State) (k : PostReaction) (v : Js.json) (t : Z) :
  requests (snd (reactBody st k v t)) <> [] ->
  k = ThenOrderStatuses
  /\ exists first rest,
      Js.elements v = Some first :: rest /\ first <> Js.JNull.
Proof.
  unfold reactBody.
  destruct (testMessage v); try (intros H; now elim H);
    destruct k; cbn [snd]; intros H;
    try (elim H;
         first [ apply requests_sendOrderBody
               | apply requests_cancelOrderBody
               | apply requests_orderDetailBody
               | apply requests_positionsBody ]);
    (split; [reflexivity|];
     destruct (Js.elements v) as [|item rest]; [now elim H|];
     destruct item as [first|]; [|now elim H];
     exists first, rest; split; [reflexivity|];
     intros ->; now elim H).
Qed.

Lemma react_sends (st : State) (k : PostReaction) (pl : Payload) (t : Z)
      (r : State * list Output) :
  react st k {| data := pl; time := t |} = Some r ->
  requests (snd r) <> [] ->
  k = ThenOrderStatuses
  /\ exists first rest,
      Js.elements (bodyOf pl) = Some first :: rest /\ first <> Js.JNull.
Proof.
  unfold react. cbn [data time].
  destruct k, pl; intros H; apply some_eq in H; subst r;
    lazymatch goal with
    | |- requests (snd (reactBody _ _ _ _)) <> [] -> _ =>
        apply reactBody_sends
    | |- requests (snd (forEachMyTrade _ ?trades)) <> [] -> _ =>
        destruct trades as [|trade trades]; intros Hreq;
        [now elim Hreq|];
        split; [reflexivity|];
        exists (myTradeJson trade), (map Some (map myTradeJson trades));
        split; [reflexivity|discriminate]
    | |- requests (snd (_, map _ _)) <> [] -> _ =>
        intros Hreq; elim Hreq; now apply requests_map_none
    | |- _ => intros Hreq; now elim Hreq
    end.
Qed.

(** X11. The completion of a request sends requests in two cases only:
    a signed call answered with the stale-nonce message (the retry), and
    the answer to the reconciliation's request for the fills, when the
    loop over its body, of whatever kind, starts with an element that is
    not [null] (the calls for the order details). A failed request, an
    unparsable body and every other answer send nothing: the transport
    never retries them. *)
Theorem completion_sends_only_retries_and_details
        (now : Z) (st : State) (i : nat) (o : Outcome) :
  requests (snd (respond now st i o)) <> [] ->
  exists p attempt k pl,
    nth_error (inflight st) i = Some p
    /\ p_then p = ThenPost attempt k
    /\ o = Parsed pl
    /\ (isStaleNonce pl = true
        \/ (k = ThenOrderStatuses
            /\ exists first rest,
                Js.elements (bodyOf pl) = Some first :: rest
                /\ first <> Js.JNull)).
Proof.
  destruct (nth_error (inflight st) i) as [p|] eqn:Hnth;
    [|unfold respond; rewrite Hnth; intros H; now elim H].
  destruct o as [err|body|pl];
    try (unfold respond; rewrite Hnth; intros H; now elim H).
  rewrite (respond_parsed now st i p pl Hnth). cbv zeta.
  destruct (p_then p) as [| |attempt k] eqn:Hthen.
  - intros H. elim H. apply onMarketDataBody_quiet.
  - rewrite onTradesBody_eq. cbn [snd]. intros H. elim H.
    rewrite requests_app, requests_marketTrades.
    now destruct (processedInFull (bodyOf pl)).
  - intros H. exists p, attempt, k, pl.
    split; [reflexivity|]. split; [exact Hthen|]. split; [reflexivity|].
    destruct (isStaleNonce pl) eqn:Hstale; [now left|right].
    destruct (react _ k _) as [r|] eqn:Hr; [|now elim H].
    exact (react_sends _ _ _ _ _ Hr H).
Qed.

Lemma unix_lookback (now : Z) : unix (now - 60 * 1000) = unix now - 60.
Proof.
  unfold unix. replace (now - 60 * 1000) with (now + (-60) * 1000) by lia.
  rewrite Z.div_add by lia. lia.
Qed.

(** X12. What the trade poller asks for. While it is cold, a tick asks for
    the trades since exactly 60 seconds before the unix time of the tick.
    Once a batch has been processed, every later tick asks for the trades
    since the unix time at which that batch was processed, whatever the
    batch held and whenever the tick comes. *)
Theorem trades_poll_since
        (now later : Z) (st : State) (i : nat) (o : Outcome)
        (trades : list ChankuraMarketTrade) :
  processedTrades st (Response i o) = Some trades ->
  let warm := fst (respond now st i o) in
  requests (snd (downloadMarketTrades later warm))
  = [{| opt_timeout := _timeout (http st);
        opt_url := (_baseUrl (http st) ++ "/" ++ "trades.json")%string;
        opt_qs := Some [("market", Js.VString (symbol st));
                        ("timestamp", Js.VInt (unix now))];
        opt_method := "GET" |}]
  /\ (forall cold tick,
         md_since cold = None ->
         requests (snd (downloadMarketTrades tick cold))
         = [{| opt_timeout := _timeout (http cold);
               opt_url := (_baseUrl (http cold) ++ "/" ++ "trades.json")%string;
               opt_qs := Some [("market", Js.VString (symbol cold));
                               ("timestamp", Js.VInt (unix tick - 60))];
               opt_method := "GET" |}]).
Proof.
  intros Hp warm. split.
  - unfold warm. rewrite (respond_trades now st i o trades Hp). reflexivity.
  - intros cold tick Hcold. unfold downloadMarketTrades. rewrite Hcold.
    rewrite unix_lookback. reflexivity.
Qed.

Lemma step_oe_since (now : Z) (st : State) (i : Input) :
  oe_since (next (step now st i))
  = match i with
    | TimerOrderStatuses => now
    | _ => oe_since st
    end.
Proof.
  destruct i; cbn [step returned next].
  - reflexivity.
  - reflexivity.
  - unfold downloadOrderStatuses. rewrite post_eq. reflexivity.
  - apply (post_cursors st).
  - apply sendOrder_cursors.
  - apply cancelOrder_cursors.
  - unfold replaceOrder. cbn [next].
    destruct (sendOrder_cursors now (next (cancelOrder now st replace)) replace)
      as [_ ->].
    apply cancelOrder_cursors.
  - apply respond_oe_since.
Qed.

Lemma step_symbol (now : Z) (st : State) (i : Input) :
  symbol (next (step now st i)) = symbol st.
Proof.
  destruct i; cbn [step returned next].
  - reflexivity.
  - reflexivity.
  - unfold downloadOrderStatuses. rewrite post_eq. reflexivity.
  - unfold onRefreshPositions. rewrite post_eq. reflexivity.
  - unfold sendOrder. destruct (convertToOrderRequest st order);
      [reflexivity|]. rewrite post_eq. reflexivity.
  - rewrite cancelOrder_eq, post_eq. reflexivity.
  - unfold replaceOrder. cbn [next]. unfold sendOrder.
    destruct (convertToOrderRequest _ replace);
      cbn [next]; rewrite ?post_eq, cancelOrder_eq, post_eq; reflexivity.
  - apply respond_symbol.
Qed.

Lemma run_reconciliation (turns : list (Z * Input)) :
  forall st,
    oe_since (fst (run st turns)) = lastTick (oe_since st) turns
    /\ symbol (fst (run st turns)) = symbol st.
Proof.
  induction turns as [|[now i] rest IH]; intros st; [split; reflexivity|].
  cbn [run]. destruct (IH (next (step now st i))) as [H1 H2].
  destruct (run (next (step now st i)) rest) as [st' o'].
  cbn [fst] in *. rewrite H1, H2, step_oe_since, step_symbol.
  split; [|reflexivity]. now destruct i.
Qed.

(** X13. Whatever the turns of a run are (orders, answers, failures), the
    cursor of the reconciliation is the clock of the most recent
    reconciliation tick, or the one it started with when there has been
    none; so a tick asks for the fills since the unix time of the tick
    before it, also when the request of that tick failed. *)
Theorem reconciliation_window (now : Z) (st : State)
        (turns : list (Z * Input)) :
  let reached := fst (run st turns) in
  oe_since reached = lastTick (oe_since st) turns
  /\ signedCalls (snd (downloadOrderStatuses now reached))
     = [("GET", "trades/my.json",
         [("timestamp", Js.VInt (unix (lastTick (oe_since st) turns)));
          ("market", Js.VString (symbol st))])]
  /\ oe_since (fst (downloadOrderStatuses now reached)) = now.
Proof.
  intros reached. destruct (run_reconciliation turns st) as [H1 H2].
  fold reached in H1, H2. split; [exact H1|].
  unfold downloadOrderStatuses. rewrite post_eq. cbn [fst snd signedCalls].
  cbn [at_method at_actionUrl at_msg]. rewrite H1, H2. split; reflexivity.
Qed.

Lemma firstMarket_some (sym : string) (symbolDetails : list SymbolDetails)
      (s : SymbolDetails) :
  firstMarket sym symbolDetails = Some s ->
  exists pre post,
    symbolDetails = pre ++ s :: post
    /\ Forall (fun m => sd_id m <> sym) pre
    /\ sd_id s = sym.
Proof.
  induction symbolDetails as [|m l IH]; [discriminate|].
  cbn [firstMarket]. destruct (String.eqb (sd_id m) sym) eqn:Hm.
  - intros H. inversion H; subst. exists [], l.
    apply String.eqb_eq in Hm. repeat split; [constructor|exact Hm].
  - intros H. destruct (IH H) as [pre [post [-> [Hpre Hs]]]].
    exists (m :: pre), post. apply String.eqb_neq in Hm.
    repeat split; [now constructor|exact Hs].
Qed.

Lemma firstMarket_none (sym : string) (symbolDetails : list SymbolDetails) :
  firstMarket sym symbolDetails = None <->
  Forall (fun m => sd_id m <> sym) symbolDetails.
Proof.
  induction symbolDetails as [|m l IH]; [split; [constructor|reflexivity]|].
  cbn [firstMarket]. destruct (String.eqb (sd_id m) sym) eqn:Hm.
  - apply String.eqb_eq in Hm. split; [discriminate|].
    intros H. inversion H; subst. congruence.
  - apply String.eqb_neq in Hm. rewrite IH. split.
    + now constructor.
    + intros H. now inversion H.
Qed.

(** X14. [createChankura] starts the gateway exactly when the venue lists
    a market whose id is the symbol of the pair; it takes the first such
    market of the list, and the tick of the gateway is what [10 ** x]
    gives for [x] the opposite of the price precision of that market;
    when no market matches, an empty list included, it throws and no
    gateway is constructed. *)
Theorem createChankura_resolution
        (symbolDetails : list SymbolDetails) (config : Config)
        (base quote : string) (now : Z) :
  let sym := ChankuraSymbolProvider base quote in
  match createChankura symbolDetails config base quote now with
  | inr (details, booted) =>
      exists pre s post,
        symbolDetails = pre ++ s :: post
        /\ Forall (fun m => sd_id m <> sym) pre
        /\ sd_id s = sym
        /\ minTickIncrement details = TenToThe (- sd_price_precision s)
        /\ booted = create config sym now
  | inl e =>
      Forall (fun m => sd_id m <> sym) symbolDetails
      /\ e = CannotMatchPair base quote
  end.
Proof.
  intros sym. unfold createChankura. fold sym.
  destruct (firstMarket sym symbolDetails) as [s|] eqn:Hf.
  - destruct (firstMarket_some sym symbolDetails s Hf)
      as [pre [post [Hl [Hpre Hs]]]].
    exists pre, s, post. cbn [minTickIncrement].
    replace (-1 * sd_price_precision s) with (- sd_price_precision s) by lia.
    repeat split; assumption.
  - split; [now apply firstMarket_none|reflexivity].
Qed.

Lemma lowerChar_idempotent (c : ascii) : lowerChar (lowerChar c) = lowerChar c.
Proof.
  unfold lowerChar.
  destruct ((65 <=? Js.code c) && (Js.code c <=? 90))%N eqn:Hc.
  - apply andb_true_iff in Hc. destruct Hc as [H1 H2].
    apply N.leb_le in H1, H2. unfold Js.code in *.
    rewrite N_ascii_embedding by lia.
    replace ((65 <=? N_of_ascii c + 32) && (N_of_ascii c + 32 <=? 90))%N
      with false; [reflexivity|].
    symmetry. apply andb_false_iff. right. apply N.leb_gt. lia.
  - now rewrite Hc.
Qed.

Lemma toLowerCase_idempotent (s : string) :
  toLowerCase (toLowerCase s) = toLowerCase s.
Proof.
  induction s as [|c s IH]; [reflexivity|].
  cbn. now rewrite lowerChar_idempotent, IH.
Qed.

Lemma toLowerCase_app (a b : string) :
  toLowerCase (a ++ b) = (toLowerCase a ++ toLowerCase b)%string.
Proof. induction a as [|c a IH]; [reflexivity|]. cbn. now rewrite IH. Qed.

(** X15. The symbol of the pair is entirely in lower case and does not
    depend on the case of the names of the two currencies; since the
    markets are matched by equality of the id, a venue whose market ids
    all have an upper-case letter gives no match, and [createChankura]
    throws. *)
Theorem symbol_lower_case (base quote : string) :
  toLowerCase (ChankuraSymbolProvider base quote)
  = ChankuraSymbolProvider base quote
  /\ ChankuraSymbolProvider (toLowerCase base) (toLowerCase quote)
     = ChankuraSymbolProvider base quote
  /\ (forall symbolDetails config now,
         Forall (fun m => toLowerCase (sd_id m) <> sd_id m) symbolDetails ->
         createChankura symbolDetails config base quote now
         = inl (CannotMatchPair base quote)).
Proof.
  assert (Hlow : toLowerCase (ChankuraSymbolProvider base quote)
                 = ChankuraSymbolProvider base quote).
  { unfold ChankuraSymbolProvider.
    now rewrite toLowerCase_app, !toLowerCase_idempotent. }
  split; [exact Hlow|]. split.
  - unfold ChankuraSymbolProvider. now rewrite !toLowerCase_idempotent.
  - intros symbolDetails config now Hall. unfold createChankura.
    replace (firstMarket (ChankuraSymbolProvider base quote) symbolDetails)
      with (@None SymbolDetails); [reflexivity|].
    symmetry. apply firstMarket_none.
    eapply Forall_impl; [|exact Hall].
    intros m Hm Heq. apply Hm. rewrite Heq. exact Hlow.
Qed.

End Gateway.





(** ** The connector on concrete inputs

    The statements above hold for every digest function and every printer
    of numbers. To run the connector, the digest is replaced by a constant
    of its shape (64 hexadecimal digits) and the printer by one that prints
    the integers. *)

Definition sampleDigest (secret payload : string) : string :=
  "b5d4045c3f466fa91fe2cc6abe79232a1a57cdf104f7a26e716e0a1e2789df78".

Definition samplePrint (n : Js.number) : string :=
  match n with
  | Js.Dec false q =>
      if (Qden q =? 1)%positive then Js.intToString (Qnum q) else "NaN"
  | _ => "NaN"
  end.

Definition sampleConfig : Config :=
  {| ChankuraHttpUrl := "https://chankura.com/api/v2";
     ChankuraKey := "KEY";
     ChankuraSecret := "SECRET" |}.

(** The connector right after its construction at 1700000000000: the
    order book, the trades and the positions are in flight. *)
Definition sampleState : State :=
  fst (create sampleDigest sampleConfig "btcusd" 1700000000000).

Definition sampleOrder : OrderStatusReport :=
  {| orderId := "o1"; exchangeId := None; side := Side.Bid;
     quantity := Js.Dec false (1 # 1)%Q; price := Js.Dec false (100 # 1)%Q;
     timeInForce := TimeInForce.GTC; type := OrderType.Limit;
     report_time := 1700000000500 |}.

Definition sampleIocOrder : OrderStatusReport :=
  {| orderId := "o2"; exchangeId := None; side := Side.Ask;
     quantity := Js.Dec false (1 # 1)%Q; price := Js.Dec false (100 # 1)%Q;
     timeInForce := TimeInForce.IOC; type := OrderType.Limit;
     report_time := 1700000000500 |}.

Definition staleReply : Payload :=
  NewOrderPayload
    {| new_id := None; new_message := Some "Nonce is too small." |}.

Definition acceptedReply : Payload :=
  NewOrderPayload {| new_id := Some "77"; new_message := None |}.

(** The sample order submitted at 1700000000600: its call is the fourth
    request in flight and carries the nonce 1700000000001. *)
Definition sampleSubmitted : State :=
  next (step sampleDigest samplePrint 1700000000600 sampleState
             (SendOrder sampleOrder)).



(** C1 on the sample: the venue rejects the create-order call twice for
    its nonce; the two retries carry the next two nonces. *)
Lemma stale_nonce_retry_sample :
  signedNonces
    (snd (run sampleDigest samplePrint sampleSubmitted
              (staleTurns 3 3 [(1700000000700, staleReply);
                               (1700000000800, staleReply)])))
  = [1700000000002; 1700000000003].
Proof.
  pose proof (fun p a k H1 H2 H3 =>
                stale_nonce_retry sampleDigest samplePrint
                  sampleConfig "btcusd" 1700000000000
                  [(1700000000600, SendOrder sampleOrder)] 3
                  p a k (1700000000700, staleReply)
                  [(1700000000800, staleReply)]
                  1700000000900 acceptedReply H1 H2 H3 eq_refl) as H.
  specialize (H _ _ _ eq_refl eq_refl).
  destruct H as [_ [_ [H _]]].
  - repeat constructor.
  - exact H.
Defined.



(** C10 on the sample: the answer to the order-book request that the
    constructor sent is the response of the scenario. *)
Lemma order_book_conversion_sample :
  snd (respond sampleDigest samplePrint 1700000000400 sampleState 0
         (Parsed (OrderBookPayload scenarioBook)))
  = [MarketData
       {| bids := [{| ms_price := Js.Dec false (201 # 2)%Q;
                      ms_size := Js.Dec false (2 # 1)%Q |}];
          asks := [{| ms_price := Js.Dec false (101 # 1)%Q;
                      ms_size := Js.Dec false (1 # 1)%Q |}];
          market_time := 1700000000400 |}].
Proof.
  destruct (order_book_conversion sampleDigest samplePrint 1700000000400 sampleState 0 _
              scenarioBook eq_refl eq_refl) as [_ [_ [_ [_ [_ [_ H]]]]]].
  exact H.
Defined.

(** C3 does not hold of the order reconciliation: the request for the fills
    sent by the tick at 1700000008000 fails, and the cursor, which was at
    1700000000000, is at 1700000008000; the next tick asks for the fills
    since 1700000008, not since 1700000000. *)
Lemma reconciliation_cursor_moves_on_failed_poll :
  let ticked :=
    fst (downloadOrderStatuses sampleDigest 1700000008000 sampleState) in
  let failed :=
    fst (respond sampleDigest samplePrint 1700000009000 ticked 3
                 (Failed "ETIMEDOUT")) in
  oe_since sampleState = 1700000000000
  /\ signedCalls
       (snd (downloadOrderStatuses sampleDigest 1700000008000 sampleState))
     = [("GET", "trades/my.json",
         [("timestamp", Js.VInt 1700000000);
          ("market", Js.VString "btcusd")])]
  /\ snd (respond sampleDigest samplePrint 1700000009000 ticked 3
                  (Failed "ETIMEDOUT"))
     = [LogError (RequestError "ETIMEDOUT")
          "https://chankura.com/api/v2/trades/my.json?access_key=KEY&tonce=1700000000001&timestamp=1700000000&market=btcusd&signatureb5d4045c3f466fa91fe2cc6abe79232a1a57cdf104f7a26e716e0a1e2789df78";
        Uncaught (RequestError "ETIMEDOUT")]
  /\ oe_since failed = 1700000008000
  /\ signedCalls (snd (downloadOrderStatuses sampleDigest 1700000016000 failed))
     = [("GET", "trades/my.json",
         [("timestamp", Js.VInt 1700000008);
          ("market", Js.VString "btcusd")])].
Proof. repeat split; reflexivity. Qed.

(** C6 does not hold of a limit order that is immediate-or-cancel: the
    submission throws, and no update is emitted. *)
Lemma submit_throws_on_ioc_limit :
  thrown (sendOrder sampleDigest samplePrint 1700000000600 sampleState
                    sampleIocOrder)
  = Some (UnsupportedTif TimeInForce.IOC OrderType.Limit)
  /\ out (sendOrder sampleDigest samplePrint 1700000000600 sampleState
                    sampleIocOrder) = [].
Proof. split; reflexivity. Qed.

(** C8 does not hold: the cancellation of an order without an exchange id
    calls the venue, with an empty id. *)
Lemma cancel_without_exchange_id_calls_venue :
  exchangeId sampleOrder = None
  /\ requests (out (cancelOrder sampleDigest 1700000000600 sampleState
                                sampleOrder))
     = [{| opt_timeout := 15000;
           opt_url := "https://chankura.com/api/v2/order/delete.json?access_key=KEY&tonce=1700000000001&id=&signatureb5d4045c3f466fa91fe2cc6abe79232a1a57cdf104f7a26e716e0a1e2789df78";
           opt_qs := None;
           opt_method := "POST" |}].
Proof. split; reflexivity. Qed.

(** ** Properties of the event channels *)

Section EvtProperties.

Variable H : Type.
Variable T : Type.
Variable same : forall a b : H, {a = b} + {a <> b}.

Lemma evt_off_In (handlers : list H) (h h' : H) :
  In h' (Evt.off same handlers h) <-> In h' handlers /\ h' <> h.
Proof.
  unfold Evt.off. rewrite filter_In.
  destruct (same h' h) as [->|Hne]; intuition congruence.
Qed.

Lemma evt_off_fresh (handlers : list H) (h : H) :
  ~ In h handlers -> Evt.off same handlers h = handlers.
Proof.
  induction handlers as [|x l IH]; intros Hn; [reflexivity|].
  cbn. destruct (same x h) as [->|Hne].
  - elim Hn. now left.
  - f_equal. apply IH. intros Hin. apply Hn. now right.
Qed.

Lemma evt_off_app (a b : list H) (h : H) :
  Evt.off same (a ++ b) h = Evt.off same a h ++ Evt.off same b h.
Proof. apply filter_app. Qed.

Lemma evt_off_self (h : H) : Evt.off same [h] h = [].
Proof. cbn. now destruct (same h h). Qed.

(** X1. Unsubscribing a handler removes every subscription of it, the
    earlier ones as well as the last, and leaves the subscriptions of every
    other handler as they were; so subscribing a handler and unsubscribing
    it gives back the handlers there were exactly when the handler was not
    subscribed before. *)
Theorem evt_off_removes_all (handlers : list H) (h : H) :
  ~ In h (Evt.off same handlers h)
  /\ (forall h', h' <> h ->
        count_occ same (Evt.off same handlers h) h'
        = count_occ same handlers h')
  /\ Evt.off same (Evt.on handlers h) h = Evt.off same handlers h
  /\ (Evt.off same (Evt.on handlers h) h = handlers <-> ~ In h handlers).
Proof.
  split; [rewrite evt_off_In; tauto|]. split; [|split].
  - intros h' Hne. induction handlers as [|x l IH]; [reflexivity|].
    unfold Evt.off in *. cbn [filter count_occ].
    destruct (same x h) as [->|Hxh].
    + destruct (same h h'); [congruence|exact IH].
    + cbn [count_occ]. now rewrite IH.
  - unfold Evt.on. now rewrite evt_off_app, evt_off_self, app_nil_r.
  - unfold Evt.on. rewrite evt_off_app, evt_off_self, app_nil_r. split.
    + intros Heq Hin. rewrite <- Heq in Hin. apply evt_off_In in Hin. tauto.
    + apply evt_off_fresh.
Qed.

Lemma triggerFrom_quiet (body : H -> list (Evt.Cmd H)) (data : T)
      (rest : list H) :
  forall done rounds,
    Forall (fun h => body h = []) rest ->
    (List.length rest < rounds)%nat ->
    Evt.triggerFrom same body data rounds (done ++ rest) (List.length done)
    = Some (done ++ rest, map (fun h => (h, data)) rest).
Proof.
  induction rest as [|h r IH]; intros done rounds Hq Hr.
  - destruct rounds; [cbn in Hr; lia|]. cbn [Evt.triggerFrom].
    rewrite app_nil_r.
    replace (nth_error done (List.length done)) with (@None H);
      [reflexivity|].
    symmetry. apply nth_error_None. lia.
  - destruct rounds; [cbn in Hr; lia|]. cbn [Evt.triggerFrom].
    rewrite nth_error_app2 by lia. rewrite Nat.sub_diag. cbn [nth_error].
    inversion Hq as [|x l Hh Hrest]; subst. rewrite Hh. cbn [fold_left].
    replace (done ++ h :: r) with ((done ++ [h]) ++ r)
      by (now rewrite <- app_assoc).
    replace (S (List.length done)) with (List.length (done ++ [h]))
      by (rewrite length_app; cbn; lia).
    rewrite IH; [reflexivity|exact Hrest|cbn in Hr; lia].
Qed.

(** X2. When no handler changes the subscriptions while it runs,
    [trigger] returns, has called every subscribed handler with the data
    once per subscription, in the order of subscription (a handler
    subscribed twice is called twice), and leaves the handlers as they
    were. *)
Theorem evt_trigger_calls_in_order (body : H -> list (Evt.Cmd H)) (data : T)
        (handlers : list H) (rounds : nat) :
  Forall (fun h => body h = []) handlers ->
  (List.length handlers < rounds)%nat ->
  Evt.trigger same body data rounds handlers
  = Some (handlers, map (fun h => (h, data)) handlers).
Proof.
  intros Hq Hr. exact (triggerFrom_quiet body data handlers [] rounds Hq Hr).
Qed.

Lemma triggerFrom_quiet_prefix (body : H -> list (Evt.Cmd H)) (data : T)
      (pre : list H) :
  forall done tail rounds,
    Forall (fun h => body h = []) pre ->
    Evt.triggerFrom same body data (List.length pre + rounds)
                    (done ++ pre ++ tail) (List.length done)
    = match Evt.triggerFrom same body data rounds (done ++ pre ++ tail)
                            (List.length (done ++ pre)) with
      | Some (after, calls) =>
          Some (after, map (fun h => (h, data)) pre ++ calls)
      | None => None
      end.
Proof.
  induction pre as [|h r IH]; intros done tail rounds Hq.
  - cbn [List.length Nat.add app map]. rewrite app_nil_r.
    now destruct (Evt.triggerFrom _ _ _ _ _ _) as [[a c]|].
  - cbn [List.length Nat.add Evt.triggerFrom].
    rewrite nth_error_app2 by lia. rewrite Nat.sub_diag. cbn [app nth_error].
    inversion Hq as [|x l Hh Hrest]; subst. rewrite Hh. cbn [fold_left].
    replace (done ++ h :: r ++ tail) with ((done ++ [h]) ++ r ++ tail)
      by (now rewrite <- app_assoc).
    replace (S (List.length done)) with (List.length (done ++ [h]))
      by (rewrite length_app; cbn; lia).
    rewrite (IH (done ++ [h]) tail rounds Hrest).
    replace ((done ++ [h]) ++ r) with (done ++ h :: r)
      by (now rewrite <- app_assoc).
    now destruct (Evt.triggerFrom _ _ _ _ _ _) as [[a c]|].
Qed.

(** X3. A handler that unsubscribes itself while it runs makes
    [trigger] skip the handler subscribed right after it: the loop reads
    the array again at the next index, where the array, one shorter, now
    holds the handler after the skipped one. Every other handler is called
    once, in order. *)
Theorem evt_self_unsubscribe_skips_next
        (body : H -> list (Evt.Cmd H)) (data : T)
        (pre post : list H) (h next : H) (rounds : nat) :
  body h = [Evt.Off h] ->
  ~ In h pre -> ~ In h (next :: post) ->
  Forall (fun x => body x = []) pre ->
  Forall (fun x => body x = []) post ->
  (List.length (pre ++ h :: next :: post) < rounds)%nat ->
  Evt.trigger same body data rounds (pre ++ h :: next :: post)
  = Some (pre ++ next :: post,
          map (fun x => (x, data)) pre ++ (h, data)
            :: map (fun x => (x, data)) post).
Proof.
  intros Hh Hpre Hpost Hqpre Hqpost Hr.
  rewrite length_app in Hr. cbn [List.length] in Hr.
  unfold Evt.trigger.
  replace rounds with (List.length pre + (rounds - List.length pre))%nat by lia.
  rewrite (triggerFrom_quiet_prefix body data pre [] (h :: next :: post)
             _ Hqpre).
  cbn [app]. remember (rounds - List.length pre)%nat as m eqn:Hm.
  destruct m as [|m]; [lia|]. cbn [Evt.triggerFrom].
  rewrite nth_error_app2 by lia. rewrite Nat.sub_diag. cbn [nth_error].
  rewrite Hh. cbn [fold_left Evt.exec].
  rewrite evt_off_app, (evt_off_fresh pre h Hpre).
  change (h :: next :: post) with ([h] ++ next :: post).
  rewrite evt_off_app, evt_off_self, (evt_off_fresh _ h Hpost). cbn [app].
  replace (pre ++ next :: post) with ((pre ++ [next]) ++ post)
    by (now rewrite <- app_assoc).
  replace (S (List.length pre)) with (List.length (pre ++ [next]))
    by (rewrite length_app; cbn; lia).
  rewrite (triggerFrom_quiet body data post (pre ++ [next]) m Hqpost) by lia.
  reflexivity.
Qed.

Lemma triggerFrom_never_ends (body : H -> list (Evt.Cmd H)) (data : T) (h : H) :
  body h = [Evt.On h] ->
  forall rounds handlers i,
    (exists init, handlers = init ++ [h]) ->
    Forall (fun x => body x = [] \/ x = h) handlers ->
    (i < List.length handlers)%nat ->
    Evt.triggerFrom same body data rounds handlers i = None.
Proof.
  intros Hh. induction rounds as [|rounds IH]; intros handlers i Hlast Hall Hi;
    [reflexivity|].
  cbn [Evt.triggerFrom].
  destruct (nth_error handlers i) as [x|] eqn:Hx;
    [|apply nth_error_None in Hx; lia].
  assert (Hin : In x handlers) by (eapply nth_error_In; eassumption).
  rewrite Forall_forall in Hall.
  destruct (Hall x Hin) as [Hq| ->].
  - rewrite Hq. cbn [fold_left].
    rewrite IH; [reflexivity|exact Hlast|now apply Forall_forall|].
    destruct Hlast as [init ->]. rewrite length_app in *. cbn in *.
    assert (i <> List.length init).
    { intros ->. rewrite nth_error_app2, Nat.sub_diag in Hx by lia.
      cbn in Hx. inversion Hx; subst. rewrite Hh in Hq. discriminate. }
    lia.
  - rewrite Hh. cbn [fold_left Evt.exec]. unfold Evt.on.
    rewrite IH; [reflexivity| | |].
    + now exists handlers.
    + apply Forall_forall. intros y Hy. apply in_app_or in Hy.
      destruct Hy as [Hy|[<-|[]]]; [now apply Hall|now right].
    + rewrite length_app. cbn. lia.
Qed.

(** X4. When the last handler subscribed subscribes itself again each
    time it is called, and the others leave the subscriptions alone,
    [trigger] never returns, however many rounds it is given: each call
    makes the array one longer. *)
Theorem evt_resubscribing_handler_never_returns
        (body : H -> list (Evt.Cmd H)) (data : T)
        (init : list H) (h : H) (rounds : nat) :
  body h = [Evt.On h] ->
  Forall (fun x => body x = [] \/ x = h) init ->
  Evt.trigger same body data rounds (init ++ [h]) = None.
Proof.
  intros Hh Hall. apply (triggerFrom_never_ends body data h Hh).
  - now exists init.
  - apply Forall_app. split; [exact Hall|]. constructor; [now right|constructor].
  - rewrite length_app. cbn. lia.
Qed.

End EvtProperties.

(** ** Further runs on concrete inputs *)

(** Handlers named by numbers; the handler 2 unsubscribes itself when it
    is called, the handler 9 subscribes itself again. *)
Definition sampleBody (h : nat) : list (Evt.Cmd nat) :=
  match h with
  | 2%nat => [Evt.Off 2%nat]
  | 9%nat => [Evt.On 9%nat]
  | _ => []
  end.

Definition sampleTrade : ChankuraMarketTrade :=
  {| trade_id := "1"; trade_price := "50"; trade_volume := "0.1";
     trade_market := "btcusd"; trade_created_at := "2024-01-01T00:00:00Z";
     trade_side := "buy" |}.

Definition sampleAccount : ChankuraPositionResponseItem :=
  {| pos_currency := "btc"; pos_balance := "1.5"; pos_locked := "0.5" |}.

(** X2 on handlers that leave the channel alone, one subscribed twice. *)
Lemma evt_trigger_calls_in_order_sample :
  Evt.trigger Nat.eq_dec sampleBody "connected" 4 [1; 3; 1]%nat
  = Some ([1; 3; 1]%nat,
          [(1%nat, "connected"); (3%nat, "connected"); (1%nat, "connected")]).
Proof.
  apply (evt_trigger_calls_in_order nat string Nat.eq_dec sampleBody
           "connected" [1; 3; 1]%nat 4).
  - repeat constructor.
  - cbn. lia.
Defined.

(** X3 on four handlers: the third is not called. *)
Lemma evt_self_unsubscribe_skips_next_sample :
  Evt.trigger Nat.eq_dec sampleBody "connected" 5 [1; 2; 3; 4]%nat
  = Some ([1; 3; 4]%nat,
          [(1%nat, "connected"); (2%nat, "connected"); (4%nat, "connected")]).
Proof.
  apply (evt_self_unsubscribe_skips_next nat string Nat.eq_dec sampleBody
           "connected" [1%nat] [4%nat] 2%nat 3%nat 5).
  - reflexivity.
  - intros [H|[]]. discriminate.
  - intros [H|[H|[]]]; discriminate.
  - repeat constructor.
  - repeat constructor.
  - cbn. lia.
Defined.

(** X4 on two handlers, with a thousand rounds. *)
Lemma evt_resubscribing_handler_never_returns_sample :
  Evt.trigger Nat.eq_dec sampleBody "connected" 1000 [1; 9]%nat = None.
Proof.
  apply (evt_resubscribing_handler_never_returns nat string Nat.eq_dec
           sampleBody "connected" [1%nat] 9%nat 1000).
  - reflexivity.
  - repeat constructor.
Defined.

(** X8 on the sample: the answer to the refresh of the positions that the
    constructor sent. *)
Lemma positions_conversion_sample :
  respond sampleDigest samplePrint 1700000000400 sampleState 2
          (Parsed (PositionsPayload [sampleAccount]))
  = (set_inflight sampleState (remove_at 2 (inflight sampleState)),
     [PositionUpdate {| amount := Js.Dec false (3 # 2)%Q;
                        heldAmount := Js.Dec false (1 # 2)%Q;
                        currency := "btc" |}]).
Proof.
  pose proof (fun p H1 H2 =>
                positions_conversion sampleDigest samplePrint 1700000000400
                  sampleState 2
                  p [sampleAccount] H1 H2) as H.
  specialize (H _ eq_refl (ex_intro _ _ eq_refl)).
  destruct H as [_ [_ [H _]]].
  exact H.
Defined.

(** X9 on the sample: the first trade batch, on the cold poller. *)
Lemma trades_conversion_sample :
  snd (respond sampleDigest samplePrint 1700000000400 sampleState 1
         (Parsed (MarketTradesPayload [sampleTrade])))
  = [MarketTrade
       {| mt_price := Js.Dec false (50 # 1)%Q;
          mt_size := Js.Dec false (1 # 10)%Q;
          mt_time := MomentOf "2024-01-01T00:00:00Z";
          isFirstObservedBatch := true;
          mt_side := Side.Bid |}].
Proof.
  destruct (trades_conversion sampleDigest samplePrint 1700000000400
              sampleState 1
              (Parsed (MarketTradesPayload [sampleTrade])) [sampleTrade]
              eq_refl) as [H _].
  exact H.
Defined.

(** X11 on the sample: the stale-nonce answer to the create-order call
    sends a request, and is a parsed answer to a signed call. *)
Lemma completion_sends_only_retries_and_details_sample :
  exists p attempt k pl,
    nth_error (inflight sampleSubmitted) 3 = Some p
    /\ p_then p = ThenPost attempt k
    /\ Parsed staleReply = Parsed pl
    /\ (isStaleNonce pl = true
        \/ (k = ThenOrderStatuses
            /\ exists first rest,
                Js.elements (bodyOf pl) = Some first :: rest
                /\ first <> Js.JNull)).
Proof.
  apply (completion_sends_only_retries_and_details sampleDigest samplePrint
           1700000000700 sampleSubmitted 3 (Parsed staleReply)).
  discriminate.
Defined.

(** X12 on the sample: the first batch is processed at 1700000000400, and
    the tick at 1700000015000 asks for the trades since 1700000000. *)
Lemma trades_poll_since_sample :
  requests
    (snd (downloadMarketTrades 1700000015000
            (fst (respond sampleDigest samplePrint 1700000000400 sampleState 1
                    (Parsed (MarketTradesPayload [sampleTrade]))))))
  = [{| opt_timeout := 15000;
        opt_url := "https://chankura.com/api/v2/trades.json";
        opt_qs := Some [("market", Js.VString "btcusd");
                        ("timestamp", Js.VInt 1700000000)];
        opt_method := "GET" |}].
Proof.
  destruct (trades_poll_since sampleDigest samplePrint 1700000000400
              1700000015000
              sampleState 1 (Parsed (MarketTradesPayload [sampleTrade]))
              [sampleTrade] eq_refl) as [H _].
  exact H.
Defined.

(** The body with which the venue refuses a request:
    [{"error":{"code":1001,"message":"market does not have a valid value"}}] *)
Definition errorBody : Js.json :=
  Js.JObject
    [("error",
      Js.JObject
        [("code", Js.JNumber (Js.Dec false (1001 # 1)%Q));
         ("message", Js.JString "market does not have a valid value")])].

(** C9 does not hold when the venue refuses the first request for the
    trades: [onTrades] runs on the body of the refusal, takes its one
    property value for a trade, which it emits with the flag [true], and
    sets the cursor; the first batch of trades, which answers the next
    tick, is then emitted with the flag [false]. *)
Lemma first_trade_batch_flagged_false_after_error_body :
  let turns :=
    [(1700000000400, Response 1 (Parsed (Body errorBody)));
     (1700000015000, TimerMarketTrades);
     (1700000015400, Response 2 (Parsed (MarketTradesPayload [sampleTrade])))]
  in
  snd (respond sampleDigest samplePrint 1700000000400 sampleState 1
               (Parsed (Body errorBody)))
  = [MarketTrade {| mt_price := Js.NaN; mt_size := Js.NaN;
                    mt_time := MomentOfValue None;
                    isFirstObservedBatch := true;
                    mt_side := Side.Unknown |}]
  /\ md_since (fst (respond sampleDigest samplePrint 1700000000400 sampleState
                            1 (Parsed (Body errorBody))))
     = Some 1700000000
  /\ processedBatches sampleDigest samplePrint sampleState turns
     = [[sampleTrade]]
  /\ map (map isFirstObservedBatch)
         (tradeBatches sampleDigest samplePrint sampleState turns)
     = [[false]]
  /\ firstBatchFlags true
       (processedBatches sampleDigest samplePrint sampleState turns)
     = [[true]].
Proof. repeat split; reflexivity. Qed.

(** A body on which [onTrades] throws midway leaves the poller cold: the
    trade before the [null] is emitted with the flag [true], the promise
    is rejected, and the trade of the next body is emitted with the flag
    [true] as well. *)
Example trades_before_a_null_element :
  let turns :=
    [(1700000000400,
      Response 1 (Parsed (Body (Js.JArray [marketTradeJson sampleTrade;
                                           Js.JNull]))));
     (1700000015000, TimerMarketTrades);
     (1700000015400, Response 2 (Parsed (MarketTradesPayload [sampleTrade])))]
  in
  map (fun o => match o with
                | MarketTrade t => Some (isFirstObservedBatch t)
                | _ => None
                end)
      (snd (respond sampleDigest samplePrint 1700000000400 sampleState 1
                    (Parsed (Body (Js.JArray [marketTradeJson sampleTrade;
                                              Js.JNull])))))
  = [Some true; None]
  /\ isCold (fst (respond sampleDigest samplePrint 1700000000400 sampleState 1
                          (Parsed (Body (Js.JArray
                                           [marketTradeJson sampleTrade;
                                            Js.JNull])))))
     = true
  /\ map (map isFirstObservedBatch)
         (tradesByBody sampleDigest samplePrint sampleState turns)
     = [[true]; [true]].
Proof. repeat split; reflexivity. Qed.

(** X11 on a refusal: the tick of the reconciliation is answered with the
    body of a refusal, and the loop over the fills takes its one property
    value for a fill: a call for the detail of an order goes out, with an
    empty id. *)
Example order_detail_call_for_an_error_body :
  requests
    (snd (respond sampleDigest samplePrint 1700000009000
            (fst (downloadOrderStatuses sampleDigest 1700000008000
                    sampleState))
            3 (Parsed (Body errorBody))))
  = [{| opt_timeout := 15000;
        opt_url := "https://chankura.com/api/v2/order.json?access_key=KEY&tonce=1700000000002&id=&signatureb5d4045c3f466fa91fe2cc6abe79232a1a57cdf104f7a26e716e0a1e2789df78";
        opt_qs := None;
        opt_method := "GET" |}].
Proof. reflexivity. Qed.
